(** * network_stats: a shallow embedding of the sysfs counter monitor

    The development follows [network_stats.cpp] / [network_stats.h] and the
    reporting macros of [program_IO.h].  The operating system (open, lseek,
    read, close, opendir, errno) and the C library ([strtol]) are modelled by
    a small deterministic [world]; the monitor object is a record whose two
    [std::map]s are finite maps iterated in ascending key order.

    Conventions of the model.  A method that can throw returns an [outcome]
    (or a [result]) that carries the object and the world as the throw left
    them, so that what a client sees after catching is part of the
    statements.  [errno] is a field of the world: the code reads it, so a
    value left by an earlier call is visible to a later one.  [long] has 64
    bits.  A statistics file is read in one [read] call, as sysfs files
    are.  The world records the system calls and the printed messages in a
    trace, on which the statements about [open], [close] and reporting are
    made. *)

From Stdlib Require Import ZArith Ascii String DecimalString DecimalN Lia.
From stdpp Require Import gmap strings list.

Local Open Scope Z_scope.

(** ** Counter kinds: [enum rx_fields], [enum tx_fields] *)

Inductive rx_fields :=
  | RX_BYTES | RX_COMPRESSED | RX_CRC_ERRORS | RX_DROPPED | RX_ERRORS
  | RX_FIFO_ERRORS | RX_FRAME_ERRORS | RX_LENGTH_ERRORS | RX_MISSED_ERRORS
  | RX_OVER_ERRORS | RX_PACKETS.

Inductive tx_fields :=
  | TX_ABORTED_ERRORS | TX_BYTES | TX_CARRIER_ERRORS | TX_COMPRESSED
  | TX_DROPPED | TX_ERRORS | TX_FIFO_ERRORS | TX_HEARTBEAT_ERRORS
  | TX_PACKETS | TX_WINDOW_ERRORS.

(** The enumerators in declaration order, which is the order of their
    integer values and hence the iteration order of a [std::map] or
    [std::set] keyed by them. *)
Definition all_rx_fields : list rx_fields :=
  [RX_BYTES; RX_COMPRESSED; RX_CRC_ERRORS; RX_DROPPED; RX_ERRORS;
   RX_FIFO_ERRORS; RX_FRAME_ERRORS; RX_LENGTH_ERRORS; RX_MISSED_ERRORS;
   RX_OVER_ERRORS; RX_PACKETS].

Definition all_tx_fields : list tx_fields :=
  [TX_ABORTED_ERRORS; TX_BYTES; TX_CARRIER_ERRORS; TX_COMPRESSED;
   TX_DROPPED; TX_ERRORS; TX_FIFO_ERRORS; TX_HEARTBEAT_ERRORS;
   TX_PACKETS; TX_WINDOW_ERRORS].

Definition rx_value (r : rx_fields) : nat :=
  match r with
  | RX_BYTES => 0 | RX_COMPRESSED => 1 | RX_CRC_ERRORS => 2
  | RX_DROPPED => 3 | RX_ERRORS => 4 | RX_FIFO_ERRORS => 5
  | RX_FRAME_ERRORS => 6 | RX_LENGTH_ERRORS => 7 | RX_MISSED_ERRORS => 8
  | RX_OVER_ERRORS => 9 | RX_PACKETS => 10
  end%nat.

Definition tx_value (t : tx_fields) : nat :=
  match t with
  | TX_ABORTED_ERRORS => 0 | TX_BYTES => 1 | TX_CARRIER_ERRORS => 2
  | TX_COMPRESSED => 3 | TX_DROPPED => 4 | TX_ERRORS => 5
  | TX_FIFO_ERRORS => 6 | TX_HEARTBEAT_ERRORS => 7 | TX_PACKETS => 8
  | TX_WINDOW_ERRORS => 9
  end%nat.

#[global] Instance rx_fields_eq_dec : EqDecision rx_fields.
Proof. solve_decision. Defined.

#[global] Instance tx_fields_eq_dec : EqDecision tx_fields.
Proof. solve_decision. Defined.

#[global] Instance rx_fields_countable : Countable rx_fields.
Proof.
  refine (inj_countable' rx_value (fun n => nth n all_rx_fields RX_BYTES) _).
  intros []; reflexivity.
Defined.

#[global] Instance tx_fields_countable : Countable tx_fields.
Proof.
  refine (inj_countable' tx_value
            (fun n => nth n all_tx_fields TX_ABORTED_ERRORS) _).
  intros []; reflexivity.
Defined.

(** [rx_name], [tx_name]: the STRINGIFY switch. *)
Definition rx_name (r : rx_fields) : string :=
  match r with
  | RX_BYTES => "RX_BYTES" | RX_COMPRESSED => "RX_COMPRESSED"
  | RX_CRC_ERRORS => "RX_CRC_ERRORS" | RX_DROPPED => "RX_DROPPED"
  | RX_ERRORS => "RX_ERRORS" | RX_FIFO_ERRORS => "RX_FIFO_ERRORS"
  | RX_FRAME_ERRORS => "RX_FRAME_ERRORS"
  | RX_LENGTH_ERRORS => "RX_LENGTH_ERRORS"
  | RX_MISSED_ERRORS => "RX_MISSED_ERRORS"
  | RX_OVER_ERRORS => "RX_OVER_ERRORS" | RX_PACKETS => "RX_PACKETS"
  end.

Definition tx_name (t : tx_fields) : string :=
  match t with
  | TX_ABORTED_ERRORS => "TX_ABORTED_ERRORS" | TX_BYTES => "TX_BYTES"
  | TX_CARRIER_ERRORS => "TX_CARRIER_ERRORS"
  | TX_COMPRESSED => "TX_COMPRESSED" | TX_DROPPED => "TX_DROPPED"
  | TX_ERRORS => "TX_ERRORS" | TX_FIFO_ERRORS => "TX_FIFO_ERRORS"
  | TX_HEARTBEAT_ERRORS => "TX_HEARTBEAT_ERRORS"
  | TX_PACKETS => "TX_PACKETS" | TX_WINDOW_ERRORS => "TX_WINDOW_ERRORS"
  end.

(** ** Constants *)

Definition SYSFS_PATH : string := "/sys/class/net/".
Definition STATS_DIR : string := "/statistics/".
Definition NAME : string := "network_stats".
Definition READ_SIZE : Z := 32.

(** The Makefile builds with [-DDEBUG_ON=1], so [CPRINT] prints. *)
Definition DEBUG_ON : bool := true.

(** [errno] values (Linux). *)
Definition ENOENT : Z := 2.
Definition EINTR : Z := 4.
Definition EIO : Z := 5.
Definition EBADF : Z := 9.
Definition ENODEV : Z := 19.
Definition EINVAL : Z := 22.
Definition ERANGE : Z := 34.
Definition EACCES : Z := 13.
Definition ENOTDIR : Z := 20.

(** [long] is 64 bits wide (LP64, the Linux targets that have sysfs). *)
Definition LONG_MAX : Z := 2 ^ 63 - 1.
Definition LONG_MIN : Z := - 2 ^ 63.

(** The conversion [(uint64_t)value] of a [long]. *)
Definition to_uint64 (value : Z) : Z := value mod 2 ^ 64.

(** ** Messages and exceptions ([program_IO.h]) *)

Inductive arg := AInt (n : Z) | AStr (s : string).

(** What the reporting macros hand to [cprint]: the format with its
    arguments, and for [error] the value of [errno] whose [strerror] text is
    appended.  [runtime] has no such field. *)
Inductive message :=
  | Trace (fmt : string) (args : list arg)
  | OsError (fmt : string) (args : list arg) (os_errno : Z)
  | LogicError (fmt : string) (args : list arg)
  | Report (fmt : string) (args : list arg) (os_errno : Z).

(** Every exception of the program is a [std::runtime_error] built by the
    [exception] macro from the printed message. *)
Inductive exception := runtime_error (what : message).

(** ** The world: operating system and C library state *)

(** What a path of the file system does when the monitor opens it and
    uses the descriptor. *)
Record resource := {
  seek_error : option Z;   (* [lseek] fails with this errno *)
  read_error : option Z;   (* [read] fails with this errno *)
  data : string;           (* the content a successful read starts from *)
  open_error : option Z    (* [open] fails with this errno: no permission,
                              a symbolic link loop, no descriptor left, ... *)
}.

Definition Text (s : string) : resource :=
  {| seek_error := None; read_error := None; data := s;
     open_error := None |}.

(** What [opendir] and [closedir] do at a path that is not among the
    directories that open and close without error. *)
Inductive dir_fault :=
  | opendir_fails (e : Z)    (* [opendir] returns NULL with this errno *)
  | closedir_fails (e : Z).  (* [opendir] succeeds, [closedir] fails with
                                this errno *)

Inductive event :=
  | EvOpen (path : string) (ret : Z)
  | EvClose (fd : Z) (ret : Z)
  | EvPrint (m : message).

Record world := {
  errno : Z;                       (* the thread's [errno] *)
  files : gmap string resource;    (* path -> statistics file; a path that
                                      is not there does not exist *)
  dirs : gset string;              (* directories [opendir] can open and
                                      [closedir] closes *)
  dir_faults : gmap string dir_fault; (* what happens at the other paths; a
                                      path in neither does not exist *)
  fds : gmap Z string;             (* open descriptors and their paths *)
  close_error : gmap Z Z;          (* descriptors whose [close] fails *)
  einval_on_no_digits : bool;      (* [strtol] sets EINVAL when it converts
                                      nothing (allowed by POSIX; musl does,
                                      glibc does not) *)
  stack : list ascii;              (* bytes an uninitialised buffer holds *)
  trace : list event;              (* system calls and output, oldest first *)
  (* the static members of [network_stats], empty until the first
     construction *)
  rx_fields_to_filename : gmap rx_fields string;
  tx_fields_to_filename : gmap tx_fields string
}.

Definition set_errno (e : Z) (w : world) : world :=
  {| errno := e; files := files w; dirs := dirs w;
     dir_faults := dir_faults w; fds := fds w; close_error := close_error w;
     einval_on_no_digits := einval_on_no_digits w; stack := stack w;
     trace := trace w; rx_fields_to_filename := rx_fields_to_filename w;
     tx_fields_to_filename := tx_fields_to_filename w |}.

Definition emit (ev : event) (w : world) : world :=
  {| errno := errno w; files := files w; dirs := dirs w;
     dir_faults := dir_faults w; fds := fds w; close_error := close_error w;
     einval_on_no_digits := einval_on_no_digits w; stack := stack w;
     trace := trace w ++ [ev];
     rx_fields_to_filename := rx_fields_to_filename w;
     tx_fields_to_filename := tx_fields_to_filename w |}.

Definition set_rx_filenames (m : gmap rx_fields string) (w : world) : world :=
  {| errno := errno w; files := files w; dirs := dirs w;
     dir_faults := dir_faults w; fds := fds w; close_error := close_error w;
     einval_on_no_digits := einval_on_no_digits w; stack := stack w;
     trace := trace w; rx_fields_to_filename := m;
     tx_fields_to_filename := tx_fields_to_filename w |}.

Definition set_tx_filenames (m : gmap tx_fields string) (w : world) : world :=
  {| errno := errno w; files := files w; dirs := dirs w;
     dir_faults := dir_faults w; fds := fds w; close_error := close_error w;
     einval_on_no_digits := einval_on_no_digits w; stack := stack w;
     trace := trace w; rx_fields_to_filename := rx_fields_to_filename w;
     tx_fields_to_filename := m |}.

Definition set_fds (t : gmap Z string) (w : world) : world :=
  {| errno := errno w; files := files w; dirs := dirs w;
     dir_faults := dir_faults w; fds := t; close_error := close_error w;
     einval_on_no_digits := einval_on_no_digits w; stack := stack w;
     trace := trace w; rx_fields_to_filename := rx_fields_to_filename w;
     tx_fields_to_filename := tx_fields_to_filename w |}.

(** Outcome of a call that returns a value: normal return or a thrown
    exception, with the world as the call left it. *)
Inductive result (A : Type) :=
  | Ok (a : A) (w : world)
  | Err (e : exception) (w : world).
Arguments Ok {A} a w.
Arguments Err {A} e w.

(** *** Reporting macros *)

Definition cprint (m : message) (w : world) : world := emit (EvPrint m) w.

(** [CPRINT]: compiled away unless [DEBUG_ON]. *)
Definition CPRINT (fmt : string) (args : list arg) (w : world) : world :=
  if DEBUG_ON then cprint (Trace fmt args) w else w.

(** [ERROR]: print the message with [strerror(errno)], then throw.  The
    exception under way is returned with the world it leaves. *)
Definition ERROR (fmt : string) (args : list arg) (w : world)
  : exception * world :=
  let m := OsError fmt args (errno w) in (runtime_error m, cprint m w).

(** [RUNTIME]: print the message, then throw; [errno] is not consulted. *)
Definition RUNTIME (fmt : string) (args : list arg) (w : world)
  : exception * world :=
  let m := LogicError fmt args in (runtime_error m, cprint m w).

Definition throw {A} (ew : exception * world) : result A :=
  Err (fst ew) (snd ew).

(** *** System calls *)

(** [lseek(fd, 0, SEEK_SET)]. *)
Definition lseek (fd : Z) (w : world) : Z * world :=
  match fds w !! fd with
  | None => (-1, set_errno EBADF w)
  | Some path =>
      match files w !! path with
      | Some {| seek_error := Some e |} => (-1, set_errno e w)
      | _ => (0, w)
      end
  end.

(** [blit s buf]: the bytes [s] stored at the start of [buf]. *)
Definition blit (s buf : list ascii) : list ascii :=
  s ++ drop (length s) buf.

(** [read(fd, rbuf, count)] on a descriptor positioned at offset 0: at most
    [count] bytes of the content are stored at the start of [rbuf] and their
    number is returned; on failure -1 is returned and [errno] set. *)
Definition read (fd : Z) (rbuf : list ascii) (count : Z) (w : world)
  : Z * list ascii * world :=
  match fds w !! fd with
  | None => (-1, rbuf, set_errno EBADF w)
  | Some path =>
      match files w !! path with
      | None => (-1, rbuf, set_errno ENODEV w)
      | Some r =>
          match read_error r with
          | Some e => (-1, rbuf, set_errno e w)
          | None =>
              let s := take (Z.to_nat count) (list_ascii_of_string (data r)) in
              (Z.of_nat (length s), blit s rbuf, w)
          end
      end
  end.

(** The descriptor a successful [open] returns: the lowest one that is not
    open.  Among the [size t + 1] descriptors from 0 on, one is free. *)
Fixpoint lowest_free_from (n : nat) (fd : Z) (t : gmap Z string) : Z :=
  match n with
  | O => fd
  | S n =>
      match t !! fd with
      | None => fd
      | Some _ => lowest_free_from n (fd + 1) t
      end
  end.

Definition lowest_free (t : gmap Z string) : Z :=
  lowest_free_from (size t) 0 t.

(** [open(path, O_RDONLY)]: -1 with [errno] set when the path does not exist
    (ENOENT) or cannot be opened (the code the path gives); otherwise the
    lowest free descriptor, open on the path. *)
Definition open (path : string) (w : world) : Z * world :=
  match files w !! path with
  | None => (-1, emit (EvOpen path (-1)) (set_errno ENOENT w))
  | Some r =>
      match open_error r with
      | Some e => (-1, emit (EvOpen path (-1)) (set_errno e w))
      | None =>
          let fd := lowest_free (fds w) in
          (fd, emit (EvOpen path fd) (set_fds (<[fd := path]> (fds w)) w))
      end
  end.

(** [close(fd)]: the descriptor is released even when an error is
    returned. *)
Definition close (fd : Z) (w : world) : Z * world :=
  match fds w !! fd with
  | None => (-1, emit (EvClose fd (-1)) (set_errno EBADF w))
  | Some _ =>
      let w' := set_fds (delete fd (fds w)) w in
      match close_error w !! fd with
      | Some e => (-1, emit (EvClose fd (-1)) (set_errno e w'))
      | None => (0, emit (EvClose fd 0) w')
      end
  end.

(** *** The C library *)

Definition NUL : ascii := "000"%char.

(** [char rbuf[n]] without initialiser: [n] bytes of whatever the stack
    holds. *)
Definition uninitialised (n : Z) (w : world) : list ascii :=
  take (Z.to_nat n) (stack w ++ replicate (Z.to_nat n) NUL).

(** [rbuf[i] = c], defined for [0 <= i < length rbuf]. *)
Definition poke (rbuf : list ascii) (i : Z) (c : ascii) : list ascii :=
  if (0 <=? i) then <[Z.to_nat i := c]> rbuf else rbuf.

(** The C string a buffer holds: the bytes before the first NUL. *)
Fixpoint c_str (rbuf : list ascii) : list ascii :=
  match rbuf with
  | [] => []
  | c :: rest => if Ascii.eqb c NUL then [] else c :: c_str rest
  end.

Definition isspace (c : ascii) : bool :=
  let n := nat_of_ascii c in
  (n =? 32)%nat || ((9 <=? n)%nat && (n <=? 13)%nat).

Definition digit (c : ascii) : option Z :=
  let n := nat_of_ascii c in
  if ((48 <=? n)%nat && (n <=? 57)%nat)
  then Some (Z.of_nat n - 48) else None.

Fixpoint skip_space (s : list ascii) : list ascii :=
  match s with
  | c :: rest => if isspace c then skip_space rest else s
  | [] => []
  end.

(** The longest prefix of decimal digits: its value (accumulated onto
    [acc]) and its length. *)
Fixpoint digits (s : list ascii) (acc : Z) : Z * nat :=
  match s with
  | c :: rest =>
      match digit c with
      | Some d => let '(v, n) := digits rest (acc * 10 + d) in (v, S n)
      | None => (acc, O)
      end
  | [] => (acc, O)
  end.

(** The optional sign: whether it is a minus, how many characters it takes,
    and the text after it. *)
Definition sign_of (body : list ascii) : bool * nat * list ascii :=
  match body with
  | c :: rest =>
      if Ascii.eqb c "-" then (true, 1%nat, rest)
      else if Ascii.eqb c "+" then (false, 1%nat, rest)
      else (false, O, body)
  | [] => (false, O, body)
  end.

(** [strtol(nptr, &endptr, 10)]: white space, an optional sign, decimal
    digits.  The result is the value, the offset [endptr - nptr] and the
    world: out-of-range values are clamped with [errno = ERANGE]; when no
    digit is found the value is 0, [endptr = nptr] and [errno] is left alone
    or set to EINVAL as the library chooses.  On success [errno] is never
    written. *)
Definition strtol (nptr : list ascii) (w : world) : Z * nat * world :=
  let body := skip_space nptr in
  let skipped := (length nptr - length body)%nat in
  let '(negative, signed, rest) := sign_of body in
  let '(magnitude, n) := digits rest 0 in
  match n with
  | O => (0, O, if einval_on_no_digits w then set_errno EINVAL w else w)
  | _ =>
      let endptr := (skipped + signed + n)%nat in
      let value := if negative then - magnitude else magnitude in
      if value <? LONG_MIN then (LONG_MIN, endptr, set_errno ERANGE w)
      else if LONG_MAX <? value then (LONG_MAX, endptr, set_errno ERANGE w)
      else (value, endptr, w)
  end.

(** ** [network_stats::update_one] *)

(** Lines 222-233: rewind, read, and the two checks on the byte count. *)
Definition update_one_read (fd : Z) (w : world) : result (Z * list ascii) :=
  let '(ret, w) := lseek fd w in
  if ret =? -1 then throw (ERROR "lseek for file descriptor %d" [AInt fd] w)
  else
  let rbuf := uninitialised READ_SIZE w in
  let '(r_ret, rbuf, w) := read fd rbuf READ_SIZE w in
  if r_ret =? READ_SIZE then
    throw (RUNTIME "Wow, actually read %d bytes from fd %d"
                   [AInt r_ret; AInt fd] w)
  else if r_ret <=? 0 then
    throw (ERROR "Read %d bytes from fd %d" [AInt r_ret; AInt fd] w)
  else Ok (r_ret, rbuf) w.

(** Lines 234-244: terminate the string, convert, check [errno]. *)
Definition update_one_convert (fd : Z) (r_ret : Z) (rbuf : list ascii)
    (w : world) : result Z :=
  let rbuf := poke rbuf r_ret NUL in
  let '(value, endptr, w) := strtol (c_str rbuf) w in
  if negb (errno w =? 0) && negb (errno w =? EINTR) then
    throw (ERROR "Unable to convert network stat value '%s' to long for fd %d"
                 [AStr (string_of_list_ascii (c_str rbuf)); AInt fd] w)
  else Ok (to_uint64 value) w.

Definition update_one (fd : Z) (w : world) : result Z :=
  match update_one_read fd w with
  | Err e w => Err e w
  | Ok (r_ret, rbuf) w => update_one_convert fd r_ret rbuf w
  end.

(** ** The monitor object *)

(** [struct netdata]; [netdata_fd] is the constructor [netdata(int file_d,
    uint64_t v = 0)] at its default value. *)
Record netdata := { value : Z; fd : Z }.

Definition netdata_fd (file_d : Z) : netdata := {| value := 0; fd := file_d |}.

Record network_stats := {
  interface_name_ : string;
  interface_stats_path_ : string;
  rx_to_update_ : gmap rx_fields netdata;
  tx_to_update_ : gmap tx_fields netdata
}.

Record receive_data := {
  rx_bytes : Z; rx_compressed : Z; rx_CRC_errors : Z; rx_dropped : Z;
  rx_errors : Z; rx_FIFO_errors : Z; rx_frame_errors : Z;
  rx_length_errors : Z; rx_missed_errors : Z; rx_over_errors : Z;
  rx_packets : Z
}.

Record transmit_data := {
  tx_aborted_errors : Z; tx_bytes : Z; tx_carrier_errors : Z;
  tx_compressed : Z; tx_dropped : Z; tx_errors : Z; tx_FIFO_errors : Z;
  tx_heartbeat_errors : Z; tx_packets : Z; tx_window_errors : Z
}.

(** Outcome of a call that mutates an object of type [S]: the object is left
    as the call made it, whether the call returned or threw. *)
Inductive outcome (S : Type) :=
  | Done (s : S) (w : world)
  | Raised (e : exception) (s : S) (w : world).
Arguments Done {S} s w.
Arguments Raised {S} e s w.

Definition raise {S} (ew : exception * world) (s : S) : outcome S :=
  Raised (fst ew) s (snd ew).

Definition state_of {S} (o : outcome S) : S :=
  match o with Done s _ => s | Raised _ s _ => s end.

Definition world_of {S} (o : outcome S) : world :=
  match o with Done _ w => w | Raised _ _ w => w end.

(** *** [std::map] operations the program uses *)

(** [m.insert(make_pair(k, v))]: an existing element is kept. *)
Definition map_insert `{Countable K} {V} (k : K) (v : V) (m : gmap K V)
  : gmap K V :=
  match m !! k with Some _ => m | None => <[k := v]> m end.

(** [m.count(k)]. *)
Definition map_count `{Countable K} {V} (k : K) (m : gmap K V) : nat :=
  match m !! k with Some _ => 1%nat | None => O end.

(** [m[k]] on a map of strings: a missing key is inserted with the empty
    string. *)
Definition map_index `{Countable K} (k : K) (m : gmap K string)
  : string * gmap K string :=
  match m !! k with Some v => (v, m) | None => (""%string, <[k := ""%string]> m) end.

(** [m.empty()]. *)
Definition map_empty `{Countable K} {V} (m : gmap K V) : bool :=
  bool_decide (m = ∅).

(** The elements of a [std::set] of enumerators in iteration order. *)
Definition set_elements `{Countable K} (all : list K) (s : gset K) : list K :=
  filter (fun k => k ∈ s) all.

(** *** Static initialisation *)

(** The pairs [RX_INSERT] and [TX_INSERT] insert, in source order. *)
Definition rx_filename_table : list (rx_fields * string) :=
  [(RX_BYTES, "rx_bytes"); (RX_COMPRESSED, "rx_compressed");
   (RX_CRC_ERRORS, "rx_crc_errors"); (RX_DROPPED, "rx_dropped");
   (RX_ERRORS, "rx_errors"); (RX_FIFO_ERRORS, "rx_fifo_errors");
   (RX_FRAME_ERRORS, "rx_frame_errors");
   (RX_LENGTH_ERRORS, "rx_length_errors");
   (RX_MISSED_ERRORS, "rx_missed_errors");
   (RX_OVER_ERRORS, "rx_over_errors"); (RX_PACKETS, "rx_packets")]%string.

Definition tx_filename_table : list (tx_fields * string) :=
  [(TX_ABORTED_ERRORS, "tx_aborted_errors"); (TX_BYTES, "tx_bytes");
   (TX_CARRIER_ERRORS, "tx_carrier_errors");
   (TX_COMPRESSED, "tx_compressed"); (TX_DROPPED, "tx_dropped");
   (TX_ERRORS, "tx_errors"); (TX_FIFO_ERRORS, "tx_fifo_errors");
   (TX_HEARTBEAT_ERRORS, "tx_heartbeat_errors");
   (TX_PACKETS, "tx_packets");
   (TX_WINDOW_ERRORS, "tx_window_errors")]%string.

Definition insert_all `{Countable K} {V} (table : list (K * V))
    (m : gmap K V) : gmap K V :=
  foldl (fun m ab => map_insert (fst ab) (snd ab) m) m table.

Definition build_fields_to_filename_maps (w : world) : world :=
  let w := CPRINT "Building stat to filename map\n" [] w in
  let w := set_rx_filenames
             (insert_all rx_filename_table (rx_fields_to_filename w)) w in
  set_tx_filenames (insert_all tx_filename_table (tx_fields_to_filename w)) w.

(** *** Constructor and destructor *)

(** [opendir]: a handle, or NULL with [errno] set: ENOENT for a path that
    does not exist, the code of the fault otherwise. *)
Definition opendir (path : string) (w : world) : option string * world :=
  if decide (path ∈ dirs w) then (Some path, w)
  else
    match dir_faults w !! path with
    | Some (closedir_fails _) => (Some path, w)
    | Some (opendir_fails e) => (None, set_errno e w)
    | None => (None, set_errno ENOENT w)
    end.

(** [closedir] of the handle [opendir] returned: 0, or -1 with [errno]
    set. *)
Definition closedir (dir : string) (w : world) : Z * world :=
  if decide (dir ∈ dirs w) then (0, w)
  else
    match dir_faults w !! dir with
    | Some (closedir_fails e) => (-1, set_errno e w)
    | _ => (0, w)
    end.

Definition network_stats_ctor (interface : string) (w : world)
  : result network_stats :=
  let w := if map_empty (rx_fields_to_filename w)
              || map_empty (tx_fields_to_filename w)
           then build_fields_to_filename_maps w else w in
  let interface_path := (SYSFS_PATH +:+ interface)%string in
  match opendir interface_path w with
  | (None, w) =>
      throw (ERROR "Cannot find/access network stats path '%s' for interface '%s'"
                   [AStr interface_path; AStr interface] w)
  | (Some dir, w) =>
      let '(ret, w) := closedir dir w in
      if negb (ret =? 0) then
        throw (ERROR "Error closing dir @ '%s' for interface '%s'"
                     [AStr interface_path; AStr interface] w)
      else
        let stats_path := (interface_path +:+ STATS_DIR)%string in
        let w := CPRINT "Got interface stats path as '%s'\n"
                        [AStr stats_path] w in
        Ok {| interface_name_ := interface;
              interface_stats_path_ := stats_path;
              rx_to_update_ := ∅; tx_to_update_ := ∅ |} w
  end.

(** *** The loops shared by the receive and the transmit side

    The receive and transmit methods of the source are copies of each other
    over [rx_fields] and [tx_fields]; they are written once here over the key
    type and instantiated below. *)

Section direction.
Context `{Countable K}.
Variable all : list K.                     (* enumerators, ascending *)
Variable name : K -> string.               (* [rx_name] / [tx_name] *)
Variable filenames : world -> gmap K string.
Variable set_filenames : gmap K string -> world -> world.
Variable already : string.                 (* the three trace formats *)
Variable opening : string.
Variable failed : string.

(** [fetch_one_rx] / [fetch_one_tx]. *)
Definition fetch_one (m : gmap K netdata) (k : K) : Z :=
  match m !! k with None => 0 | Some i => value i end.

(** The body of the subscribe loop for the elements [todo] still to
    visit. *)
Fixpoint set_stats_loop (path : string) (todo : list K)
    (m : gmap K netdata) (w : world) : outcome (gmap K netdata) :=
  match todo with
  | [] => Done m w
  | i :: rest =>
      if negb (map_count i m =? 0)%nat then
        let w := CPRINT already [AStr (name i)] w in
        set_stats_loop path rest m w
      else
        let '(file, names) := map_index i (filenames w) in
        let w := set_filenames names w in
        let statfile_path := (path +:+ file)%string in
        let w := CPRINT opening [AStr (name i); AStr statfile_path] w in
        let '(fd, w) := open statfile_path w in
        if fd =? -1 then
          raise (ERROR failed [AStr (name i); AStr statfile_path] w) m
        else
          let w := CPRINT "For '%s': got file descriptor as %d\n"
                          [AStr (name i); AInt fd] w in
          set_stats_loop path rest (map_insert i (netdata_fd fd) m) w
  end.

Definition set_stats_to_update (path : string) (to_update : gset K)
    (m : gmap K netdata) (w : world) : outcome (gmap K netdata) :=
  set_stats_loop path (set_elements all to_update) m w.

(** The update loop: the iterator walks the elements in ascending key
    order and assigns each [value] as soon as it is read. *)
Fixpoint update_loop (keys : list K) (m : gmap K netdata) (w : world)
  : outcome (gmap K netdata) :=
  match keys with
  | [] => Done m w
  | k :: rest =>
      match m !! k with
      | None => update_loop rest m w
      | Some i =>
          match update_one (fd i) w with
          | Err e w => Raised e m w
          | Ok v w =>
              update_loop rest (<[k := {| value := v; fd := fd i |}]> m) w
          end
      end
  end.

Definition update_data (m : gmap K netdata) (w : world)
  : outcome (gmap K netdata) :=
  update_loop all m w.

(** The destructor loop: the result of [close] is discarded. *)
Fixpoint close_loop (keys : list K) (m : gmap K netdata) (w : world)
  : world :=
  match keys with
  | [] => w
  | k :: rest =>
      match m !! k with
      | None => close_loop rest m w
      | Some i => let '(_, w) := close (fd i) w in close_loop rest m w
      end
  end.
End direction.

Definition with_rx (s : network_stats) (m : gmap rx_fields netdata)
  : network_stats :=
  {| interface_name_ := interface_name_ s;
     interface_stats_path_ := interface_stats_path_ s;
     rx_to_update_ := m; tx_to_update_ := tx_to_update_ s |}.

Definition with_tx (s : network_stats) (m : gmap tx_fields netdata)
  : network_stats :=
  {| interface_name_ := interface_name_ s;
     interface_stats_path_ := interface_stats_path_ s;
     rx_to_update_ := rx_to_update_ s; tx_to_update_ := m |}.

Definition lift {S T} (f : S -> T) (o : outcome S) : outcome T :=
  match o with
  | Done s w => Done (f s) w
  | Raised e s w => Raised e (f s) w
  end.

Definition network_stats_dtor (s : network_stats) (w : world) : world :=
  let w := CPRINT "Shutting down\n" [] w in
  let w := close_loop all_rx_fields (rx_to_update_ s) w in
  close_loop all_tx_fields (tx_to_update_ s) w.

Definition fetch_one_rx (s : network_stats) (r : rx_fields) : Z :=
  fetch_one (rx_to_update_ s) r.

Definition fetch_one_tx (s : network_stats) (t : tx_fields) : Z :=
  fetch_one (tx_to_update_ s) t.

Definition set_rx_stats_to_update (to_update : gset rx_fields)
    (s : network_stats) (w : world) : outcome network_stats :=
  lift (with_rx s)
    (set_stats_to_update all_rx_fields rx_name rx_fields_to_filename
       set_rx_filenames
       "For '%s': already monitoring -- ignoring request\n"
       "For '%s': opening stats file @ '%s'\n"
       "For '%s': opening stats file '%s'"
       (interface_stats_path_ s) to_update (rx_to_update_ s) w).

Definition set_tx_stats_to_update (to_update : gset tx_fields)
    (s : network_stats) (w : world) : outcome network_stats :=
  lift (with_tx s)
    (set_stats_to_update all_tx_fields tx_name tx_fields_to_filename
       set_tx_filenames
       "For '%s': already monitoring -- ignoring request\n"
       "For %s: opening stats file @ '%s'\n"
       "For %s: Opening stats file '%s'"
       (interface_stats_path_ s) to_update (tx_to_update_ s) w).

Definition update_receive_data (s : network_stats) (w : world)
  : outcome network_stats :=
  lift (with_rx s) (update_data all_rx_fields (rx_to_update_ s) w).

Definition update_transmit_data (s : network_stats) (w : world)
  : outcome network_stats :=
  lift (with_tx s) (update_data all_tx_fields (tx_to_update_ s) w).

Definition update_all (s : network_stats) (w : world)
  : outcome network_stats :=
  match update_receive_data s w with
  | Raised e s w => Raised e s w
  | Done s w => update_transmit_data s w
  end.

Definition get_receive_data (s : network_stats) : receive_data :=
  {| rx_bytes := fetch_one_rx s RX_BYTES;
     rx_compressed := fetch_one_rx s RX_COMPRESSED;
     rx_CRC_errors := fetch_one_rx s RX_CRC_ERRORS;
     rx_dropped := fetch_one_rx s RX_DROPPED;
     rx_errors := fetch_one_rx s RX_ERRORS;
     rx_FIFO_errors := fetch_one_rx s RX_FIFO_ERRORS;
     rx_frame_errors := fetch_one_rx s RX_FRAME_ERRORS;
     rx_length_errors := fetch_one_rx s RX_LENGTH_ERRORS;
     rx_missed_errors := fetch_one_rx s RX_MISSED_ERRORS;
     rx_over_errors := fetch_one_rx s RX_OVER_ERRORS;
     rx_packets := fetch_one_rx s RX_PACKETS |}.

Definition get_transmit_data (s : network_stats) : transmit_data :=
  {| tx_aborted_errors := fetch_one_tx s TX_ABORTED_ERRORS;
     tx_bytes := fetch_one_tx s TX_BYTES;
     tx_carrier_errors := fetch_one_tx s TX_CARRIER_ERRORS;
     tx_compressed := fetch_one_tx s TX_COMPRESSED;
     tx_dropped := fetch_one_tx s TX_DROPPED;
     tx_errors := fetch_one_tx s TX_ERRORS;
     tx_FIFO_errors := fetch_one_tx s TX_FIFO_ERRORS;
     tx_heartbeat_errors := fetch_one_tx s TX_HEARTBEAT_ERRORS;
     tx_packets := fetch_one_tx s TX_PACKETS;
     tx_window_errors := fetch_one_tx s TX_WINDOW_ERRORS |}.

Definition get_rx_bytes (s : network_stats) : Z := fetch_one_rx s RX_BYTES.
Definition get_rx_packets (s : network_stats) : Z := fetch_one_rx s RX_PACKETS.
Definition get_tx_bytes (s : network_stats) : Z := fetch_one_tx s TX_BYTES.
Definition get_tx_packets (s : network_stats) : Z := fetch_one_tx s TX_PACKETS.

(** ** A monitor's lifetime

    The calls a client makes on a constructed monitor.  A client that
    catches an exception goes on with the object as the throwing call left
    it.  Between two calls the rest of the system may rewrite the statistics
    files, leave any value in [errno] and any bytes on the stack. *)

Inductive call :=
  | call_set_rx_stats_to_update (to_update : gset rx_fields)
  | call_set_tx_stats_to_update (to_update : gset tx_fields)
  | call_update_all
  | call_update_receive_data
  | call_update_transmit_data
  | environment (fs : gmap string resource) (e : Z) (junk : list ascii).

Definition set_environment (fs : gmap string resource) (e : Z)
    (junk : list ascii) (w : world) : world :=
  {| errno := e; files := fs; dirs := dirs w;
     dir_faults := dir_faults w; fds := fds w; close_error := close_error w;
     einval_on_no_digits := einval_on_no_digits w; stack := junk;
     trace := trace w; rx_fields_to_filename := rx_fields_to_filename w;
     tx_fields_to_filename := tx_fields_to_filename w |}.

Definition after {S} (o : outcome S) : S * world := (state_of o, world_of o).

Definition step (sw : network_stats * world) (c : call)
  : network_stats * world :=
  let '(s, w) := sw in
  match c with
  | call_set_rx_stats_to_update u => after (set_rx_stats_to_update u s w)
  | call_set_tx_stats_to_update u => after (set_tx_stats_to_update u s w)
  | call_update_all => after (update_all s w)
  | call_update_receive_data => after (update_receive_data s w)
  | call_update_transmit_data => after (update_transmit_data s w)
  | environment fs e junk => (s, set_environment fs e junk w)
  end.

Definition lifetime (calls : list call) (sw : network_stats * world)
  : network_stats * world :=
  foldl step sw calls.

Definition requests_rx (r : rx_fields) (c : call) : Prop :=
  match c with call_set_rx_stats_to_update u => r ∈ u | _ => False end.

Definition requests_tx (t : tx_fields) (c : call) : Prop :=
  match c with call_set_tx_stats_to_update u => t ∈ u | _ => False end.

(** ** Vocabulary of the statements *)

(** Descriptor [fd] is open on a statistics file that reads without error
    and holds [txt]. *)
Definition counter_text (w : world) (fd : Z) (txt : string) : Prop :=
  exists path, fds w !! fd = Some path /\ files w !! path = Some (Text txt).

(** The descriptor [fd] is open on the file [res], which can be read and
    holds the text [txt]; whether it can be repositioned is the file's
    [seek_error]. *)
Definition holds_text (w : world) (fd : Z) (res : resource) (txt : string)
  : Prop :=
  exists path,
    fds w !! fd = Some path /\ files w !! path = Some res /\
    read_error res = None /\ data res = txt.

(** The number of bytes [read] returns for descriptor [fd]. *)
Definition read_count (w : world) (fd : Z) : Z :=
  fst (fst (read fd (uninitialised READ_SIZE w) READ_SIZE w)).

(** [lseek] succeeds on [fd], so that [update_one] reaches its [read]. *)
Definition seekable (w : world) (fd : Z) : Prop := fst (lseek fd w) <> -1.

(** No stale error code is pending in [errno]. *)
Definition errno_clear (w : world) : Prop := errno w = 0 \/ errno w = EINTR.

(** The decimal numeral of a natural number. *)
Definition decimal (n : N) : string := NilEmpty.string_of_uint (N.to_uint n).

Definition newline : string := String "010"%char EmptyString.

(** A text at which a decimal conversion stops at once. *)
Definition stops (tail : string) : Prop :=
  match tail with
  | EmptyString => True
  | String c _ => digit c = None
  end.

(** The field of the snapshot that [get_receive_data] fills from kind [r]. *)
Definition receive_field (r : rx_fields) (d : receive_data) : Z :=
  match r with
  | RX_BYTES => rx_bytes d | RX_COMPRESSED => rx_compressed d
  | RX_CRC_ERRORS => rx_CRC_errors d | RX_DROPPED => rx_dropped d
  | RX_ERRORS => rx_errors d | RX_FIFO_ERRORS => rx_FIFO_errors d
  | RX_FRAME_ERRORS => rx_frame_errors d
  | RX_LENGTH_ERRORS => rx_length_errors d
  | RX_MISSED_ERRORS => rx_missed_errors d
  | RX_OVER_ERRORS => rx_over_errors d | RX_PACKETS => rx_packets d
  end.

Definition transmit_field (t : tx_fields) (d : transmit_data) : Z :=
  match t with
  | TX_ABORTED_ERRORS => tx_aborted_errors d | TX_BYTES => tx_bytes d
  | TX_CARRIER_ERRORS => tx_carrier_errors d
  | TX_COMPRESSED => tx_compressed d | TX_DROPPED => tx_dropped d
  | TX_ERRORS => tx_errors d | TX_FIFO_ERRORS => tx_FIFO_errors d
  | TX_HEARTBEAT_ERRORS => tx_heartbeat_errors d
  | TX_PACKETS => tx_packets d | TX_WINDOW_ERRORS => tx_window_errors d
  end.

Definition zero_receive_data : receive_data :=
  {| rx_bytes := 0; rx_compressed := 0; rx_CRC_errors := 0; rx_dropped := 0;
     rx_errors := 0; rx_FIFO_errors := 0; rx_frame_errors := 0;
     rx_length_errors := 0; rx_missed_errors := 0; rx_over_errors := 0;
     rx_packets := 0 |}.

Definition zero_transmit_data : transmit_data :=
  {| tx_aborted_errors := 0; tx_bytes := 0; tx_carrier_errors := 0;
     tx_compressed := 0; tx_dropped := 0; tx_errors := 0; tx_FIFO_errors := 0;
     tx_heartbeat_errors := 0; tx_packets := 0; tx_window_errors := 0 |}.

(** Which reporting path an exception came through. *)
Definition via_ERROR (e : exception) : Prop :=
  match e with runtime_error (OsError _ _ _) => True | _ => False end.

Definition via_RUNTIME (e : exception) : Prop :=
  match e with runtime_error (LogicError _ _) => True | _ => False end.

(** The descriptors [close] was called on, in call order; the paths [open]
    returned a descriptor for; the failure reports printed. *)
Definition closed (t : list event) : list Z :=
  omap (fun ev => match ev with EvClose fd _ => Some fd | _ => None end) t.

Definition opened (t : list event) : list string :=
  omap (fun ev => match ev with
                  | EvOpen p ret => if ret =? -1 then None else Some p
                  | _ => None
                  end) t.

Definition open_calls (t : list event) : nat :=
  length (omap (fun ev => match ev with
                          | EvOpen p _ => Some p
                          | _ => None
                          end) t).

Definition failure_reports (t : list event) : list message :=
  omap (fun ev => match ev with
                  | EvPrint (Trace _ _) => None
                  | EvPrint m => Some m
                  | _ => None
                  end) t.

(** The descriptors a map holds, in iteration order. *)
Definition handles `{Countable K} (all : list K) (m : gmap K netdata)
  : list Z :=
  omap (fun k => fd <$> m !! k) all.

(** The static maps as [build_fields_to_filename_maps] fills them. *)
Definition filenames_built (w : world) : Prop :=
  rx_fields_to_filename w = insert_all rx_filename_table ∅ /\
  tx_fields_to_filename w = insert_all tx_filename_table ∅.

(** A process in which no monitor was constructed yet, or one was. *)
Definition filenames_sound (w : world) : Prop :=
  (rx_fields_to_filename w = ∅ /\ tx_fields_to_filename w = ∅) \/
  filenames_built w.

(** The file name of a kind in the built static maps, and the path
    [set_rx_stats_to_update] / [set_tx_stats_to_update] opens for it. *)
Definition rx_file (r : rx_fields) : string :=
  default ""%string (insert_all rx_filename_table ∅ !! r).

Definition tx_file (t : tx_fields) : string :=
  default ""%string (insert_all tx_filename_table ∅ !! t).

Definition rx_path (s : network_stats) (r : rx_fields) : string :=
  (interface_stats_path_ s +:+ rx_file r)%string.

Definition tx_path (s : network_stats) (t : tx_fields) : string :=
  (interface_stats_path_ s +:+ tx_file t)%string.

(** ** Example worlds *)

(** A process with interface [lo], whose statistics files hold [rxb] (receive
    bytes), [rxp] (receive packets) and [txb] (transmit bytes). *)
Definition lo_files (rxb rxp txb : resource) : gmap string resource :=
  {[ "/sys/class/net/lo/statistics/rx_bytes"%string := rxb;
     "/sys/class/net/lo/statistics/rx_packets"%string := rxp;
     "/sys/class/net/lo/statistics/tx_bytes"%string := txb ]}.

Definition boot (fs : gmap string resource) (e : Z) (einval : bool) : world :=
  {| errno := e; files := fs; dirs := {[ "/sys/class/net/lo"%string ]};
     dir_faults := ∅;
     fds := {[ 0 := "/dev/stdin"%string; 1 := "/dev/stdout"%string;
               2 := "/dev/stderr"%string ]};
     close_error := ∅;
     einval_on_no_digits := einval; stack := []; trace := [];
     rx_fields_to_filename := ∅; tx_fields_to_filename := ∅ |}.

(** The monitor of [lo] and the world after construction and after
    subscribing to RX_BYTES, RX_PACKETS and TX_BYTES. *)
Definition lo_monitor (w : world) : network_stats * world :=
  match network_stats_ctor "lo" w with
  | Err _ w =>
      ({| interface_name_ := "lo"; interface_stats_path_ := "";
          rx_to_update_ := ∅; tx_to_update_ := ∅ |}, w)
  | Ok s w =>
      lifetime [call_set_rx_stats_to_update {[ RX_BYTES; RX_PACKETS ]};
                call_set_tx_stats_to_update {[ TX_BYTES ]}] (s, w)
  end.

(** The files of the examples: receive bytes 12345, receive packets 7,
    transmit bytes 99. *)
Definition demo_files : gmap string resource :=
  lo_files (Text ("12345" +:+ newline)) (Text "7") (Text ("99" +:+ newline)).

(** A statistics file whose [read] fails with errno [e]. *)
Definition unreadable (e : Z) : resource :=
  {| seek_error := None; read_error := Some e; data := "";
     open_error := None |}.

(** A file that exists and cannot be opened: [open] fails with errno
    [e]. *)
Definition unopenable (e : Z) : resource :=
  {| seek_error := None; read_error := None; data := "";
     open_error := Some e |}.

(** A statistics file holding [txt] that cannot be repositioned: [lseek]
    fails with errno [e]. *)
Definition unseekable (e : Z) (txt : string) : resource :=
  {| seek_error := Some e; read_error := None; data := txt;
     open_error := None |}.

(** The world in which [close] of descriptor [fd] fails with errno [e]. *)
Definition fail_close (fd e : Z) (w : world) : world :=
  {| errno := errno w; files := files w; dirs := dirs w;
     dir_faults := dir_faults w; fds := fds w;
     close_error := <[fd := e]> (close_error w);
     einval_on_no_digits := einval_on_no_digits w; stack := stack w;
     trace := trace w; rx_fields_to_filename := rx_fields_to_filename w;
     tx_fields_to_filename := tx_fields_to_filename w |}.

(** The same world with other faults of [opendir] and [closedir]. *)
Definition with_dir_faults (f : gmap string dir_fault) (w : world) : world :=
  {| errno := errno w; files := files w; dirs := dirs w;
     dir_faults := f; fds := fds w; close_error := close_error w;
     einval_on_no_digits := einval_on_no_digits w; stack := stack w;
     trace := trace w; rx_fields_to_filename := rx_fields_to_filename w;
     tx_fields_to_filename := tx_fields_to_filename w |}.

(** The same world with other files. *)
Definition with_files (fs : gmap string resource) (w : world) : world :=
  set_environment fs (errno w) (stack w) w.

(** The monitor of [lo] over [demo_files], constructed and subscribed in a
    fresh process. *)
Definition demo : network_stats * world := lo_monitor (boot demo_files 0 false).

(** The example monitor over other contents of the receive-bytes file. *)
Definition demo_with (rxb : resource) : network_stats * world :=
  lo_monitor (boot (lo_files rxb (Text "7") (Text ("99" +:+ newline))) 0 false).

(** The exception, if any, with which [update_all] leaves. *)
Definition raised (o : outcome network_stats) : option exception :=
  match o with Done _ _ => None | Raised e _ _ => Some e end.

(** Every tracked descriptor of a map reads and converts without error. *)
Definition reads (w : world) (fd : Z) : bool :=
  match update_one fd w with Ok _ _ => true | Err _ _ => false end.

Definition all_read `{Countable K} (all : list K) (m : gmap K netdata)
    (w : world) : bool :=
  forallb (fun k => match m !! k with
                    | None => true
                    | Some i => reads w (fd i)
                    end) all.

Import DecimalPos.Unsigned.

(** The element an update leaves for a counter that reads without error. *)
Definition refreshed (w : world) (i : netdata) : netdata :=
  match update_one (fd i) w with
  | Ok v _ => {| value := v; fd := fd i |}
  | Err _ _ => i
  end.

Definition stops_list (rest : list ascii) : Prop :=
  match rest with [] => True | c :: _ => digit c = None end.

Definition numeral (d : Decimal.uint) : list ascii :=
  list_ascii_of_string (NilEmpty.string_of_uint d).

(** The tracked counters other than receive kind [r] (transmit kind [t])
    read without error. *)
Definition others_read_rx (s : network_stats) (r : rx_fields) (w : world)
  : bool :=
  all_read all_rx_fields (delete r (rx_to_update_ s)) w
  && all_read all_tx_fields (tx_to_update_ s) w.

Definition others_read_tx (s : network_stats) (t : tx_fields) (w : world)
  : bool :=
  all_read all_rx_fields (rx_to_update_ s) w
  && all_read all_tx_fields (delete t (tx_to_update_ s)) w.

(** [update_all] rejects the receive counter [r] (the transmit counter
    [t]) with element [i]: reading it throws an exception satisfying [Q];
    [update_all] throws and leaves the element of the counter as it was; and
    when the other tracked counters read, [update_all] throws that very
    exception. *)
Definition rejects_rx (Q : exception -> Prop) (s : network_stats) (w : world)
    (r : rx_fields) (i : netdata) : Prop :=
  exists e w',
    update_one (fd i) w = Err e w' /\ Q e /\
    (exists e2 s' w2, update_all s w = Raised e2 s' w2 /\
                      rx_to_update_ s' !! r = Some i) /\
    (others_read_rx s r w = true ->
     exists s', update_all s w = Raised e s' w' /\
                rx_to_update_ s' !! r = Some i).

Definition rejects_tx (Q : exception -> Prop) (s : network_stats) (w : world)
    (t : tx_fields) (i : netdata) : Prop :=
  exists e w',
    update_one (fd i) w = Err e w' /\ Q e /\
    (exists e2 s' w2, update_all s w = Raised e2 s' w2 /\
                      tx_to_update_ s' !! t = Some i) /\
    (others_read_tx s t w = true ->
     exists s', update_all s w = Raised e s' w' /\
                tx_to_update_ s' !! t = Some i).

(** The descriptors that [open] returned, in call order. *)
Definition returned (t : list event) : list Z :=
  omap (fun ev => match ev with
                  | EvOpen _ ret => if ret =? -1 then None else Some ret
                  | _ => None
                  end) t.

(** The monitor constructed when the trace was [t0] holds exactly the
    descriptors that [open] has returned since. *)
Definition holds_returned (t0 : list event) (sw : network_stats * world)
  : Prop :=
  exists t,
    trace (snd sw) = t0 ++ t /\
    handles all_rx_fields (rx_to_update_ (fst sw))
    ++ handles all_tx_fields (tx_to_update_ (fst sw)) ≡ₚ returned t.

Definition times_opened (p : string) (t : list event) : nat :=
  length (filter (fun q => q = p) (opened t)).

(** [w'] extends [w] by events among which no [open] returned a
    descriptor, and has the same static maps. *)
Definition quiet (w w' : world) : Prop :=
  rx_fields_to_filename w' = rx_fields_to_filename w /\
  tx_fields_to_filename w' = tx_fields_to_filename w /\
  exists t, trace w' = trace w ++ t /\ opened t = [] /\ open_calls t = O.

Definition result_world {A} (r : result A) : world :=
  match r with Ok _ w => w | Err _ w => w end.

Definition result_value {A} (r : result A) : option A :=
  match r with Ok a _ => Some a | Err _ _ => None end.

(** [extend t w]: the world [w] after the events [t]. *)
Definition extend (t : list event) (w : world) : world :=
  {| errno := errno w; files := files w; dirs := dirs w;
     dir_faults := dir_faults w; fds := fds w; close_error := close_error w;
     einval_on_no_digits := einval_on_no_digits w; stack := stack w;
     trace := trace w ++ t;
     rx_fields_to_filename := rx_fields_to_filename w;
     tx_fields_to_filename := tx_fields_to_filename w |}.

Definition is_trace_line (ev : event) : Prop :=
  match ev with EvPrint (Trace _ _) => True | _ => False end.

(** The monitor with statistics directory [path0], constructed when the
    trace was [t0], has opened the file of every tracked kind once and no
    other statistics file. *)
Definition opened_once (path0 : string) (t0 : list event)
    (sw : network_stats * world) : Prop :=
  interface_stats_path_ (fst sw) = path0 /\
  filenames_built (snd sw) /\
  exists t,
    trace (snd sw) = t0 ++ t /\
    (forall r, times_opened (path0 +:+ rx_file r) t
               = map_count r (rx_to_update_ (fst sw))) /\
    (forall x, times_opened (path0 +:+ tx_file x) t
               = map_count x (tx_to_update_ (fst sw))).

(** ** Vocabulary of the further properties *)

(** [w'] differs from [w] at most in [errno] and by events added to the
    trace. *)
Definition drift (w w' : world) : Prop :=
  exists e t, w' = set_errno e (extend t w).

(** The message an exception was built from, and the [errno] description a
    message carries. *)
Definition what (e : exception) : message :=
  match e with runtime_error m => m end.

Definition os_errno_of (m : message) : option Z :=
  match m with
  | OsError _ _ n | Report _ _ n => Some n
  | _ => None
  end.

(** The exception with which a call leaves, for both kinds of outcome. *)
Definition thrown {A} (r : result A) : option exception :=
  match r with Ok _ _ => None | Err e _ => Some e end.

Definition raised_by {S} (o : outcome S) : option exception :=
  match o with Done _ _ => None | Raised e _ _ => Some e end.

(** A throw printed its message last and attached the [errno] it leaves. *)
Definition printed_last (e : option exception) (w' : world) : Prop :=
  match e with
  | None => True
  | Some e =>
      last (trace w') = Some (EvPrint (what e)) /\
      (forall n, os_errno_of (what e) = Some n -> n = errno w')
  end.

(** Lower case of the ASCII letters. *)
Definition lowercase_ascii (c : ascii) : ascii :=
  let n := nat_of_ascii c in
  if ((65 <=? n)%nat && (n <=? 90)%nat) then ascii_of_nat (n + 32) else c.

Fixpoint lowercase (s : string) : string :=
  match s with
  | EmptyString => EmptyString
  | String c rest => String (lowercase_ascii c) (lowercase rest)
  end.

(** Every tracked counter holds a descriptor that is open on the statistics
    file of its own kind. *)
Definition well_tracked (sw : network_stats * world) : Prop :=
  filenames_built (snd sw) /\
  (forall r i, rx_to_update_ (fst sw) !! r = Some i ->
               fds (snd sw) !! fd i = Some (rx_path (fst sw) r) /\
               0 <= fd i) /\
  (forall t i, tx_to_update_ (fst sw) !! t = Some i ->
               fds (snd sw) !! fd i = Some (tx_path (fst sw) t) /\
               0 <= fd i).

(** The errno with which [open] fails at a path, if it fails: ENOENT for a
    path that does not exist, the code of the path otherwise. *)
Definition open_failure (w : world) (p : string) : option Z :=
  match files w !! p with
  | None => Some ENOENT
  | Some r => open_error r
  end.

(** The world with both static maps as [build_fields_to_filename_maps]
    fills them. *)
Definition with_filenames_built (w : world) : world :=
  set_tx_filenames (insert_all tx_filename_table ∅)
    (set_rx_filenames (insert_all rx_filename_table ∅) w).

(** A text that begins with a character at which [strtol] converts
    nothing: neither white space, nor a sign, nor a digit. *)
Definition no_numeral (txt : string) : Prop :=
  match txt with
  | EmptyString => False
  | String c _ =>
      isspace c = false /\ digit c = None /\
      Ascii.eqb c "-" = false /\ Ascii.eqb c "+" = false
  end.

(** The exception of the [errno] test after [strtol]. *)
Definition is_conversion_error (e : exception) : Prop :=
  exists args n,
    e = runtime_error
          (OsError "Unable to convert network stat value '%s' to long for fd %d"
                   args n).

(** * Properties of [update_one] *)

Lemma uninitialised_length n w :
  0 <= n -> length (uninitialised n w) = Z.to_nat n.
Proof.
  intros Hn. unfold uninitialised.
  rewrite length_take, length_app, length_replicate. lia.
Qed.

Lemma blit_length s buf :
  (length s <= length buf)%nat -> length (blit s buf) = length buf.
Proof.
  intros Hle. unfold blit. rewrite length_app, length_drop. lia.
Qed.

(** The bytes before the first NUL of a buffer do not depend on what
    follows it. *)
Lemma c_str_app_NUL s rest : c_str (s ++ NUL :: rest) = c_str s.
Proof.
  induction s as [|c s IH]; simpl; [reflexivity|].
  destruct (Ascii.eqb c NUL); [reflexivity|]. now rewrite IH.
Qed.

Lemma poke_blit s buf :
  (length s < length buf)%nat ->
  poke (blit s buf) (Z.of_nat (length s)) NUL
  = s ++ NUL :: drop (S (length s)) buf.
Proof.
  intros Hlt. unfold poke, blit.
  destruct (Z.leb_spec 0 (Z.of_nat (length s))) as [_|]; [|lia].
  rewrite Nat2Z.id.
  rewrite insert_app_r_alt by lia. rewrite Nat.sub_diag.
  destruct (drop (length s) buf) as [|c rest] eqn:Hd.
  - apply (f_equal length) in Hd. rewrite length_drop in Hd. simpl in Hd. lia.
  - simpl. do 2 f_equal.
    change rest with (drop 1 (c :: rest)). rewrite <- Hd, drop_drop.
    f_equal. lia.
Qed.

Lemma c_str_terminated s buf :
  (length s < length buf)%nat ->
  c_str (poke (blit s buf) (Z.of_nat (length s)) NUL) = c_str s.
Proof. intros Hlt. rewrite poke_blit by exact Hlt. apply c_str_app_NUL. Qed.

Lemma counter_text_holds w fd txt :
  counter_text w fd txt -> holds_text w fd (Text txt) txt.
Proof. intros (path & Hfd & Hfile). exists path. now split_and!. Qed.

(** What the read phase returns for a file that can be repositioned and
    read and is shorter than the buffer. *)
Lemma update_one_read_holds w fd res txt :
  holds_text w fd res txt ->
  seek_error res = None ->
  (0 < String.length txt < 32)%nat ->
  update_one_read fd w
  = Ok (Z.of_nat (String.length txt),
        blit (list_ascii_of_string txt) (uninitialised READ_SIZE w)) w.
Proof.
  intros (path & Hfd & Hfile & Hread & Hdata) Hseek Hlen.
  assert (Hl : length (list_ascii_of_string txt) = String.length txt).
  { clear. induction txt; simpl; congruence. }
  destruct res as [se re txt' oe]. simpl in Hread, Hdata, Hseek. subst.
  unfold update_one_read, lseek, read. rewrite Hfd, Hfile. simpl.
  rewrite Hfd, Hfile. simpl.
  rewrite take_ge by (rewrite Hl; unfold READ_SIZE; lia).
  rewrite Hl.
  destruct (Z.eqb_spec (Z.of_nat (String.length txt)) READ_SIZE) as [E|_];
    [unfold READ_SIZE in E; lia|].
  destruct (Z.leb_spec (Z.of_nat (String.length txt)) 0) as [E|_]; [lia|].
  reflexivity.
Qed.

Lemma update_one_read_text w fd txt :
  counter_text w fd txt ->
  (0 < String.length txt < 32)%nat ->
  update_one_read fd w
  = Ok (Z.of_nat (String.length txt),
        blit (list_ascii_of_string txt) (uninitialised READ_SIZE w)) w.
Proof.
  intros Htxt. apply (update_one_read_holds w fd (Text txt));
    [now apply counter_text_holds|reflexivity].
Qed.

(** [update_one] on such a file is the conversion of its text. *)
Lemma update_one_holds w fd res txt :
  holds_text w fd res txt ->
  seek_error res = None ->
  (0 < String.length txt < 32)%nat ->
  update_one fd w
  = let s := c_str (list_ascii_of_string txt) in
    let '(value, _, w') := strtol s w in
    if negb (errno w' =? 0) && negb (errno w' =? EINTR) then
      throw (ERROR "Unable to convert network stat value '%s' to long for fd %d"
                   [AStr (string_of_list_ascii s); AInt fd] w')
    else Ok (to_uint64 value) w'.
Proof.
  intros Htxt Hseek Hlen. unfold update_one.
  rewrite (update_one_read_holds w fd res txt Htxt Hseek Hlen).
  unfold update_one_convert.
  assert (Hl : length (list_ascii_of_string txt) = String.length txt).
  { clear. induction txt; simpl; congruence. }
  rewrite <- Hl, c_str_terminated; [reflexivity|].
  rewrite uninitialised_length by (unfold READ_SIZE; lia).
  rewrite Hl. unfold READ_SIZE. lia.
Qed.

Lemma update_one_text w fd txt :
  counter_text w fd txt ->
  (0 < String.length txt < 32)%nat ->
  update_one fd w
  = let s := c_str (list_ascii_of_string txt) in
    let '(value, _, w') := strtol s w in
    if negb (errno w' =? 0) && negb (errno w' =? EINTR) then
      throw (ERROR "Unable to convert network stat value '%s' to long for fd %d"
                   [AStr (string_of_list_ascii s); AInt fd] w')
    else Ok (to_uint64 value) w'.
Proof.
  intros Htxt. apply (update_one_holds w fd (Text txt));
    [now apply counter_text_holds|reflexivity].
Qed.

Lemma errno_clear_test w :
  errno_clear w -> negb (errno w =? 0) && negb (errno w =? EINTR) = false.
Proof. intros [-> | ->]; reflexivity. Qed.

Lemma errno_pending_test w :
  ~ errno_clear w -> negb (errno w =? 0) && negb (errno w =? EINTR) = true.
Proof.
  intros Hn. unfold errno_clear in Hn.
  destruct (Z.eqb_spec (errno w) 0); [tauto|].
  destruct (Z.eqb_spec (errno w) EINTR); [tauto|]. reflexivity.
Qed.

(** [strtol] writes [errno] only to report an error. *)
Lemma strtol_world s w :
  snd (strtol s w) = w \/
  exists e, e <> 0 /\ e <> EINTR /\ snd (strtol s w) = set_errno e w.
Proof.
  unfold strtol.
  destruct (sign_of (skip_space s)) as [[negative signed] rest].
  destruct (digits rest 0) as [magnitude [|n]].
  - destruct (einval_on_no_digits w); simpl; [right|left; reflexivity].
    exists EINVAL. repeat split; discriminate.
  - destruct (_ <? LONG_MIN); simpl.
    { right. exists ERANGE. repeat split; discriminate. }
    destruct (LONG_MAX <? _); simpl; [right|left; reflexivity].
    exists ERANGE. repeat split; discriminate.
Qed.

Lemma update_one_read_Ok_world fd w x w' :
  update_one_read fd w = Ok x w' -> w' = w.
Proof.
  unfold update_one_read, lseek, read, throw.
  destruct (fds w !! fd) as [path|] eqn:Hfd; simpl; [|discriminate].
  destruct (files w !! path) as [[[e|] [e'|] txt]|] eqn:Hfile; simpl;
    try discriminate; rewrite ?Hfd, ?Hfile; simpl.
  - destruct (-1 =? READ_SIZE); discriminate.
  - destruct (_ =? READ_SIZE); [discriminate|].
    destruct (_ <=? 0); [discriminate|]. now intros [= _ <-].
  - destruct (-1 =? READ_SIZE); discriminate.
Qed.

Lemma update_one_convert_Ok_world fd r_ret rbuf w v w' :
  update_one_convert fd r_ret rbuf w = Ok v w' -> w' = w.
Proof.
  unfold update_one_convert.
  pose proof (strtol_world (c_str (poke rbuf r_ret NUL)) w) as Hw.
  destruct (strtol _ w) as [[value endptr] w1]. simpl in Hw.
  destruct Hw as [-> | (e & He0 & He1 & ->)].
  - destruct (_ && _); [discriminate|]. now intros [= _ <-].
  - simpl. destruct (Z.eqb_spec e 0); [tauto|].
    destruct (Z.eqb_spec e EINTR); [tauto|]. discriminate.
Qed.

(** A successful [update_one] leaves the world as it found it: neither
    [lseek], [read] nor [strtol] writes anything on success. *)
Lemma update_one_Ok_world fd w v w' : update_one fd w = Ok v w' -> w' = w.
Proof.
  unfold update_one.
  destruct (update_one_read fd w) as [[r_ret rbuf] w1|] eqn:Hr; [|discriminate].
  apply update_one_read_Ok_world in Hr as ->.
  apply update_one_convert_Ok_world.
Qed.

(** * Properties of the update loop *)

Section update_loop_facts.
Context `{Countable K}.
Implicit Types (keys : list K) (m : gmap K netdata) (w : world).

Lemma refreshed_fd w i : fd (refreshed w i) = fd i.
Proof. unfold refreshed. now destruct (update_one (fd i) w). Qed.

Lemma refreshed_idem w i : refreshed w (refreshed w i) = refreshed w i.
Proof.
  unfold refreshed at 1. rewrite refreshed_fd.
  unfold refreshed. now destruct (update_one (fd i) w).
Qed.

(** Whatever the outcome, the loop keeps the key set and the
    descriptors. *)
Lemma update_loop_handles keys m w j :
  fd <$> state_of (update_loop keys m w) !! j = fd <$> m !! j.
Proof.
  revert m w. induction keys as [|k rest IH]; intros m w; simpl.
  - reflexivity.
  - destruct (m !! k) as [i|] eqn:Hk; [|apply IH].
    destruct (update_one (fd i) w) as [v w1|e w1]; [|reflexivity].
    rewrite IH. destruct (decide (j = k)) as [->|Hne].
    + now rewrite lookup_insert_eq, Hk.
    + now rewrite lookup_insert_ne by congruence.
Qed.

(** When every tracked counter reads without error the loop returns and
    every tracked counter holds the value read. *)
Lemma update_loop_Done keys m w :
  all_read keys m w = true ->
  exists m',
    update_loop keys m w = Done m' w /\
    forall j, m' !! j
              = if decide (j ∈ keys) then refreshed w <$> m !! j
                else m !! j.
Proof.
  revert m. induction keys as [|k rest IH]; intros m Hall; simpl.
  - exists m. split; [reflexivity|]. intros j.
    destruct (decide (j ∈ [])) as [Hin|_]; [|reflexivity].
    now apply elem_of_nil in Hin.
  - simpl in Hall. apply andb_true_iff in Hall as [Hk Hrest].
    destruct (m !! k) as [i|] eqn:Hmk.
    + unfold reads in Hk.
      destruct (update_one (fd i) w) as [v w1|e w1] eqn:Hone; [|discriminate].
      apply update_one_Ok_world in Hone as Hw. subst w1.
      destruct (IH (<[k := {| value := v; fd := fd i |}]> m)) as (m' & Hrun & Hm').
      { unfold all_read in *. rewrite forallb_forall in *.
        intros x Hx. specialize (Hrest x Hx).
        destruct (decide (x = k)) as [->|Hne].
        - rewrite lookup_insert_eq. simpl. unfold reads. now rewrite Hone.
        - now rewrite lookup_insert_ne by congruence. }
      exists m'. split; [exact Hrun|]. intros j. rewrite Hm'.
      destruct (decide (j = k)) as [->|Hne].
      * rewrite lookup_insert_eq, Hmk. simpl.
        rewrite (decide_True (P := k ∈ k :: rest)) by apply list_elem_of_here.
        assert (Hr : refreshed w i = {| value := v; fd := fd i |})
          by (unfold refreshed; now rewrite Hone).
        rewrite <- Hr, refreshed_idem. now destruct (decide (k ∈ rest)).
      * rewrite lookup_insert_ne by congruence.
        destruct (decide (j ∈ rest)) as [Hin|Hnin].
        -- rewrite decide_True; [reflexivity|]. now apply list_elem_of_further.
        -- rewrite decide_False; [reflexivity|].
           rewrite elem_of_cons. tauto.
    + destruct (IH m Hrest) as (m' & Hrun & Hm').
      exists m'. split; [exact Hrun|]. intros j. rewrite Hm'.
      destruct (decide (j = k)) as [->|Hne].
      * rewrite Hmk. simpl. now repeat destruct (decide _).
      * destruct (decide (j ∈ rest)) as [Hin|Hnin].
        -- rewrite decide_True; [reflexivity|]. now apply list_elem_of_further.
        -- rewrite decide_False; [reflexivity|].
           rewrite elem_of_cons. tauto.
Qed.

(** When the loop throws, it throws at the first tracked counter [k] that
    fails: the counters visited before [k] hold what was just read, [k]
    and the counters after it hold what they held. *)
Lemma update_loop_Raised keys m w e m' w' :
  NoDup keys ->
  update_loop keys m w = Raised e m' w' ->
  exists pre k post i,
    keys = pre ++ k :: post /\
    m !! k = Some i /\
    update_one (fd i) w = Err e w' /\
    all_read pre m w = true /\
    forall j, m' !! j
              = if decide (j ∈ pre) then refreshed w <$> m !! j
                else m !! j.
Proof.
  revert m. induction keys as [|k rest IH]; intros m Hnd; simpl.
  - discriminate.
  - apply NoDup_cons in Hnd as [Hk Hnd].
    destruct (m !! k) as [i|] eqn:Hmk.
    + destruct (update_one (fd i) w) as [v w1|e1 w1] eqn:Hone.
      * apply update_one_Ok_world in Hone as Hw. subst w1. intros Hrun.
        destruct (IH _ Hnd Hrun) as (pre & k' & post & i' & -> & Hk' & Hfail & Hall & Hm').
        assert (Hne : k' <> k).
        { intros ->. apply Hk. apply elem_of_app. right. apply list_elem_of_here. }
        rewrite lookup_insert_ne in Hk' by congruence.
        exists (k :: pre), k', post, i'. split_and!; try assumption; try reflexivity.
        -- simpl. rewrite Hmk. unfold reads at 1. rewrite Hone. simpl.
           unfold all_read in *. rewrite forallb_forall in *.
           intros x Hx. specialize (Hall x Hx).
           rewrite lookup_insert_ne in Hall; [exact Hall|].
           intros <-. apply Hk. apply elem_of_app. left.
           now apply list_elem_of_In.
        -- intros j. rewrite Hm'.
           destruct (decide (j = k)) as [->|Hjk].
           ++ rewrite lookup_insert_eq, Hmk. simpl.
              rewrite (decide_True (P := k ∈ k :: pre)) by apply list_elem_of_here.
              assert (Hr : refreshed w i = {| value := v; fd := fd i |})
                by (unfold refreshed; now rewrite Hone).
              rewrite <- Hr, refreshed_idem. now destruct (decide (k ∈ pre)).
           ++ rewrite lookup_insert_ne by congruence.
              destruct (decide (j ∈ pre)) as [Hin|Hnin].
              ** rewrite decide_True; [reflexivity|].
                 now apply list_elem_of_further.
              ** rewrite decide_False; [reflexivity|].
                 rewrite elem_of_cons. tauto.
      * intros [= <- <- <-].
        exists [], k, rest, i. split_and!; try assumption; reflexivity.
    + intros Hrun.
      destruct (IH _ Hnd Hrun) as (pre & k' & post & i' & -> & Hk' & Hfail & Hall & Hm').
      exists (k :: pre), k', post, i'. split_and!; try assumption; try reflexivity.
      * simpl. now rewrite Hmk.
      * intros j. rewrite Hm'.
        destruct (decide (j = k)) as [->|Hjk].
        -- rewrite Hmk. simpl. now repeat destruct (decide _).
        -- destruct (decide (j ∈ pre)) as [Hin|Hnin].
           ++ rewrite decide_True; [reflexivity|].
              now apply list_elem_of_further.
           ++ rewrite decide_False; [reflexivity|].
              rewrite elem_of_cons. tauto.
Qed.

(** A tracked counter that cannot be read makes the loop throw, and is
    left with the value it held. *)
Lemma update_loop_fails keys m w k i e0 w0 :
  k ∈ keys -> m !! k = Some i -> update_one (fd i) w = Err e0 w0 ->
  exists e m' w',
    update_loop keys m w = Raised e m' w' /\ m' !! k = Some i.
Proof.
  revert m. induction keys as [|j rest IH]; intros m Hin Hk Hfail.
  - now apply elem_of_nil in Hin.
  - simpl. destruct (m !! j) as [ij|] eqn:Hj.
    + destruct (update_one (fd ij) w) as [v w1|e1 w1] eqn:Hone.
      * apply update_one_Ok_world in Hone as Hw. subst w1.
        assert (Hne : k <> j).
        { intros ->. rewrite Hj in Hk. injection Hk as ->. congruence. }
        apply elem_of_cons in Hin as [?|Hin]; [congruence|].
        apply IH; [exact Hin| |exact Hfail].
        now rewrite lookup_insert_ne by congruence.
      * now exists e1, m, w1.
    + apply elem_of_cons in Hin as [->|Hin]; [congruence|].
      now apply IH.
Qed.

(** The loop touches the visited keys only. *)
Lemma update_loop_skips keys m w k :
  k ∉ keys -> state_of (update_loop keys m w) !! k = m !! k.
Proof.
  revert m. induction keys as [|j rest IH]; intros m Hk; simpl.
  - reflexivity.
  - apply not_elem_of_cons in Hk as [Hne Hk].
    destruct (m !! j) as [ij|]; [|now apply IH].
    destruct (update_one (fd ij) w) as [v w1|e w1] eqn:Hone; [|reflexivity].
    apply update_one_Ok_world in Hone as ->.
    rewrite IH by exact Hk. now rewrite lookup_insert_ne by congruence.
Qed.

Lemma all_read_insert keys m w j ij v :
  m !! j = Some ij ->
  all_read keys m w = true ->
  all_read keys (<[j := {| value := v; fd := fd ij |}]> m) w = true.
Proof.
  intros Hj Hall. unfold all_read in *. rewrite forallb_forall in *.
  intros x Hx. specialize (Hall x Hx).
  destruct (decide (x = j)) as [->|Hne].
  - rewrite lookup_insert_eq. simpl. now rewrite Hj in Hall.
  - now rewrite lookup_insert_ne by congruence.
Qed.

(** When the counters visited before [k] read, the loop reaches [k]: the
    value [k] reads is stored, whatever happens after it. *)
Lemma update_loop_stores pre k post m w i v :
  k ∉ pre -> k ∉ post ->
  m !! k = Some i ->
  update_one (fd i) w = Ok v w ->
  all_read pre m w = true ->
  state_of (update_loop (pre ++ k :: post) m w) !! k
  = Some {| value := v; fd := fd i |}.
Proof.
  intros Hpre Hpost. revert m.
  induction pre as [|j pre IH]; intros m Hk Hone Hall; simpl.
  - rewrite Hk, Hone. rewrite update_loop_skips by exact Hpost.
    apply lookup_insert_eq.
  - apply not_elem_of_cons in Hpre as [Hne Hpre].
    simpl in Hall. apply andb_true_iff in Hall as [Hj Hall].
    destruct (m !! j) as [ij|] eqn:Hmj; [|now apply IH].
    unfold reads in Hj.
    destruct (update_one (fd ij) w) as [vj w1|e w1] eqn:Hjone; [|discriminate].
    apply update_one_Ok_world in Hjone as Hw. subst w1.
    apply IH; [exact Hpre| |exact Hone|now apply all_read_insert].
    now rewrite lookup_insert_ne by congruence.
Qed.

(** ... and when [k] fails, the loop throws the exception of [k] and leaves
    [k] as it was. *)
Lemma update_loop_fails_at pre k post m w i e w' :
  k ∉ pre ->
  m !! k = Some i ->
  update_one (fd i) w = Err e w' ->
  all_read pre m w = true ->
  exists m', update_loop (pre ++ k :: post) m w = Raised e m' w' /\
             m' !! k = Some i.
Proof.
  intros Hpre. revert m.
  induction pre as [|j pre IH]; intros m Hk Hone Hall; simpl.
  - rewrite Hk, Hone. eauto.
  - apply not_elem_of_cons in Hpre as [Hne Hpre].
    simpl in Hall. apply andb_true_iff in Hall as [Hj Hall].
    destruct (m !! j) as [ij|] eqn:Hmj; [|now apply IH].
    unfold reads in Hj.
    destruct (update_one (fd ij) w) as [vj w1|e1 w1] eqn:Hjone; [|discriminate].
    apply update_one_Ok_world in Hjone as Hw. subst w1.
    apply IH; [exact Hpre| |exact Hone|now apply all_read_insert].
    now rewrite lookup_insert_ne by congruence.
Qed.
End update_loop_facts.

(** * [strtol] on decimal numerals *)

Lemma list_ascii_of_string_app a b :
  list_ascii_of_string (a +:+ b)
  = list_ascii_of_string a ++ list_ascii_of_string b.
Proof. induction a as [|c a IH]; simpl; [reflexivity|]. now rewrite IH. Qed.

Lemma list_ascii_of_string_length a :
  length (list_ascii_of_string a) = String.length a.
Proof. induction a; simpl; congruence. Qed.

Lemma stops_c_str tail :
  stops tail -> stops_list (c_str (list_ascii_of_string tail)).
Proof.
  destruct tail as [|c tail]; simpl; [trivial|].
  intros Hc. destruct (Ascii.eqb c NUL); simpl; trivial.
Qed.

(** A numeral holds no NUL, so the C string runs through it. *)
Lemma c_str_numeral d rest : c_str (numeral d ++ rest) = numeral d ++ c_str rest.
Proof.
  unfold numeral. induction d; simpl; [reflexivity|..]; now rewrite IHd.
Qed.

Lemma numeral_length d : length (numeral d) = N.to_nat (usize d).
Proof.
  unfold numeral. induction d; simpl usize; [reflexivity|..];
    rewrite N2Nat.inj_succ; simpl; now rewrite IHd.
Qed.

(** The digits of a numeral accumulate to its value (Horner's rule). *)
Lemma digits_numeral d rest acc :
  stops_list rest ->
  digits (numeral d ++ rest) acc
  = (acc * 10 ^ Z.of_N (usize d) + Z.of_N (of_lu (Decimal.rev d)),
     N.to_nat (usize d)).
Proof.
  intros Hrest. revert acc.
  induction d; intros acc;
    [ destruct rest as [|c rest]; simpl in *;
        [|rewrite Hrest]; f_equal; lia | .. ];
    unfold Decimal.rev; simpl Decimal.revapp; rewrite of_lu_revapp;
    fold (Decimal.rev d);
    unfold numeral in *; simpl NilEmpty.string_of_uint;
    simpl list_ascii_of_string; simpl app; simpl digits;
    rewrite IHd; simpl usize; simpl of_lu;
    rewrite N2Nat.inj_succ, N2Z.inj_succ, Z.pow_succ_r by lia;
    rewrite N2Z.inj_add, N2Z.inj_mul, N2Z.inj_pow;
    f_equal;
    match goal with
    | |- context [Z.of_nat ?n] =>
        let v := eval vm_compute in (Z.of_nat n) in
        change (Z.of_nat n) with v
    end;
    simpl Z.of_N; ring.
Qed.

Lemma numeral_head d :
  d <> Decimal.Nil ->
  exists c s, numeral d = c :: s /\ isspace c = false /\
              Ascii.eqb c "-" = false /\ Ascii.eqb c "+" = false.
Proof.
  destruct d; [congruence|..]; intros _; unfold numeral; simpl;
    eexists _, _; (split; [reflexivity|]); repeat split.
Qed.

Lemma usize_nonzero d : d <> Decimal.Nil -> exists n, N.to_nat (usize d) = S n.
Proof.
  destruct d; [congruence|..]; intros _; simpl usize;
    rewrite N2Nat.inj_succ; eauto.
Qed.

(** [strtol] on an unsigned numeral followed by a text it stops at. *)
Lemma strtol_numeral d rest w :
  d <> Decimal.Nil -> stops_list rest ->
  strtol (numeral d ++ rest) w
  = let v := Z.of_N (of_lu (Decimal.rev d)) in
    if LONG_MAX <? v
    then (LONG_MAX, length (numeral d), set_errno ERANGE w)
    else (v, length (numeral d), w).
Proof.
  intros Hd Hrest.
  destruct (numeral_head d Hd) as (c & s & Hcs & Hsp & Hm & Hp).
  destruct (usize_nonzero d Hd) as (n & Hn).
  unfold strtol.
  assert (Hskip : skip_space (numeral d ++ rest) = numeral d ++ rest)
    by (rewrite Hcs; simpl; now rewrite Hsp).
  rewrite Hskip.
  assert (Hsign : sign_of (numeral d ++ rest) = (false, O, numeral d ++ rest))
    by (rewrite Hcs; simpl; now rewrite Hm, Hp).
  rewrite Hsign, digits_numeral by exact Hrest.
  rewrite Z.mul_0_l, Z.add_0_l, numeral_length, Nat.sub_diag, Hn.
  cbv zeta.
  destruct (Z.ltb_spec (Z.of_N (of_lu (Decimal.rev d))) LONG_MIN) as [Hlt|_].
  { unfold LONG_MIN in Hlt. lia. }
  reflexivity.
Qed.

(** [strtol] on a numeral with a minus sign. *)
Lemma strtol_minus_numeral d rest w :
  d <> Decimal.Nil -> stops_list rest ->
  strtol ("-"%char :: numeral d ++ rest) w
  = let v := - Z.of_N (of_lu (Decimal.rev d)) in
    if v <? LONG_MIN
    then (LONG_MIN, S (length (numeral d)), set_errno ERANGE w)
    else (v, S (length (numeral d)), w).
Proof.
  intros Hd Hrest.
  destruct (usize_nonzero d Hd) as (n & Hn).
  unfold strtol. simpl skip_space. simpl sign_of. cbv beta iota zeta.
  rewrite digits_numeral by exact Hrest.
  rewrite Z.mul_0_l, Z.add_0_l, numeral_length, Nat.sub_diag, Hn.
  cbv zeta.
  destruct (Z.ltb_spec (- Z.of_N (of_lu (Decimal.rev d))) LONG_MIN) as [Hlt|_];
    [reflexivity|].
  destruct (Z.ltb_spec LONG_MAX (- Z.of_N (of_lu (Decimal.rev d)))) as [Hlt|_].
  { unfold LONG_MAX in Hlt. lia. }
  reflexivity.
Qed.

Lemma to_uint_nonnil (n : N) : N.to_uint n <> Decimal.Nil.
Proof.
  destruct n as [|p]; [discriminate|]. apply DecimalPos.Unsigned.to_uint_nonnil.
Qed.

Lemma of_lu_to_uint (n : N) : of_lu (Decimal.rev (N.to_uint n)) = n.
Proof. rewrite <- of_uint_alt. apply DecimalN.Unsigned.of_to. Qed.

Lemma decimal_bytes n tail :
  c_str (list_ascii_of_string (decimal n +:+ tail))
  = numeral (N.to_uint n) ++ c_str (list_ascii_of_string tail).
Proof.
  rewrite list_ascii_of_string_app. apply c_str_numeral.
Qed.

Lemma decimal_nonempty n tail : (0 < String.length (decimal n +:+ tail))%nat.
Proof.
  destruct (numeral_head _ (to_uint_nonnil n)) as (c & s & Hcs & _).
  rewrite <- list_ascii_of_string_length, list_ascii_of_string_app.
  unfold decimal. fold (numeral (N.to_uint n)). rewrite Hcs. simpl. lia.
Qed.

(** A counter file holding an in-range decimal numeral reads as its
    value. *)
Lemma update_one_decimal_holds w fd res n tail :
  holds_text w fd res (decimal n +:+ tail) ->
  seek_error res = None ->
  stops tail ->
  (String.length (decimal n +:+ tail) < 32)%nat ->
  Z.of_N n <= LONG_MAX ->
  errno_clear w ->
  update_one fd w = Ok (Z.of_N n) w.
Proof.
  intros Htxt Hseek Hstop Hlen Hrange Hclear.
  rewrite (update_one_holds w fd res _ Htxt Hseek).
  - cbv zeta. rewrite decimal_bytes.
    rewrite strtol_numeral
      by (try apply to_uint_nonnil; now apply stops_c_str).
    cbv zeta. rewrite of_lu_to_uint.
    destruct (Z.ltb_spec LONG_MAX (Z.of_N n)) as [Hlt|_]; [lia|].
    rewrite (errno_clear_test w Hclear).
    unfold to_uint64. rewrite Z.mod_small; [reflexivity|].
    unfold LONG_MAX in Hrange. lia.
  - split; [apply decimal_nonempty|exact Hlen].
Qed.

Lemma update_one_decimal w fd n tail :
  counter_text w fd (decimal n +:+ tail) ->
  stops tail ->
  (String.length (decimal n +:+ tail) < 32)%nat ->
  Z.of_N n <= LONG_MAX ->
  errno_clear w ->
  update_one fd w = Ok (Z.of_N n) w.
Proof.
  intros Htxt.
  apply (update_one_decimal_holds w fd (Text (decimal n +:+ tail)));
    [now apply counter_text_holds|reflexivity].
Qed.

(** A decimal numeral beyond [LONG_MAX] is rejected through [ERROR] with
    ERANGE. *)
Lemma update_one_out_of_range w fd n tail :
  counter_text w fd (decimal n +:+ tail) ->
  stops tail ->
  (String.length (decimal n +:+ tail) < 32)%nat ->
  LONG_MAX < Z.of_N n ->
  exists fmt args w',
    update_one fd w = Err (runtime_error (OsError fmt args ERANGE)) w'.
Proof.
  intros Htxt Hstop Hlen Hrange.
  rewrite (update_one_text w fd _ Htxt).
  - cbv zeta. rewrite decimal_bytes.
    rewrite strtol_numeral
      by (try apply to_uint_nonnil; now apply stops_c_str).
    cbv zeta. rewrite of_lu_to_uint.
    destruct (Z.ltb_spec LONG_MAX (Z.of_N n)) as [_|Hle]; [|lia].
    simpl. unfold throw, ERROR. simpl. eauto.
  - split; [apply decimal_nonempty|exact Hlen].
Qed.

(** A counter file holding a negative numeral within the range of [long]
    reads as that value converted to [uint64_t]. *)
Lemma update_one_negative w fd n tail :
  counter_text w fd ("-" +:+ decimal n +:+ tail) ->
  stops tail ->
  (String.length ("-" +:+ decimal n +:+ tail) < 32)%nat ->
  0 < Z.of_N n <= - LONG_MIN ->
  errno_clear w ->
  update_one fd w = Ok (2 ^ 64 - Z.of_N n) w.
Proof.
  intros Htxt Hstop Hlen Hrange Hclear.
  rewrite (update_one_text w fd _ Htxt).
  - cbv zeta.
    change (c_str (list_ascii_of_string ("-" +:+ decimal n +:+ tail)))
      with ("-"%char :: c_str (list_ascii_of_string (decimal n +:+ tail))).
    rewrite decimal_bytes.
    rewrite strtol_minus_numeral
      by (try apply to_uint_nonnil; now apply stops_c_str).
    cbv zeta. rewrite of_lu_to_uint.
    destruct (Z.ltb_spec (- Z.of_N n) LONG_MIN) as [Hlt|_]; [lia|].
    rewrite (errno_clear_test w Hclear).
    unfold to_uint64. f_equal.
    unfold LONG_MIN in Hrange.
    rewrite <- (Z.mod_small (2 ^ 64 - Z.of_N n) (2 ^ 64)) by lia.
    rewrite <- (Z_mod_plus_full (- Z.of_N n) 1 (2 ^ 64)). f_equal. lia.
  - split; [simpl; lia|exact Hlen].
Qed.

(** A negative numeral below [LONG_MIN] is rejected through [ERROR] with
    ERANGE, whatever [errno] held. *)
Lemma update_one_negative_out_of_range w fd n tail :
  counter_text w fd ("-" +:+ decimal n +:+ tail) ->
  stops tail ->
  (String.length ("-" +:+ decimal n +:+ tail) < 32)%nat ->
  - LONG_MIN < Z.of_N n ->
  exists fmt args w',
    update_one fd w = Err (runtime_error (OsError fmt args ERANGE)) w'.
Proof.
  intros Htxt Hstop Hlen Hrange.
  rewrite (update_one_text w fd _ Htxt).
  - cbv zeta.
    change (c_str (list_ascii_of_string ("-" +:+ decimal n +:+ tail)))
      with ("-"%char :: c_str (list_ascii_of_string (decimal n +:+ tail))).
    rewrite decimal_bytes.
    rewrite strtol_minus_numeral
      by (try apply to_uint_nonnil; now apply stops_c_str).
    cbv zeta. rewrite of_lu_to_uint.
    destruct (Z.ltb_spec (- Z.of_N n) LONG_MIN) as [_|Hle]; [|lia].
    simpl. unfold throw, ERROR. simpl. eauto.
  - split; [simpl; lia|exact Hlen].
Qed.

(** A file that cannot be repositioned: [update_one] throws before it
    reads. *)
Lemma update_one_seek_error w fd path res e0 :
  fds w !! fd = Some path ->
  files w !! path = Some res ->
  seek_error res = Some e0 ->
  update_one fd w
  = Err (runtime_error (OsError "lseek for file descriptor %d" [AInt fd] e0))
        (set_errno e0
           (extend [EvPrint (OsError "lseek for file descriptor %d"
                                     [AInt fd] e0)] w)).
Proof.
  intros Hfd Hfile Hseek. destruct res as [se re txt oe]. simpl in Hseek.
  subst se. unfold update_one, update_one_read, lseek.
  rewrite Hfd, Hfile. reflexivity.
Qed.

(** * The byte count checks of [update_one] *)

Lemma lseek_seekable fd w : seekable w fd -> lseek fd w = (0, w).
Proof.
  unfold seekable, lseek.
  destruct (fds w !! fd) as [path|]; simpl; [|congruence].
  destruct (files w !! path) as [[[e|] re txt]|]; simpl; congruence.
Qed.

(** [read] never reports more bytes than it was asked for, and leaves the
    length of the buffer alone. *)
Lemma read_bounds fd rbuf count w :
  0 <= count -> length rbuf = Z.to_nat count ->
  let '(r_ret, rbuf', _) := read fd rbuf count w in
  -1 <= r_ret <= count /\ length rbuf' = length rbuf.
Proof.
  intros Hc Hlen. unfold read.
  destruct (fds w !! fd) as [path|]; [|split; [lia|reflexivity]].
  destruct (files w !! path) as [[se [e|] txt]|]; simpl;
    try (split; [lia|reflexivity]).
  pose proof (length_take (list_ascii_of_string txt) (Z.to_nat count)).
  split; [lia|]. apply blit_length. lia.
Qed.

(** The read phase in terms of the byte count. *)
Lemma update_one_read_cases fd w :
  seekable w fd ->
  let r_ret := read_count w fd in
  (r_ret = READ_SIZE ->
     update_one_read fd w
     = throw (RUNTIME "Wow, actually read %d bytes from fd %d"
                      [AInt r_ret; AInt fd]
                      (snd (read fd (uninitialised READ_SIZE w) READ_SIZE w)))) /\
  (r_ret <= 0 ->
     update_one_read fd w
     = throw (ERROR "Read %d bytes from fd %d" [AInt r_ret; AInt fd]
                    (snd (read fd (uninitialised READ_SIZE w) READ_SIZE w)))) /\
  (0 < r_ret < READ_SIZE ->
     update_one_read fd w
     = Ok (r_ret,
           snd (fst (read fd (uninitialised READ_SIZE w) READ_SIZE w)))
          (snd (read fd (uninitialised READ_SIZE w) READ_SIZE w))).
Proof.
  intros Hseek. unfold update_one_read, read_count.
  rewrite (lseek_seekable fd w Hseek). simpl.
  destruct (read fd (uninitialised READ_SIZE w) READ_SIZE w)
    as [[r_ret rbuf] w1]. simpl.
  split_and!; intros Hr.
  - subst r_ret. reflexivity.
  - destruct (Z.eqb_spec r_ret READ_SIZE) as [E|_];
      [unfold READ_SIZE in E; lia|].
    destruct (Z.leb_spec r_ret 0); [reflexivity|lia].
  - destruct (Z.eqb_spec r_ret READ_SIZE) as [E|_]; [lia|].
    destruct (Z.leb_spec r_ret 0); [lia|reflexivity].
Qed.


(** ** The update methods *)

Lemma all_rx_fields_NoDup : NoDup all_rx_fields.
Proof. apply (bool_decide_unpack _). vm_compute. exact I. Qed.

Lemma all_tx_fields_NoDup : NoDup all_tx_fields.
Proof. apply (bool_decide_unpack _). vm_compute. exact I. Qed.

Lemma all_rx_fields_complete r : r ∈ all_rx_fields.
Proof. destruct r; apply (bool_decide_unpack _); vm_compute; exact I. Qed.

Lemma all_tx_fields_complete t : t ∈ all_tx_fields.
Proof. destruct t; apply (bool_decide_unpack _); vm_compute; exact I. Qed.

Lemma receive_field_fetch r s :
  receive_field r (get_receive_data s) = fetch_one_rx s r.
Proof. now destruct r. Qed.

Lemma transmit_field_fetch t s :
  transmit_field t (get_transmit_data s) = fetch_one_tx s t.
Proof. now destruct t. Qed.

Section update_loop_more.
Context `{Countable K}.
Implicit Types (keys : list K) (m : gmap K netdata) (w : world).

Lemma update_loop_Done_inv keys m w m' w' :
  update_loop keys m w = Done m' w' ->
  w' = w /\ all_read keys m w = true.
Proof.
  revert m. induction keys as [|k rest IH]; intros m; simpl.
  - now intros [= _ <-].
  - destruct (m !! k) as [i|] eqn:Hk; [|apply IH].
    unfold reads at 1.
    destruct (update_one (fd i) w) as [v w1|e w1] eqn:Hone; [|discriminate].
    apply update_one_Ok_world in Hone as Hw. subst w1.
    intros Hrun. destruct (IH _ Hrun) as [-> Hall]. split; [reflexivity|].
    simpl. unfold all_read in *. rewrite forallb_forall in *.
    intros x Hx. specialize (Hall x Hx).
    destruct (decide (x = k)) as [->|Hne].
    + rewrite Hk. unfold reads. now rewrite Hone.
    + now rewrite lookup_insert_ne in Hall by congruence.
Qed.

Lemma all_read_lookup keys m w k i :
  all_read keys m w = true -> k ∈ keys -> m !! k = Some i ->
  reads w (fd i) = true.
Proof.
  unfold all_read. rewrite forallb_forall. intros Hall Hin Hk.
  apply list_elem_of_In in Hin. specialize (Hall k Hin). now rewrite Hk in Hall.
Qed.

(** If the counters other than [k] read, and [k] reads, all read. *)
Lemma all_read_delete keys m w k i :
  m !! k = Some i -> reads w (fd i) = true ->
  all_read keys (delete k m) w = true ->
  all_read keys m w = true.
Proof.
  unfold all_read. rewrite !forallb_forall. intros Hk Hr Hall x Hx.
  specialize (Hall x Hx). destruct (decide (x = k)) as [->|Hne].
  - now rewrite Hk.
  - now rewrite lookup_delete_ne in Hall by congruence.
Qed.
End update_loop_more.

Lemma update_all_Done s w :
  all_read all_rx_fields (rx_to_update_ s) w = true ->
  all_read all_tx_fields (tx_to_update_ s) w = true ->
  exists s',
    update_all s w = Done s' w /\
    (forall r, rx_to_update_ s' !! r = refreshed w <$> rx_to_update_ s !! r) /\
    (forall t, tx_to_update_ s' !! t = refreshed w <$> tx_to_update_ s !! t).
Proof.
  intros Hrx Htx.
  destruct (update_loop_Done _ _ _ Hrx) as (mr & Hr & Hmr).
  destruct (update_loop_Done _ _ _ Htx) as (mt & Ht & Hmt).
  exists (with_tx (with_rx s mr) mt).
  unfold update_all, update_receive_data, update_transmit_data, update_data.
  rewrite Hr. cbn [lift tx_to_update_ with_rx]. rewrite Ht.
  cbn [lift]. split_and!; [reflexivity|..].
  - intros r. rewrite Hmr.
    now rewrite decide_True by apply all_rx_fields_complete.
  - intros t. rewrite Hmt.
    now rewrite decide_True by apply all_tx_fields_complete.
Qed.

Lemma update_all_fails_rx s w r i e0 w0 :
  rx_to_update_ s !! r = Some i -> update_one (fd i) w = Err e0 w0 ->
  exists e s' w',
    update_all s w = Raised e s' w' /\ rx_to_update_ s' !! r = Some i.
Proof.
  intros Hr Hfail.
  destruct (update_loop_fails all_rx_fields _ w r i e0 w0
              (all_rx_fields_complete r) Hr Hfail) as (e & m' & w' & Hrun & Hm').
  exists e, (with_rx s m'), w'.
  unfold update_all, update_receive_data, update_data. rewrite Hrun.
  cbn [lift]. now split.
Qed.

Lemma update_all_fails_tx s w t i e0 w0 :
  tx_to_update_ s !! t = Some i -> update_one (fd i) w = Err e0 w0 ->
  exists e s' w',
    update_all s w = Raised e s' w' /\ tx_to_update_ s' !! t = Some i.
Proof.
  intros Ht Hfail.
  unfold update_all, update_receive_data, update_data.
  destruct (update_loop all_rx_fields (rx_to_update_ s) w)
    as [mr w1|e mr w1] eqn:Hrx; cbn [lift].
  - apply update_loop_Done_inv in Hrx as [-> _].
    destruct (update_loop_fails all_tx_fields _ w t i e0 w0
                (all_tx_fields_complete t) Ht Hfail)
      as (e & m' & w' & Hrun & Hm').
    exists e, (with_tx (with_rx s mr) m'), w'.
    unfold update_transmit_data, update_data.
    cbn [tx_to_update_ with_rx]. rewrite Hrun. cbn [lift]. now split.
  - now exists e, (with_rx s mr), w1.
Qed.

(** One receive counter that reads [v], the others reading too. *)
Lemma update_all_one_rx s w r i v :
  rx_to_update_ s !! r = Some i ->
  update_one (fd i) w = Ok v w ->
  others_read_rx s r w = true ->
  exists s',
    update_all s w = Done s' w /\
    receive_field r (get_receive_data s') = v.
Proof.
  intros Hr Hone Hothers.
  apply andb_true_iff in Hothers as [Hrx Htx].
  assert (Hreads : reads w (fd i) = true) by (unfold reads; now rewrite Hone).
  destruct (update_all_Done s w (all_read_delete _ _ _ _ _ Hr Hreads Hrx) Htx)
    as (s' & Hrun & Hmr & _).
  exists s'. split; [exact Hrun|].
  rewrite receive_field_fetch. unfold fetch_one_rx, fetch_one.
  rewrite Hmr, Hr. simpl. unfold refreshed. now rewrite Hone.
Qed.

Lemma update_all_one_tx s w t i v :
  tx_to_update_ s !! t = Some i ->
  update_one (fd i) w = Ok v w ->
  others_read_tx s t w = true ->
  exists s',
    update_all s w = Done s' w /\
    transmit_field t (get_transmit_data s') = v.
Proof.
  intros Ht Hone Hothers.
  apply andb_true_iff in Hothers as [Hrx Htx].
  assert (Hreads : reads w (fd i) = true) by (unfold reads; now rewrite Hone).
  destruct (update_all_Done s w Hrx (all_read_delete _ _ _ _ _ Ht Hreads Htx))
    as (s' & Hrun & _ & Hmt).
  exists s'. split; [exact Hrun|].
  rewrite transmit_field_fetch. unfold fetch_one_tx, fetch_one.
  rewrite Hmt, Ht. simpl. unfold refreshed. now rewrite Hone.
Qed.

Lemma state_of_lift {S T} (f : S -> T) (o : outcome S) :
  state_of (lift f o) = f (state_of o).
Proof. now destruct o. Qed.

Lemma world_of_lift {S T} (f : S -> T) (o : outcome S) :
  world_of (lift f o) = world_of o.
Proof. now destruct o. Qed.

Lemma split_NoDup `{Countable K} (all pre post : list K) k :
  NoDup all -> all = pre ++ k :: post -> (k ∉ pre) /\ (k ∉ post).
Proof.
  intros Hnd ->. apply NoDup_app in Hnd as (_ & Hdisj & Hnd).
  apply NoDup_cons in Hnd as [Hpost _]. split; [|exact Hpost].
  intros Hin. apply (Hdisj k Hin), list_elem_of_here.
Qed.

(** The receive map [update_all] leaves is the one its receive loop
    leaves; the transmit loop runs when the receive counters read. *)
Lemma update_all_rx_state s w :
  rx_to_update_ (state_of (update_all s w))
  = state_of (update_loop all_rx_fields (rx_to_update_ s) w).
Proof.
  unfold update_all, update_receive_data, update_transmit_data, update_data.
  destruct (update_loop all_rx_fields (rx_to_update_ s) w)
    as [mr w1|e mr w1]; cbn [lift state_of]; [|reflexivity].
  now rewrite state_of_lift.
Qed.

Lemma update_all_tx_state s w :
  all_read all_rx_fields (rx_to_update_ s) w = true ->
  update_all s w
  = lift (with_tx (with_rx s (state_of (update_loop all_rx_fields
                                          (rx_to_update_ s) w))))
      (update_loop all_tx_fields (tx_to_update_ s) w).
Proof.
  intros Hrx. destruct (update_loop_Done _ _ _ Hrx) as (mr & Hr & _).
  unfold update_all, update_receive_data, update_transmit_data, update_data.
  rewrite Hr. reflexivity.
Qed.

(** A counter that is reached and reads is stored, whether or not the
    update throws later; it returns when the other counters read too. *)
Lemma update_all_stores_rx s w pre r post i v :
  all_rx_fields = pre ++ r :: post ->
  rx_to_update_ s !! r = Some i ->
  update_one (fd i) w = Ok v w ->
  all_read pre (rx_to_update_ s) w = true ->
  rx_to_update_ (state_of (update_all s w)) !! r
  = Some {| value := v; fd := fd i |} /\
  receive_field r (get_receive_data (state_of (update_all s w))) = v.
Proof.
  intros Hsplit Hr Hone Hpre.
  destruct (split_NoDup _ _ _ _ all_rx_fields_NoDup Hsplit) as [Hn1 Hn2].
  assert (Hm : rx_to_update_ (state_of (update_all s w)) !! r
               = Some {| value := v; fd := fd i |}).
  { rewrite update_all_rx_state, Hsplit.
    now apply update_loop_stores. }
  split; [exact Hm|].
  rewrite receive_field_fetch. unfold fetch_one_rx, fetch_one.
  now rewrite Hm.
Qed.

Lemma update_all_stores_tx s w pre t post i v :
  all_tx_fields = pre ++ t :: post ->
  tx_to_update_ s !! t = Some i ->
  update_one (fd i) w = Ok v w ->
  all_read all_rx_fields (rx_to_update_ s) w = true ->
  all_read pre (tx_to_update_ s) w = true ->
  tx_to_update_ (state_of (update_all s w)) !! t
  = Some {| value := v; fd := fd i |} /\
  transmit_field t (get_transmit_data (state_of (update_all s w))) = v.
Proof.
  intros Hsplit Ht Hone Hrx Hpre.
  destruct (split_NoDup _ _ _ _ all_tx_fields_NoDup Hsplit) as [Hn1 Hn2].
  assert (Hm : tx_to_update_ (state_of (update_all s w)) !! t
               = Some {| value := v; fd := fd i |}).
  { rewrite (update_all_tx_state s w Hrx), state_of_lift, Hsplit.
    cbn [tx_to_update_ with_tx]. now apply update_loop_stores. }
  split; [exact Hm|].
  rewrite transmit_field_fetch. unfold fetch_one_tx, fetch_one.
  now rewrite Hm.
Qed.

(** A counter that is reached and fails stops the update with its own
    exception and keeps its element. *)
Lemma update_all_stops_rx s w pre r post i e w' :
  all_rx_fields = pre ++ r :: post ->
  rx_to_update_ s !! r = Some i ->
  update_one (fd i) w = Err e w' ->
  all_read pre (rx_to_update_ s) w = true ->
  exists s', update_all s w = Raised e s' w' /\
             rx_to_update_ s' !! r = Some i.
Proof.
  intros Hsplit Hr Hone Hpre.
  destruct (split_NoDup _ _ _ _ all_rx_fields_NoDup Hsplit) as [Hn1 _].
  destruct (update_loop_fails_at pre r post _ w i e w' Hn1 Hr Hone Hpre)
    as (m' & Hrun & Hm').
  exists (with_rx s m').
  unfold update_all, update_receive_data, update_data.
  rewrite Hsplit, Hrun. now split.
Qed.

Lemma update_all_stops_tx s w pre t post i e w' :
  all_tx_fields = pre ++ t :: post ->
  tx_to_update_ s !! t = Some i ->
  update_one (fd i) w = Err e w' ->
  all_read all_rx_fields (rx_to_update_ s) w = true ->
  all_read pre (tx_to_update_ s) w = true ->
  exists s', update_all s w = Raised e s' w' /\
             tx_to_update_ s' !! t = Some i.
Proof.
  intros Hsplit Ht Hone Hrx Hpre.
  destruct (split_NoDup _ _ _ _ all_tx_fields_NoDup Hsplit) as [Hn1 _].
  destruct (update_loop_fails_at pre t post _ w i e w' Hn1 Ht Hone Hpre)
    as (m' & Hrun & Hm').
  rewrite (update_all_tx_state s w Hrx), Hsplit, Hrun. cbn [lift].
  eexists. split; [reflexivity|exact Hm'].
Qed.

(** The same for any set [P] of descriptors on which [update_one] returns
    [v]. *)
Lemma update_all_stores (P : Z -> Prop) s w v :
  (forall fd, P fd -> update_one fd w = Ok v w) ->
  (forall pre r post i,
     all_rx_fields = pre ++ r :: post ->
     rx_to_update_ s !! r = Some i -> P (fd i) ->
     all_read pre (rx_to_update_ s) w = true ->
     update_one (fd i) w = Ok v w /\
     rx_to_update_ (state_of (update_all s w)) !! r
     = Some {| value := v; fd := fd i |} /\
     receive_field r (get_receive_data (state_of (update_all s w))) = v /\
     (others_read_rx s r w = true ->
      exists s', update_all s w = Done s' w)) /\
  (forall pre t post i,
     all_tx_fields = pre ++ t :: post ->
     tx_to_update_ s !! t = Some i -> P (fd i) ->
     all_read all_rx_fields (rx_to_update_ s) w = true ->
     all_read pre (tx_to_update_ s) w = true ->
     update_one (fd i) w = Ok v w /\
     tx_to_update_ (state_of (update_all s w)) !! t
     = Some {| value := v; fd := fd i |} /\
     transmit_field t (get_transmit_data (state_of (update_all s w))) = v /\
     (others_read_tx s t w = true ->
      exists s', update_all s w = Done s' w)).
Proof.
  intros Hone. split.
  - intros pre r post i Hsplit Hr HP Hpre.
    pose proof (Hone _ HP) as Hread.
    destruct (update_all_stores_rx s w pre r post i v Hsplit Hr Hread Hpre)
      as [Hm Hf].
    split_and!; try assumption. intros Hothers.
    destruct (update_all_one_rx s w r i v Hr Hread Hothers) as (s' & Hrun & _).
    eauto.
  - intros pre t post i Hsplit Ht HP Hrx Hpre.
    pose proof (Hone _ HP) as Hread.
    destruct (update_all_stores_tx s w pre t post i v Hsplit Ht Hread Hrx Hpre)
      as [Hm Hf].
    split_and!; try assumption. intros Hothers.
    destruct (update_all_one_tx s w t i v Ht Hread Hothers) as (s' & Hrun & _).
    eauto.
Qed.

(** * Partial failure of an update *)

Lemma refreshed_lookup_fd `{Countable K} (m : gmap K netdata) w j :
  fd <$> (refreshed w <$> m !! j) = fd <$> m !! j.
Proof. destruct (m !! j) as [i|]; simpl; [|reflexivity]. now rewrite refreshed_fd. Qed.

(** Where and how [update_all] throws. *)
Lemma update_all_Raised_inv (s : network_stats) (w : world)
    (e : exception) (s' : network_stats) (w' : world) :
  update_all s w = Raised e s' w' ->
  (interface_name_ s' = interface_name_ s /\
   interface_stats_path_ s' = interface_stats_path_ s) /\
  ((exists pre r post i,
      all_rx_fields = pre ++ r :: post /\
      rx_to_update_ s !! r = Some i /\
      update_one (fd i) w = Err e w' /\
      all_read pre (rx_to_update_ s) w = true /\
      (forall j, rx_to_update_ s' !! j
                 = if decide (j ∈ pre)
                   then refreshed w <$> rx_to_update_ s !! j
                   else rx_to_update_ s !! j) /\
      tx_to_update_ s' = tx_to_update_ s) \/
   (exists pre t post i,
      all_tx_fields = pre ++ t :: post /\
      tx_to_update_ s !! t = Some i /\
      update_one (fd i) w = Err e w' /\
      all_read all_rx_fields (rx_to_update_ s) w = true /\
      all_read pre (tx_to_update_ s) w = true /\
      (forall j, rx_to_update_ s' !! j
                 = refreshed w <$> rx_to_update_ s !! j) /\
      (forall j, tx_to_update_ s' !! j
                 = if decide (j ∈ pre)
                   then refreshed w <$> tx_to_update_ s !! j
                   else tx_to_update_ s !! j))).
Proof.
  unfold update_all, update_receive_data, update_transmit_data, update_data.
  destruct (update_loop all_rx_fields (rx_to_update_ s) w)
    as [mr w1|e1 mr w1] eqn:Hrx; cbn [lift].
  - cbn [tx_to_update_ with_rx].
    destruct (update_loop all_tx_fields (tx_to_update_ s) w1)
      as [mt w2|e2 mt w2] eqn:Htx; cbn [lift]; [discriminate|].
    intros [= <- <- <-].
    destruct (update_loop_Done_inv _ _ _ _ _ Hrx) as [-> Hall].
    destruct (update_loop_Done _ _ _ Hall) as (mr' & Hrx' & Hmr).
    rewrite Hrx in Hrx'. injection Hrx' as <-.
    assert (Hmr' : forall j, mr !! j = refreshed w <$> rx_to_update_ s !! j).
    { intros j. rewrite Hmr.
      now rewrite decide_True by apply all_rx_fields_complete. }
    destruct (update_loop_Raised _ _ _ _ _ _ all_tx_fields_NoDup Htx)
      as (pre & t & post & i & Hsplit & Ht & Hfail & Hpre & Hmt).
    split.
    + cbn. now split.
    + right. exists pre, t, post, i. cbn. split_and!; assumption.
  - intros [= <- <- <-].
    destruct (update_loop_Raised _ _ _ _ _ _ all_rx_fields_NoDup Hrx)
      as (pre & r & post & i & Hsplit & Hr & Hfail & Hpre & Hmr).
    split.
    + cbn. now split.
    + left. exists pre, r, post, i. cbn. split_and!; try assumption.
      reflexivity.
Qed.


(** When the other tracked counters read, the exception [update_all] throws
    is the one of the counter that fails. *)
Lemma update_all_raises_rx s w r i e w1 :
  rx_to_update_ s !! r = Some i ->
  update_one (fd i) w = Err e w1 ->
  others_read_rx s r w = true ->
  exists s', update_all s w = Raised e s' w1 /\ rx_to_update_ s' !! r = Some i.
Proof.
  intros Hr Hfail Hothers.
  destruct (update_all_fails_rx s w r i e w1 Hr Hfail)
    as (e' & s' & w' & Hrun & Hkept).
  apply andb_true_iff in Hothers as [Hrx Htx].
  destruct (update_all_Raised_inv _ _ _ _ _ Hrun)
    as [_ [(pre & r' & post & i' & _ & Hr' & Hfail' & _)
          |(pre & t' & post & i' & _ & Ht' & Hfail' & _)]].
  - destruct (decide (r' = r)) as [->|Hne].
    + rewrite Hr in Hr'. injection Hr' as <-.
      rewrite Hfail in Hfail'. injection Hfail' as <- <-. eauto.
    + assert (Hread : reads w (fd i') = true).
      { apply (all_read_lookup all_rx_fields _ w r' i' Hrx
                 (all_rx_fields_complete r')).
        now rewrite lookup_delete_ne by congruence. }
      unfold reads in Hread. now rewrite Hfail' in Hread.
  - assert (Hread : reads w (fd i') = true)
      by exact (all_read_lookup all_tx_fields _ w t' i' Htx
                  (all_tx_fields_complete t') Ht').
    unfold reads in Hread. now rewrite Hfail' in Hread.
Qed.

Lemma update_all_raises_tx s w t i e w1 :
  tx_to_update_ s !! t = Some i ->
  update_one (fd i) w = Err e w1 ->
  others_read_tx s t w = true ->
  exists s', update_all s w = Raised e s' w1 /\ tx_to_update_ s' !! t = Some i.
Proof.
  intros Ht Hfail Hothers.
  destruct (update_all_fails_tx s w t i e w1 Ht Hfail)
    as (e' & s' & w' & Hrun & Hkept).
  apply andb_true_iff in Hothers as [Hrx Htx].
  destruct (update_all_Raised_inv _ _ _ _ _ Hrun)
    as [_ [(pre & r' & post & i' & _ & Hr' & Hfail' & _)
          |(pre & t' & post & i' & _ & Ht' & Hfail' & _)]].
  - assert (Hread : reads w (fd i') = true)
      by exact (all_read_lookup all_rx_fields _ w r' i' Hrx
                  (all_rx_fields_complete r') Hr').
    unfold reads in Hread. now rewrite Hfail' in Hread.
  - destruct (decide (t' = t)) as [->|Hne].
    + rewrite Ht in Ht'. injection Ht' as <-.
      rewrite Hfail in Hfail'. injection Hfail' as <- <-. eauto.
    + assert (Hread : reads w (fd i') = true).
      { apply (all_read_lookup all_tx_fields _ w t' i' Htx
                 (all_tx_fields_complete t')).
        now rewrite lookup_delete_ne by congruence. }
      unfold reads in Hread. now rewrite Hfail' in Hread.
Qed.

(** The same for a set of descriptors on which [update_one] throws. *)
Lemma update_all_fails (P : Z -> Prop) (Q : exception -> Prop) s w :
  (forall fd, P fd -> exists e w', update_one fd w = Err e w' /\ Q e) ->
  (forall r i, rx_to_update_ s !! r = Some i -> P (fd i) ->
               rejects_rx Q s w r i) /\
  (forall t i, tx_to_update_ s !! t = Some i -> P (fd i) ->
               rejects_tx Q s w t i).
Proof.
  intros Hone. split.
  - intros r i Hr HP. destruct (Hone _ HP) as (e & w' & Hfail & HQ).
    exists e, w'. split_and!; [exact Hfail|exact HQ| |].
    + now apply (update_all_fails_rx s w r i e w').
    + now apply update_all_raises_rx.
  - intros t i Ht HP. destruct (Hone _ HP) as (e & w' & Hfail & HQ).
    exists e, w'. split_and!; [exact Hfail|exact HQ| |].
    + now apply (update_all_fails_tx s w t i e w').
    + now apply update_all_raises_tx.
Qed.

(** * Claims about reading one counter *)

(** C1 (amended).  For a tracked counter whose file can be read and holds
    the text 12345 followed by a newline, in an [update_all] called with no
    stale error code in [errno] and in which the tracked counters visited
    before it (receive kinds ascending, then transmit kinds ascending) read
    without error: the update first repositions the descriptor.  When that
    fails, the update throws the exception of the failed [lseek], nothing
    is read and the counter keeps its element.  Otherwise the file is read
    again, [update_one] returns 12345, and after the call the counter holds
    12345 and its field of the snapshot is 12345, also when the update
    throws at a later counter; the update returns when the other tracked
    counters read as well.  This holds for receive and for transmit
    counters. *)
Theorem update_all_reads_12345 (s : network_stats) (w : world) :
  errno_clear w ->
  (forall pre r post i res,
     all_rx_fields = pre ++ r :: post ->
     rx_to_update_ s !! r = Some i ->
     holds_text w (fd i) res ("12345" +:+ newline) ->
     all_read pre (rx_to_update_ s) w = true ->
     match seek_error res with
     | Some e0 =>
         exists s',
           update_all s w
           = Raised (runtime_error
                       (OsError "lseek for file descriptor %d"
                                [AInt (fd i)] e0))
                    s'
                    (set_errno e0
                       (extend [EvPrint (OsError "lseek for file descriptor %d"
                                                 [AInt (fd i)] e0)] w)) /\
           rx_to_update_ s' !! r = Some i
     | None =>
         update_one (fd i) w = Ok 12345 w /\
         rx_to_update_ (state_of (update_all s w)) !! r
         = Some {| value := 12345; fd := fd i |} /\
         receive_field r (get_receive_data (state_of (update_all s w)))
         = 12345 /\
         (others_read_rx s r w = true ->
          exists s', update_all s w = Done s' w)
     end) /\
  (forall pre t post i res,
     all_tx_fields = pre ++ t :: post ->
     tx_to_update_ s !! t = Some i ->
     holds_text w (fd i) res ("12345" +:+ newline) ->
     all_read all_rx_fields (rx_to_update_ s) w = true ->
     all_read pre (tx_to_update_ s) w = true ->
     match seek_error res with
     | Some e0 =>
         exists s',
           update_all s w
           = Raised (runtime_error
                       (OsError "lseek for file descriptor %d"
                                [AInt (fd i)] e0))
                    s'
                    (set_errno e0
                       (extend [EvPrint (OsError "lseek for file descriptor %d"
                                                 [AInt (fd i)] e0)] w)) /\
           tx_to_update_ s' !! t = Some i
     | None =>
         update_one (fd i) w = Ok 12345 w /\
         tx_to_update_ (state_of (update_all s w)) !! t
         = Some {| value := 12345; fd := fd i |} /\
         transmit_field t (get_transmit_data (state_of (update_all s w)))
         = 12345 /\
         (others_read_tx s t w = true ->
          exists s', update_all s w = Done s' w)
     end).
Proof.
  intros Hclear.
  assert (Hread : forall fd0 res,
            holds_text w fd0 res ("12345" +:+ newline) ->
            seek_error res = None -> update_one fd0 w = Ok 12345 w).
  { intros fd0 res Htxt Hseek.
    apply (update_one_decimal_holds w fd0 res 12345%N newline);
      try assumption; [reflexivity|simpl; lia|discriminate]. }
  assert (Hfail : forall fd0 res e0,
            holds_text w fd0 res ("12345" +:+ newline) ->
            seek_error res = Some e0 ->
            update_one fd0 w
            = Err (runtime_error
                     (OsError "lseek for file descriptor %d" [AInt fd0] e0))
                  (set_errno e0
                     (extend [EvPrint (OsError "lseek for file descriptor %d"
                                               [AInt fd0] e0)] w))).
  { intros fd0 res e0 (path & Hfd & Hfile & _) Hseek.
    now apply (update_one_seek_error w fd0 path res). }
  split.
  - intros pre r post i res Hsplit Hr Htxt Hpre.
    destruct (seek_error res) as [e0|] eqn:Hseek.
    + apply (update_all_stops_rx s w pre r post i); try assumption.
      now apply (Hfail _ res).
    + pose proof (Hread _ res Htxt Hseek) as Hone.
      destruct (update_all_stores_rx s w pre r post i _ Hsplit Hr Hone Hpre)
        as [Hm Hf].
      split_and!; try assumption. intros Hothers.
      destruct (update_all_one_rx s w r i _ Hr Hone Hothers)
        as (s' & Hrun & _).
      eauto.
  - intros pre t post i res Hsplit Ht Htxt Hrx Hpre.
    destruct (seek_error res) as [e0|] eqn:Hseek.
    + apply (update_all_stops_tx s w pre t post i); try assumption.
      now apply (Hfail _ res).
    + pose proof (Hread _ res Htxt Hseek) as Hone.
      destruct (update_all_stores_tx s w pre t post i _ Hsplit Ht Hone Hrx
                  Hpre) as [Hm Hf].
      split_and!; try assumption. intros Hothers.
      destruct (update_all_one_tx s w t i _ Ht Hone Hothers)
        as (s' & Hrun & _).
      eauto.
Qed.

(** C5 (amended).  A counter file holding the decimal numeral of a value in
    the range of [long], [0 .. 2^63 - 1], within the 32-byte bound: in an
    [update_all] called with no stale error code in [errno] and in which
    the tracked counters visited before it read without error,
    [update_one] returns exactly that value and the counter holds it, as
    its last-read value and in the snapshot, after the call, also when the
    update throws at a later counter; the update returns when the other
    tracked counters read as well. *)
Theorem update_all_stores_long_range (s : network_stats) (w : world)
    (n : N) (tail : string) :
  errno_clear w ->
  stops tail ->
  (String.length (decimal n +:+ tail) < 32)%nat ->
  0 <= Z.of_N n <= 2 ^ 63 - 1 ->
  (forall pre r post i,
     all_rx_fields = pre ++ r :: post ->
     rx_to_update_ s !! r = Some i ->
     counter_text w (fd i) (decimal n +:+ tail) ->
     all_read pre (rx_to_update_ s) w = true ->
     update_one (fd i) w = Ok (Z.of_N n) w /\
     rx_to_update_ (state_of (update_all s w)) !! r
     = Some {| value := Z.of_N n; fd := fd i |} /\
     receive_field r (get_receive_data (state_of (update_all s w)))
     = Z.of_N n /\
     (others_read_rx s r w = true ->
      exists s', update_all s w = Done s' w)) /\
  (forall pre t post i,
     all_tx_fields = pre ++ t :: post ->
     tx_to_update_ s !! t = Some i ->
     counter_text w (fd i) (decimal n +:+ tail) ->
     all_read all_rx_fields (rx_to_update_ s) w = true ->
     all_read pre (tx_to_update_ s) w = true ->
     update_one (fd i) w = Ok (Z.of_N n) w /\
     tx_to_update_ (state_of (update_all s w)) !! t
     = Some {| value := Z.of_N n; fd := fd i |} /\
     transmit_field t (get_transmit_data (state_of (update_all s w)))
     = Z.of_N n /\
     (others_read_tx s t w = true ->
      exists s', update_all s w = Done s' w)).
Proof.
  intros Hclear Hstop Hlen Hrange.
  apply (update_all_stores
           (fun fd => counter_text w fd (decimal n +:+ tail)) s w (Z.of_N n)).
  intros fd Htxt.
  apply (update_one_decimal w fd n tail); try assumption.
  unfold LONG_MAX. lia.
Qed.

(** C10 (amended).  A counter file holding a minus sign and the numeral of
    [n], [n > 0], within the 32-byte bound, in an [update_all] in which the
    tracked counters visited before it read without error.  For
    [n <= 2^63], when no stale error code is in [errno] at the call, the
    text is not rejected: [update_one] returns [2^64 - n], the counter
    holds that value after the call and the snapshot reports it; the
    update returns when the other tracked counters read as well.  For
    [n > 2^63] the text is rejected: the update throws through [ERROR] with
    ERANGE and the counter keeps its element. *)
Theorem update_all_negative_wraps (s : network_stats) (w : world)
    (n : N) (tail : string) :
  stops tail ->
  (String.length ("-" +:+ decimal n +:+ tail) < 32)%nat ->
  0 < Z.of_N n ->
  (Z.of_N n <= 2 ^ 63 ->
   errno_clear w ->
   (forall pre r post i,
      all_rx_fields = pre ++ r :: post ->
      rx_to_update_ s !! r = Some i ->
      counter_text w (fd i) ("-" +:+ decimal n +:+ tail) ->
      all_read pre (rx_to_update_ s) w = true ->
      update_one (fd i) w = Ok (2 ^ 64 - Z.of_N n) w /\
      rx_to_update_ (state_of (update_all s w)) !! r
      = Some {| value := 2 ^ 64 - Z.of_N n; fd := fd i |} /\
      receive_field r (get_receive_data (state_of (update_all s w)))
      = 2 ^ 64 - Z.of_N n /\
      (others_read_rx s r w = true ->
       exists s', update_all s w = Done s' w)) /\
   (forall pre t post i,
      all_tx_fields = pre ++ t :: post ->
      tx_to_update_ s !! t = Some i ->
      counter_text w (fd i) ("-" +:+ decimal n +:+ tail) ->
      all_read all_rx_fields (rx_to_update_ s) w = true ->
      all_read pre (tx_to_update_ s) w = true ->
      update_one (fd i) w = Ok (2 ^ 64 - Z.of_N n) w /\
      tx_to_update_ (state_of (update_all s w)) !! t
      = Some {| value := 2 ^ 64 - Z.of_N n; fd := fd i |} /\
      transmit_field t (get_transmit_data (state_of (update_all s w)))
      = 2 ^ 64 - Z.of_N n /\
      (others_read_tx s t w = true ->
       exists s', update_all s w = Done s' w))) /\
  (2 ^ 63 < Z.of_N n ->
   (forall pre r post i,
      all_rx_fields = pre ++ r :: post ->
      rx_to_update_ s !! r = Some i ->
      counter_text w (fd i) ("-" +:+ decimal n +:+ tail) ->
      all_read pre (rx_to_update_ s) w = true ->
      exists fmt args s' w',
        update_all s w
        = Raised (runtime_error (OsError fmt args ERANGE)) s' w' /\
        rx_to_update_ s' !! r = Some i) /\
   (forall pre t post i,
      all_tx_fields = pre ++ t :: post ->
      tx_to_update_ s !! t = Some i ->
      counter_text w (fd i) ("-" +:+ decimal n +:+ tail) ->
      all_read all_rx_fields (rx_to_update_ s) w = true ->
      all_read pre (tx_to_update_ s) w = true ->
      exists fmt args s' w',
        update_all s w
        = Raised (runtime_error (OsError fmt args ERANGE)) s' w' /\
        tx_to_update_ s' !! t = Some i)).
Proof.
  intros Hstop Hlen Hpos. split.
  - intros Hrange Hclear.
    apply (update_all_stores
             (fun fd => counter_text w fd ("-" +:+ decimal n +:+ tail))
             s w (2 ^ 64 - Z.of_N n)).
    intros fd Htxt.
    apply (update_one_negative w fd n tail); try assumption.
    unfold LONG_MIN. lia.
  - intros Hrange.
    assert (Hone : forall fd0,
              counter_text w fd0 ("-" +:+ decimal n +:+ tail) ->
              exists fmt args w',
                update_one fd0 w
                = Err (runtime_error (OsError fmt args ERANGE)) w').
    { intros fd0 Htxt.
      apply (update_one_negative_out_of_range w fd0 n tail);
        try assumption; unfold LONG_MIN; lia. }
    split.
    + intros pre r post i Hsplit Hr Htxt Hpre.
      destruct (Hone _ Htxt) as (fmt & args & w' & Hfail).
      destruct (update_all_stops_rx s w pre r post i _ _ Hsplit Hr Hfail Hpre)
        as (s' & Hrun & Hkept).
      now exists fmt, args, s', w'.
    + intros pre t post i Hsplit Ht Htxt Hrx Hpre.
      destruct (Hone _ Htxt) as (fmt & args & w' & Hfail).
      destruct (update_all_stops_tx s w pre t post i _ _ Hsplit Ht Hfail Hrx
                  Hpre) as (s' & Hrun & Hkept).
      now exists fmt, args, s', w'.
Qed.

(** C2 (amended).  When the conversion of a counter's text leaves an error
    code in [errno] (ERANGE for a numeral outside the range of [long], EINVAL
    for a text without digits where the C library reports that),
    [update_one] throws through [ERROR], the path of the operating system
    errors, not through [RUNTIME]; [update_all] throws, with that exception
    when the other tracked counters read, and the counter keeps the element
    it had. *)
Theorem conversion_error_raises_ERROR (s : network_stats) (w : world)
    (txt : string) :
  (0 < String.length txt < 32)%nat ->
  ~ errno_clear (snd (strtol (c_str (list_ascii_of_string txt)) w)) ->
  (forall r i,
     rx_to_update_ s !! r = Some i ->
     counter_text w (fd i) txt ->
     rejects_rx (fun e => via_ERROR e /\ ~ via_RUNTIME e) s w r i) /\
  (forall t i,
     tx_to_update_ s !! t = Some i ->
     counter_text w (fd i) txt ->
     rejects_tx (fun e => via_ERROR e /\ ~ via_RUNTIME e) s w t i).
Proof.
  intros Hlen Hpending.
  apply (update_all_fails (fun fd => counter_text w fd txt)
           (fun e => via_ERROR e /\ ~ via_RUNTIME e) s w).
  intros fd Htxt. rewrite (update_one_text w fd txt Htxt Hlen). cbv zeta.
  destruct (strtol (c_str (list_ascii_of_string txt)) w) as [[value endptr] w1].
  simpl in Hpending. rewrite (errno_pending_test w1 Hpending).
  unfold throw, ERROR. simpl. eexists _, _. split; [reflexivity|].
  simpl. tauto.
Qed.


(** C9.  Whenever the read phase of [update_one] reaches the write of the
    terminator, the byte count satisfies [0 < r_ret < 32] and the buffer has
    32 bytes, so [rbuf[r_ret]] is an element of the buffer (and holds NUL
    after the write); a byte count of 32, or of zero or less, makes the read
    phase throw instead. *)
Theorem terminator_write_in_bounds (fd : Z) (w : world) :
  (forall r_ret rbuf w',
     update_one_read fd w = Ok (r_ret, rbuf) w' ->
     0 < r_ret < READ_SIZE /\
     length rbuf = Z.to_nat READ_SIZE /\
     poke rbuf r_ret NUL !! Z.to_nat r_ret = Some NUL) /\
  (seekable w fd ->
   read_count w fd = READ_SIZE \/ read_count w fd <= 0 ->
   exists e w', update_one_read fd w = Err e w').
Proof.
  split.
  - intros r_ret rbuf w'. unfold update_one_read.
    destruct (lseek fd w) as [ret w1].
    destruct (ret =? -1); [discriminate|].
    pose proof (read_bounds fd (uninitialised READ_SIZE w1) READ_SIZE w1) as Hb.
    rewrite uninitialised_length in Hb by (unfold READ_SIZE; lia).
    specialize (Hb ltac:(unfold READ_SIZE; lia) eq_refl).
    destruct (read fd (uninitialised READ_SIZE w1) READ_SIZE w1)
      as [[r rbuf'] w2].
    destruct Hb as [Hr Hl].
    destruct (Z.eqb_spec r READ_SIZE) as [|Hne]; [discriminate|].
    destruct (Z.leb_spec r 0) as [|Hpos]; [discriminate|].
    intros [= <- <- <-]. split_and!; try lia.
    unfold poke. destruct (Z.leb_spec 0 r); [|lia].
    apply list_lookup_insert_eq. rewrite Hl. unfold READ_SIZE in *. lia.
  - intros Hseek Hcount.
    destruct (update_one_read_cases fd w Hseek) as (Hfull & Hnone & _).
    destruct Hcount as [Hc|Hc]; [rewrite (Hfull Hc)|rewrite (Hnone Hc)];
      unfold throw; eauto.
Qed.

(** C3 (amended).  When [update_all] throws, it throws the error of the
    first tracked counter that fails, in the order receive kinds ascending
    then transmit kinds ascending.  That counter and the ones after it hold
    the elements they held; the counters before it read without error and
    hold the values just read, which are not rolled back.  The tracked kinds,
    the descriptors and the interface are unchanged. *)
Theorem update_all_abort_point (s : network_stats) (w : world)
    (e : exception) (s' : network_stats) (w' : world) :
  update_all s w = Raised e s' w' ->
  (interface_name_ s' = interface_name_ s /\
   interface_stats_path_ s' = interface_stats_path_ s /\
   (forall j, fd <$> rx_to_update_ s' !! j = fd <$> rx_to_update_ s !! j) /\
   (forall j, fd <$> tx_to_update_ s' !! j = fd <$> tx_to_update_ s !! j)) /\
  ((exists pre r post i,
      all_rx_fields = pre ++ r :: post /\
      rx_to_update_ s !! r = Some i /\
      update_one (fd i) w = Err e w' /\
      all_read pre (rx_to_update_ s) w = true /\
      (forall j, rx_to_update_ s' !! j
                 = if decide (j ∈ pre)
                   then refreshed w <$> rx_to_update_ s !! j
                   else rx_to_update_ s !! j) /\
      tx_to_update_ s' = tx_to_update_ s) \/
   (exists pre t post i,
      all_tx_fields = pre ++ t :: post /\
      tx_to_update_ s !! t = Some i /\
      update_one (fd i) w = Err e w' /\
      all_read all_rx_fields (rx_to_update_ s) w = true /\
      all_read pre (tx_to_update_ s) w = true /\
      (forall j, rx_to_update_ s' !! j
                 = refreshed w <$> rx_to_update_ s !! j) /\
      (forall j, tx_to_update_ s' !! j
                 = if decide (j ∈ pre)
                   then refreshed w <$> tx_to_update_ s !! j
                   else tx_to_update_ s !! j))).
Proof.
  intros Hrun.
  destruct (update_all_Raised_inv _ _ _ _ _ Hrun) as [[Hname Hpath] Hcases].
  split; [|exact Hcases]. split_and!; [exact Hname|exact Hpath|..]; intros j.
  - destruct Hcases as [(pre & r & post & i & _ & _ & _ & _ & Hmr & _)
                       |(pre & t & post & i & _ & _ & _ & _ & _ & Hmr & _)];
      rewrite Hmr; [destruct (decide (j ∈ pre)); [|reflexivity]|];
      apply refreshed_lookup_fd.
  - destruct Hcases as [(pre & r & post & i & _ & _ & _ & _ & _ & Htx)
                       |(pre & t & post & i & _ & _ & _ & _ & _ & _ & Hmt)].
    + now rewrite Htx.
    + rewrite Hmt. destruct (decide (j ∈ pre)); [|reflexivity].
      apply refreshed_lookup_fd.
Qed.

(** * The destructor *)

Lemma closed_app t1 t2 : closed (t1 ++ t2) = closed t1 ++ closed t2.
Proof. unfold closed. apply omap_app. Qed.

Lemma failure_reports_app t1 t2 :
  failure_reports (t1 ++ t2) = failure_reports t1 ++ failure_reports t2.
Proof. unfold failure_reports. apply omap_app. Qed.

Lemma opened_app t1 t2 : opened (t1 ++ t2) = opened t1 ++ opened t2.
Proof. unfold opened. apply omap_app. Qed.

(** One [close] call is one [EvClose] event for that descriptor, whatever
    the call returns. *)
Lemma close_trace fd w :
  exists ret, trace (snd (close fd w)) = trace w ++ [EvClose fd ret].
Proof.
  unfold close. destruct (fds w !! fd); [|simpl; eauto].
  destruct (close_error w !! fd); simpl; eauto.
Qed.

Section close_loop_facts.
Context `{Countable K}.

Lemma close_loop_trace (keys : list K) (m : gmap K netdata) w :
  closed (trace (close_loop keys m w)) = closed (trace w) ++ handles keys m /\
  failure_reports (trace (close_loop keys m w)) = failure_reports (trace w).
Proof.
  revert w. induction keys as [|k rest IH]; intros w; simpl.
  - now rewrite app_nil_r.
  - unfold handles. simpl. fold (handles rest m).
    destruct (m !! k) as [i|]; simpl; [|apply IH].
    destruct (close_trace (fd i) w) as (ret & Htr).
    destruct (close (fd i) w) as [r w1]. simpl in Htr.
    destruct (IH w1) as [Hc Hf]. rewrite Hc, Hf, Htr.
    rewrite closed_app, failure_reports_app. simpl.
    rewrite app_nil_r, <- app_assoc. now split.
Qed.
End close_loop_facts.

(** * What the update calls leave alone *)

Lemma quiet_refl w : quiet w w.
Proof. split_and!; try reflexivity. exists []. now rewrite app_nil_r. Qed.

Lemma open_calls_app t1 t2 :
  open_calls (t1 ++ t2) = (open_calls t1 + open_calls t2)%nat.
Proof. unfold open_calls. now rewrite omap_app, length_app. Qed.

Lemma quiet_trans w1 w2 w3 : quiet w1 w2 -> quiet w2 w3 -> quiet w1 w3.
Proof.
  intros (Hr1 & Ht1 & t1 & Htr1 & Ho1 & Hc1) (Hr2 & Ht2 & t2 & Htr2 & Ho2 & Hc2).
  split_and!; try congruence.
  exists (t1 ++ t2). rewrite Htr2, Htr1, app_assoc, opened_app, Ho1, Ho2.
  rewrite open_calls_app, Hc1, Hc2. now split_and!.
Qed.

Lemma quiet_print m w : quiet w (cprint m w).
Proof.
  split_and!; try reflexivity. exists [EvPrint m]. now split_and!.
Qed.

Lemma quiet_CPRINT fmt args w : quiet w (CPRINT fmt args w).
Proof. unfold CPRINT. destruct DEBUG_ON; [apply quiet_print|apply quiet_refl]. Qed.

Lemma quiet_set_errno e w : quiet w (set_errno e w).
Proof. split_and!; try reflexivity. exists []. simpl. now rewrite app_nil_r. Qed.

Lemma quiet_ERROR fmt args w : quiet w (snd (ERROR fmt args w)).
Proof. apply quiet_print. Qed.

Lemma quiet_RUNTIME fmt args w : quiet w (snd (RUNTIME fmt args w)).
Proof. apply quiet_print. Qed.

Lemma quiet_lseek fd w : quiet w (snd (lseek fd w)).
Proof.
  unfold lseek. destruct (fds w !! fd) as [path|]; simpl;
    [|apply quiet_set_errno].
  destruct (files w !! path) as [[[e|] re txt]|]; simpl;
    first [apply quiet_set_errno | apply quiet_refl].
Qed.

Lemma quiet_read fd rbuf count w : quiet w (snd (read fd rbuf count w)).
Proof.
  unfold read. destruct (fds w !! fd) as [path|]; simpl;
    [|apply quiet_set_errno].
  destruct (files w !! path) as [[se [e|] txt]|]; simpl;
    first [apply quiet_set_errno | apply quiet_refl].
Qed.

Lemma quiet_strtol s w : quiet w (snd (strtol s w)).
Proof.
  destruct (strtol_world s w) as [-> | (e & _ & _ & ->)];
    [apply quiet_refl|apply quiet_set_errno].
Qed.

Lemma quiet_update_one fd w : quiet w (result_world (update_one fd w)).
Proof.
  unfold update_one, update_one_read.
  pose proof (quiet_lseek fd w) as H1.
  destruct (lseek fd w) as [ret w1]. simpl in H1.
  destruct (ret =? -1).
  { simpl. eapply quiet_trans; [exact H1|apply quiet_print]. }
  pose proof (quiet_read fd (uninitialised READ_SIZE w1) READ_SIZE w1) as H2.
  destruct (read fd (uninitialised READ_SIZE w1) READ_SIZE w1)
    as [[r_ret rbuf] w2]. simpl in H2.
  destruct (r_ret =? READ_SIZE).
  { simpl. eapply quiet_trans; [exact H1|].
    eapply quiet_trans; [exact H2|apply quiet_print]. }
  destruct (r_ret <=? 0).
  { simpl. eapply quiet_trans; [exact H1|].
    eapply quiet_trans; [exact H2|apply quiet_print]. }
  unfold update_one_convert.
  pose proof (quiet_strtol (c_str (poke rbuf r_ret NUL)) w2) as H3.
  destruct (strtol (c_str (poke rbuf r_ret NUL)) w2) as [[value endptr] w3].
  simpl in H3.
  assert (H13 : quiet w w3)
    by (eapply quiet_trans; [exact H1|]; eapply quiet_trans; eassumption).
  destruct (_ && _); simpl; [|exact H13].
  eapply quiet_trans; [exact H13|apply quiet_print].
Qed.

Section loop_frames.
Context `{Countable K}.
Implicit Types (keys : list K) (m : gmap K netdata) (w : world).

Lemma quiet_update_loop keys m w : quiet w (world_of (update_loop keys m w)).
Proof.
  revert m w. induction keys as [|k rest IH]; intros m w; simpl.
  - apply quiet_refl.
  - destruct (m !! k) as [i|]; [|apply IH].
    pose proof (quiet_update_one (fd i) w) as H1.
    destruct (update_one (fd i) w) as [v w1|e w1]; simpl in *; [|exact H1].
    eapply quiet_trans; [exact H1|apply IH].
Qed.

Lemma update_loop_untracked keys m w j :
  m !! j = None -> state_of (update_loop keys m w) !! j = None.
Proof.
  intros Hj. pose proof (update_loop_handles keys m w j) as Hh.
  rewrite Hj in Hh. now destruct (state_of (update_loop keys m w) !! j).
Qed.

Lemma update_loop_count keys m w j :
  map_count j (state_of (update_loop keys m w)) = map_count j m.
Proof.
  unfold map_count. pose proof (update_loop_handles keys m w j) as Hh.
  destruct (state_of (update_loop keys m w) !! j), (m !! j);
    simpl in Hh; congruence.
Qed.
End loop_frames.

(** * Subscribing *)

Lemma extend_nil w : extend [] w = w.
Proof. destruct w. unfold extend. simpl. now rewrite app_nil_r. Qed.

Lemma extend_extend t1 t2 w : extend t2 (extend t1 w) = extend (t1 ++ t2) w.
Proof. unfold extend. simpl. now rewrite app_assoc. Qed.

Lemma CPRINT_extend fmt args w :
  exists t, CPRINT fmt args w = extend t w /\ Forall is_trace_line t.
Proof.
  unfold CPRINT. destruct DEBUG_ON.
  - exists [EvPrint (Trace fmt args)]. split; [reflexivity|].
    repeat constructor.
  - exists []. now rewrite extend_nil.
Qed.

Lemma map_insert_lookup_ne `{Countable K} {V} (j k : K) (v : V) m :
  k <> j -> map_insert j v m !! k = m !! k.
Proof.
  intros Hne. unfold map_insert. destruct (m !! j); [reflexivity|].
  now rewrite lookup_insert_ne by congruence.
Qed.

Lemma map_insert_lookup_kept `{Countable K} {V} (j k : K) (v i : V) m :
  m !! k = Some i -> map_insert j v m !! k = Some i.
Proof.
  intros Hk. destruct (decide (k = j)) as [->|Hne].
  - unfold map_insert. now rewrite Hk.
  - now rewrite map_insert_lookup_ne.
Qed.

Lemma map_insert_fresh `{Countable K} {V} (j : K) (v : V) m :
  m !! j = None -> map_insert j v m = <[j := v]> m.
Proof. intros Hj. unfold map_insert. now rewrite Hj. Qed.

Section subscribe_facts.
Context `{Countable K}.
Variable name : K -> string.
Variable filenames : world -> gmap K string.
Variable set_filenames : gmap K string -> world -> world.
Variables already opening failed : string.
Implicit Types (todo : list K) (m : gmap K netdata) (w : world).

Local Abbreviation loop :=
  (set_stats_loop name filenames set_filenames already opening failed).

(** A kind that is not requested is left as it is. *)
Lemma set_stats_loop_other path todo m w k :
  k ∉ todo -> state_of (loop path todo m w) !! k = m !! k.
Proof.
  revert m w. induction todo as [|i rest IH]; intros m w Hk; simpl.
  - reflexivity.
  - apply not_elem_of_cons in Hk as [Hne Hk].
    destruct (negb (map_count i m =? 0)%nat); [now apply IH|].
    destruct (map_index i (filenames w)) as [file names].
    destruct (open _ _) as [fd w1].
    destruct (fd =? -1); [reflexivity|].
    rewrite IH by exact Hk. now apply map_insert_lookup_ne.
Qed.

(** A tracked kind keeps its element, whatever is requested and whatever
    the outcome. *)
Lemma set_stats_loop_kept path todo m w k i :
  m !! k = Some i -> state_of (loop path todo m w) !! k = Some i.
Proof.
  revert m w. induction todo as [|j rest IH]; intros m w Hk; simpl.
  - exact Hk.
  - destruct (negb (map_count j m =? 0)%nat); [now apply IH|].
    destruct (map_index j (filenames w)) as [file names].
    destruct (open _ _) as [fd w1].
    destruct (fd =? -1); [exact Hk|].
    apply IH. now apply map_insert_lookup_kept.
Qed.

(** When every requested kind is tracked the call returns, changes
    nothing in the object and only prints trace lines. *)
Lemma set_stats_loop_all_tracked path todo m w :
  (forall k, k ∈ todo -> is_Some (m !! k)) ->
  exists t,
    loop path todo m w = Done m (extend t w) /\ Forall is_trace_line t.
Proof.
  revert w. induction todo as [|j rest IH]; intros w Hall; simpl.
  - exists []. now rewrite extend_nil.
  - destruct (Hall j) as [i Hj]; [apply list_elem_of_here|].
    unfold map_count. rewrite Hj. simpl.
    destruct (CPRINT_extend already [AStr (name j)] w) as (t1 & -> & Ht1).
    destruct (IH (extend t1 w)) as (t2 & -> & Ht2).
    { intros k Hk. apply Hall. now apply list_elem_of_further. }
    exists (t1 ++ t2). rewrite extend_extend. split; [reflexivity|].
    now apply Forall_app.
Qed.
End subscribe_facts.

Lemma set_elements_subset `{Countable K} (all : list K) (s : gset K) k :
  k ∈ set_elements all s -> k ∈ s.
Proof. unfold set_elements. rewrite list_elem_of_filter. tauto. Qed.

(** * Untracked kinds *)

Lemma set_rx_untracked u s w r :
  r ∉ u -> rx_to_update_ s !! r = None ->
  rx_to_update_ (state_of (set_rx_stats_to_update u s w)) !! r = None.
Proof.
  intros Hr Hnone. unfold set_rx_stats_to_update, set_stats_to_update.
  match goal with
  | |- context [lift _ ?o] =>
      assert (Hl : state_of o !! r = None);
      [|destruct o; simpl in *; exact Hl]
  end.
  rewrite set_stats_loop_other; [exact Hnone|].
  intros Hin. apply Hr. eapply set_elements_subset, Hin.
Qed.

Lemma set_tx_untracked u s w t :
  t ∉ u -> tx_to_update_ s !! t = None ->
  tx_to_update_ (state_of (set_tx_stats_to_update u s w)) !! t = None.
Proof.
  intros Ht Hnone. unfold set_tx_stats_to_update, set_stats_to_update.
  match goal with
  | |- context [lift _ ?o] =>
      assert (Hl : state_of o !! t = None);
      [|destruct o; simpl in *; exact Hl]
  end.
  rewrite set_stats_loop_other; [exact Hnone|].
  intros Hin. apply Ht. eapply set_elements_subset, Hin.
Qed.

Lemma update_all_state s w :
  exists mr mt,
    state_of (update_all s w) = with_tx (with_rx s mr) mt /\
    (forall j, fd <$> mr !! j = fd <$> rx_to_update_ s !! j) /\
    (forall j, fd <$> mt !! j = fd <$> tx_to_update_ s !! j).
Proof.
  unfold update_all, update_receive_data, update_transmit_data, update_data.
  pose proof (update_loop_handles all_rx_fields (rx_to_update_ s) w) as Hr.
  destruct (update_loop all_rx_fields (rx_to_update_ s) w)
    as [mr w1|e mr w1]; cbn [lift state_of] in *.
  - cbn [tx_to_update_ with_rx].
    pose proof (update_loop_handles all_tx_fields (tx_to_update_ s) w1) as Ht.
    exists mr, (state_of (update_loop all_tx_fields (tx_to_update_ s) w1)).
    rewrite state_of_lift. now split_and!.
  - exists mr, (tx_to_update_ s). split_and!; [|exact Hr|reflexivity].
    now destruct s.
Qed.

(** A step that does not request a kind leaves it untracked. *)
Lemma step_untracked_rx c s w r :
  ~ requests_rx r c -> rx_to_update_ s !! r = None ->
  rx_to_update_ (fst (step (s, w) c)) !! r = None.
Proof.
  intros Hreq Hnone. destruct c; simpl in *.
  - now apply set_rx_untracked.
  - unfold set_tx_stats_to_update. now rewrite state_of_lift.
  - destruct (update_all_state s w) as (mr & mt & -> & Hr & _). simpl.
    specialize (Hr r). rewrite Hnone in Hr. now destruct (mr !! r).
  - unfold update_receive_data, update_data. rewrite state_of_lift.
    cbn [rx_to_update_ with_rx]. now apply update_loop_untracked.
  - unfold update_transmit_data. now rewrite state_of_lift.
  - exact Hnone.
Qed.

Lemma step_untracked_tx c s w t :
  ~ requests_tx t c -> tx_to_update_ s !! t = None ->
  tx_to_update_ (fst (step (s, w) c)) !! t = None.
Proof.
  intros Hreq Hnone. destruct c; simpl in *.
  - unfold set_rx_stats_to_update. now rewrite state_of_lift.
  - now apply set_tx_untracked.
  - destruct (update_all_state s w) as (mr & mt & -> & _ & Ht). simpl.
    specialize (Ht t). rewrite Hnone in Ht. now destruct (mt !! t).
  - unfold update_receive_data. now rewrite state_of_lift.
  - unfold update_transmit_data, update_data. rewrite state_of_lift.
    cbn [tx_to_update_ with_tx]. now apply update_loop_untracked.
  - exact Hnone.
Qed.

Lemma lifetime_untracked_rx calls s w r :
  Forall (fun c => ~ requests_rx r c) calls ->
  rx_to_update_ s !! r = None ->
  rx_to_update_ (fst (lifetime calls (s, w))) !! r = None.
Proof.
  revert s w. induction calls as [|c calls IH]; intros s w Hcalls Hnone.
  - exact Hnone.
  - apply Forall_cons in Hcalls as [Hc Hcalls].
    change (lifetime (c :: calls) (s, w))
      with (lifetime calls (step (s, w) c)).
    pose proof (step_untracked_rx c s w r Hc Hnone) as Hs.
    destruct (step (s, w) c) as [s1 w1]. now apply IH.
Qed.

Lemma lifetime_untracked_tx calls s w t :
  Forall (fun c => ~ requests_tx t c) calls ->
  tx_to_update_ s !! t = None ->
  tx_to_update_ (fst (lifetime calls (s, w))) !! t = None.
Proof.
  revert s w. induction calls as [|c calls IH]; intros s w Hcalls Hnone.
  - exact Hnone.
  - apply Forall_cons in Hcalls as [Hc Hcalls].
    change (lifetime (c :: calls) (s, w))
      with (lifetime calls (step (s, w) c)).
    pose proof (step_untracked_tx c s w t Hc Hnone) as Hs.
    destruct (step (s, w) c) as [s1 w1]. now apply IH.
Qed.

Lemma opendir_Some p w dir w' :
  opendir p w = (Some dir, w') -> w' = w /\ dir = p.
Proof.
  unfold opendir. destruct (decide _); [now intros [= <- <-]|].
  destruct (dir_faults w !! p) as [[e|e]|]; try discriminate.
  now intros [= <- <-].
Qed.

Lemma closedir_0 dir w ret w' :
  closedir dir w = (ret, w') -> (ret =? 0) = true -> w' = w.
Proof.
  unfold closedir. destruct (decide _); [now intros [= <- <-]|].
  destruct (dir_faults w !! dir) as [[e|e]|]; intros [= <- <-]; trivial.
  discriminate.
Qed.

Lemma ctor_maps interface w s w' :
  network_stats_ctor interface w = Ok s w' ->
  rx_to_update_ s = ∅ /\ tx_to_update_ s = ∅ /\
  interface_stats_path_ s = (SYSFS_PATH +:+ interface +:+ STATS_DIR)%string.
Proof.
  unfold network_stats_ctor.
  destruct (opendir _ _) as [[dir|] w1]; [|discriminate].
  destruct (closedir dir w1) as [ret w2].
  destruct (negb (ret =? 0)); [discriminate|].
  intros [= <- _]. simpl. now split_and!.
Qed.

Lemma ctor_succeeds interface w :
  (SYSFS_PATH +:+ interface)%string ∈ dirs w ->
  exists s w', network_stats_ctor interface w = Ok s w'.
Proof.
  intros Hdir. unfold network_stats_ctor, opendir.
  match goal with
  | |- context [if ?b then build_fields_to_filename_maps w else w] =>
      set (w1 := if b then build_fields_to_filename_maps w else w)
  end.
  assert (Hd : dirs w1 = dirs w).
  { unfold w1. destruct (_ || _); [|reflexivity].
    unfold build_fields_to_filename_maps, CPRINT. now destruct DEBUG_ON. }
  rewrite decide_True by (now rewrite Hd). unfold closedir.
  rewrite decide_True by (now rewrite Hd). simpl. eauto.
Qed.

(** C6.  A kind that is not tracked reads as 0 in the snapshot and in the
    convenience accessors, and stays so through any number of updates (and
    through any other calls that do not request it, whatever happens to the
    files in between); a constructed monitor tracks nothing, so both its
    snapshots are all zero, and construction succeeds whenever the
    interface directory exists. *)
Theorem untracked_reads_zero :
  (forall calls s w r,
     rx_to_update_ s !! r = None ->
     Forall (fun c => ~ requests_rx r c) calls ->
     let s' := fst (lifetime calls (s, w)) in
     receive_field r (get_receive_data s') = 0 /\
     (r = RX_BYTES -> get_rx_bytes s' = 0) /\
     (r = RX_PACKETS -> get_rx_packets s' = 0)) /\
  (forall calls s w t,
     tx_to_update_ s !! t = None ->
     Forall (fun c => ~ requests_tx t c) calls ->
     let s' := fst (lifetime calls (s, w)) in
     transmit_field t (get_transmit_data s') = 0 /\
     (t = TX_BYTES -> get_tx_bytes s' = 0) /\
     (t = TX_PACKETS -> get_tx_packets s' = 0)) /\
  (forall interface w,
     (SYSFS_PATH +:+ interface)%string ∈ dirs w ->
     exists s w',
       network_stats_ctor interface w = Ok s w' /\
       get_receive_data s = zero_receive_data /\
       get_transmit_data s = zero_transmit_data).
Proof.
  split_and!.
  - intros calls s w r Hnone Hcalls s'.
    pose proof (lifetime_untracked_rx calls s w r Hcalls Hnone) as Hs.
    fold s' in Hs.
    assert (Hz : fetch_one_rx s' r = 0)
      by (unfold fetch_one_rx, fetch_one; now rewrite Hs).
    rewrite receive_field_fetch. split_and!; [exact Hz|..];
      intros ->; exact Hz.
  - intros calls s w t Hnone Hcalls s'.
    pose proof (lifetime_untracked_tx calls s w t Hcalls Hnone) as Hs.
    fold s' in Hs.
    assert (Hz : fetch_one_tx s' t = 0)
      by (unfold fetch_one_tx, fetch_one; now rewrite Hs).
    rewrite transmit_field_fetch. split_and!; [exact Hz|..];
      intros ->; exact Hz.
  - intros interface w Hdir.
    destruct (ctor_succeeds interface w Hdir) as (s & w' & Hctor).
    exists s, w'. split; [exact Hctor|].
    destruct (ctor_maps _ _ _ _ Hctor) as (Hrx & Htx & _).
    unfold get_receive_data, get_transmit_data, fetch_one_rx, fetch_one_tx,
      fetch_one. rewrite Hrx, Htx. now split.
Qed.

(** * Each kind is opened once *)

Lemma times_opened_app p t1 t2 :
  times_opened p (t1 ++ t2) = (times_opened p t1 + times_opened p t2)%nat.
Proof.
  unfold times_opened. now rewrite opened_app, filter_app, length_app.
Qed.

Lemma times_opened_cons p ev t :
  times_opened p (ev :: t) = (times_opened p [ev] + times_opened p t)%nat.
Proof. apply (times_opened_app p [ev] t). Qed.

Lemma opened_trace_lines t : Forall is_trace_line t -> opened t = [].
Proof.
  induction 1 as [|ev t Hev _ IH]; [reflexivity|].
  destruct ev as [| |[]]; simpl in *; try contradiction. exact IH.
Qed.

Lemma times_opened_quiet p t : opened t = [] -> times_opened p t = O.
Proof. unfold times_opened. now intros ->. Qed.

Lemma times_opened_open p q fd :
  times_opened p [EvOpen q fd]
  = if fd =? -1 then O else if decide (q = p) then 1%nat else O.
Proof.
  unfold times_opened. simpl. destruct (fd =? -1); [reflexivity|].
  simpl. rewrite filter_cons. now destruct (decide (q = p)).
Qed.

Lemma open_trace p w :
  rx_fields_to_filename (snd (open p w)) = rx_fields_to_filename w /\
  tx_fields_to_filename (snd (open p w)) = tx_fields_to_filename w /\
  trace (snd (open p w)) = trace w ++ [EvOpen p (fst (open p w))].
Proof.
  unfold open. destruct (files w !! p) as [r|]; [|now split_and!].
  now destruct (open_error r).
Qed.

Lemma append_inj_l (p a b : string) : (p +:+ a = p +:+ b)%string -> a = b.
Proof. induction p as [|c p IH]; simpl; [trivial|]. intros [= Heq]. auto. Qed.

Section subscribe_opens.
Context `{Countable K}.
Variable name : K -> string.
Variable filenames : world -> gmap K string.
Variable set_filenames : gmap K string -> world -> world.
Variables already opening failed : string.
Variable fname : K -> string.
Variable path : string.
Hypothesis filenames_frame :
  forall w w',
    rx_fields_to_filename w' = rx_fields_to_filename w ->
    tx_fields_to_filename w' = tx_fields_to_filename w ->
    filenames w' = filenames w.
Hypothesis set_filenames_id : forall w, set_filenames (filenames w) w = w.
Hypothesis fname_inj : forall j k, fname j = fname k -> j = k.
Implicit Types (todo : list K) (m : gmap K netdata) (w : world).

Local Abbreviation loop :=
  (set_stats_loop name filenames set_filenames already opening failed).

(** The events of a subscribe call: every [open] that returns a
    descriptor is for a requested kind that was not tracked and is tracked
    afterwards. *)
Lemma set_stats_loop_opens todo m w :
  (forall k, filenames w !! k = Some (fname k)) ->
  rx_fields_to_filename (world_of (loop path todo m w))
  = rx_fields_to_filename w /\
  tx_fields_to_filename (world_of (loop path todo m w))
  = tx_fields_to_filename w /\
  exists t,
    trace (world_of (loop path todo m w)) = trace w ++ t /\
    (forall k, (times_opened (path +:+ fname k) t + map_count k m)%nat
               = map_count k (state_of (loop path todo m w))) /\
    (forall p, (forall k, (path +:+ fname k)%string <> p) ->
               times_opened p t = O).
Proof.
  revert m w. induction todo as [|i rest IH]; intros m w Hnames; simpl.
  - split_and!; try reflexivity. exists []. rewrite app_nil_r.
    now split_and!.
  - destruct (CPRINT_extend already [AStr (name i)] w) as (t0 & Hw0 & Ht0).
    destruct (m !! i) as [d|] eqn:Hi;
      [ assert (Hcnt : negb (map_count i m =? 0)%nat = true)
          by (unfold map_count; now rewrite Hi)
      | assert (Hcnt : negb (map_count i m =? 0)%nat = false)
          by (unfold map_count; now rewrite Hi) ];
      rewrite Hcnt.
    + rewrite Hw0. destruct (IH m (extend t0 w)) as (Hr & Ht & t & Htr & Hk & Hp).
      { intros k. rewrite <- (Hnames k). f_equal. now apply filenames_frame. }
      split_and!; [exact Hr|exact Ht|].
      exists (t0 ++ t). rewrite Htr. simpl. rewrite app_assoc.
      split_and!; [reflexivity|..].
      * intros k. rewrite times_opened_app, <- Hk.
        now rewrite (times_opened_quiet _ t0) by now apply opened_trace_lines.
      * intros p Hforeign. rewrite times_opened_app, (Hp p Hforeign).
        now rewrite (times_opened_quiet _ t0) by now apply opened_trace_lines.
    + unfold map_index. rewrite (Hnames i), set_filenames_id.
      destruct (CPRINT_extend opening
                  [AStr (name i); AStr (path +:+ fname i)] w)
        as (t1 & -> & Ht1).
      destruct (open_trace (path +:+ fname i) (extend t1 w))
        as (Hor & Hot & Hotr).
      destruct (open (path +:+ fname i) (extend t1 w)) as [fd w2].
      simpl in Hor, Hot, Hotr.
      destruct (Z.eqb_spec fd (-1)) as [->|Hfd].
      * unfold raise, ERROR, cprint. simpl.
        split_and!; [exact Hor|exact Hot|].
        eexists (t1 ++ [EvOpen (path +:+ fname i) (-1); EvPrint _]).
        rewrite Hotr. rewrite <- !app_assoc.
        assert (Hq : forall msg : message,
                   opened (t1 ++ [EvOpen (path +:+ fname i) (-1);
                                  EvPrint msg]) = []).
        { intros msg. rewrite opened_app.
          now rewrite (opened_trace_lines t1 Ht1). }
        split_and!; [reflexivity|..].
        -- intros k. now rewrite times_opened_quiet by apply Hq.
        -- intros p _. now rewrite times_opened_quiet by apply Hq.
      * destruct (CPRINT_extend "For '%s': got file descriptor as %d\n"
                    [AStr (name i); AInt fd] w2) as (t3 & -> & Ht3).
        destruct (IH (map_insert i (netdata_fd fd) m) (extend t3 w2))
          as (Hr & Ht & t & Htr & Hk & Hp).
        { intros k. rewrite <- (Hnames k). f_equal.
          apply filenames_frame; simpl; congruence. }
        split_and!; [simpl in *; congruence..|].
        exists (t1 ++ [EvOpen (path +:+ fname i) fd] ++ t3 ++ t).
        rewrite Htr. simpl. rewrite Hotr. simpl. rewrite <- !app_assoc.
        assert (Hfd' : (fd =? -1) = false) by now apply Z.eqb_neq.
        split_and!; [reflexivity|..].
        -- intros k. rewrite <- Hk, times_opened_app, times_opened_cons,
             times_opened_app, times_opened_open, Hfd'.
           rewrite (times_opened_quiet _ t1) by now apply opened_trace_lines.
           rewrite (times_opened_quiet _ t3) by now apply opened_trace_lines.
           destruct (decide (k = i)) as [->|Hne].
           ++ rewrite decide_True by reflexivity.
              unfold map_count. rewrite Hi, map_insert_fresh by exact Hi.
              rewrite lookup_insert_eq. lia.
           ++ rewrite decide_False.
              ** unfold map_count.
                 now rewrite map_insert_lookup_ne by exact Hne.
              ** intros Heq. apply append_inj_l, fname_inj in Heq.
                 congruence.
        -- intros p Hforeign.
           rewrite times_opened_app, times_opened_cons, times_opened_app,
             times_opened_open, Hfd', (Hp p Hforeign).
           rewrite (times_opened_quiet _ t1) by now apply opened_trace_lines.
           rewrite (times_opened_quiet _ t3) by now apply opened_trace_lines.
           now rewrite decide_False by apply Hforeign.
Qed.
End subscribe_opens.

Lemma rx_file_eq r :
  rx_file r
  = match r with
    | RX_BYTES => "rx_bytes" | RX_COMPRESSED => "rx_compressed"
    | RX_CRC_ERRORS => "rx_crc_errors" | RX_DROPPED => "rx_dropped"
    | RX_ERRORS => "rx_errors" | RX_FIFO_ERRORS => "rx_fifo_errors"
    | RX_FRAME_ERRORS => "rx_frame_errors"
    | RX_LENGTH_ERRORS => "rx_length_errors"
    | RX_MISSED_ERRORS => "rx_missed_errors"
    | RX_OVER_ERRORS => "rx_over_errors" | RX_PACKETS => "rx_packets"
    end%string.
Proof. destruct r; vm_compute; reflexivity. Qed.

Lemma tx_file_eq t :
  tx_file t
  = match t with
    | TX_ABORTED_ERRORS => "tx_aborted_errors" | TX_BYTES => "tx_bytes"
    | TX_CARRIER_ERRORS => "tx_carrier_errors"
    | TX_COMPRESSED => "tx_compressed" | TX_DROPPED => "tx_dropped"
    | TX_ERRORS => "tx_errors" | TX_FIFO_ERRORS => "tx_fifo_errors"
    | TX_HEARTBEAT_ERRORS => "tx_heartbeat_errors"
    | TX_PACKETS => "tx_packets" | TX_WINDOW_ERRORS => "tx_window_errors"
    end%string.
Proof. destruct t; vm_compute; reflexivity. Qed.

Lemma rx_file_inj j k : rx_file j = rx_file k -> j = k.
Proof. rewrite !rx_file_eq. destruct j, k; congruence. Qed.

Lemma tx_file_inj j k : tx_file j = tx_file k -> j = k.
Proof. rewrite !tx_file_eq. destruct j, k; congruence. Qed.

Lemma rx_tx_file_ne r t : rx_file r <> tx_file t.
Proof. rewrite rx_file_eq, tx_file_eq. destruct r, t; discriminate. Qed.

Lemma built_rx_lookup w r :
  filenames_built w -> rx_fields_to_filename w !! r = Some (rx_file r).
Proof. intros [-> _]. destruct r; vm_compute; reflexivity. Qed.

Lemma built_tx_lookup w t :
  filenames_built w -> tx_fields_to_filename w !! t = Some (tx_file t).
Proof. intros [_ ->]. destruct t; vm_compute; reflexivity. Qed.

Lemma filenames_built_frame w w' :
  rx_fields_to_filename w' = rx_fields_to_filename w ->
  tx_fields_to_filename w' = tx_fields_to_filename w ->
  filenames_built w -> filenames_built w'.
Proof. unfold filenames_built. intros -> ->. trivial. Qed.

Lemma set_rx_filenames_id w : set_rx_filenames (rx_fields_to_filename w) w = w.
Proof. now destruct w. Qed.

Lemma set_tx_filenames_id w : set_tx_filenames (tx_fields_to_filename w) w = w.
Proof. now destruct w. Qed.

Lemma with_rx_id s : with_rx s (rx_to_update_ s) = s.
Proof. now destruct s. Qed.

Lemma with_tx_id s : with_tx s (tx_to_update_ s) = s.
Proof. now destruct s. Qed.

Lemma quiet_update_all s w : quiet w (world_of (update_all s w)).
Proof.
  unfold update_all, update_receive_data, update_transmit_data, update_data.
  pose proof (quiet_update_loop all_rx_fields (rx_to_update_ s) w) as Hr.
  destruct (update_loop all_rx_fields (rx_to_update_ s) w)
    as [mr w1|e mr w1]; cbn [lift world_of] in *; [|exact Hr].
  rewrite world_of_lift. cbn [tx_to_update_ with_rx].
  eapply quiet_trans; [exact Hr|apply quiet_update_loop].
Qed.

Lemma map_count_handles `{Countable K} (m m' : gmap K netdata) j :
  fd <$> m' !! j = fd <$> m !! j -> map_count j m' = map_count j m.
Proof.
  unfold map_count. destruct (m' !! j), (m !! j); simpl; congruence.
Qed.

(** Calls that open nothing keep the invariant. *)
Lemma opened_once_quiet path0 t0 s w s' w' :
  opened_once path0 t0 (s, w) ->
  quiet w w' ->
  interface_stats_path_ s' = interface_stats_path_ s ->
  (forall r, map_count r (rx_to_update_ s') = map_count r (rx_to_update_ s)) ->
  (forall x, map_count x (tx_to_update_ s') = map_count x (tx_to_update_ s)) ->
  opened_once path0 t0 (s', w').
Proof.
  intros (Hpath & Hbuilt & t & Htr & Hrx & Htx)
         (Hsr & Hst & t' & Htr' & Hop & _) Hp Hcr Hct.
  unfold opened_once; simpl in *. split_and!.
  - congruence.
  - eapply filenames_built_frame; eassumption.
  - exists (t ++ t'). rewrite Htr', Htr, app_assoc. split_and!;
      [reflexivity|..]; intros k; rewrite times_opened_app,
      (times_opened_quiet _ t' Hop), Nat.add_0_r; [rewrite Hcr|rewrite Hct];
      auto.
Qed.

Lemma step_opened_once path0 t0 s w c :
  opened_once path0 t0 (s, w) -> opened_once path0 t0 (step (s, w) c).
Proof.
  intros Hinv.
  pose proof Hinv as (Hpath & Hbuilt & t & Htr & Hrx & Htx).
  simpl in Hpath, Hbuilt, Htr, Hrx, Htx.
  destruct c as [u|u| | | |fs e junk]; cbn [step]; unfold after.
  - unfold set_rx_stats_to_update, set_stats_to_update.
    rewrite state_of_lift, world_of_lift.
    destruct (set_stats_loop_opens rx_name rx_fields_to_filename
                set_rx_filenames
                "For '%s': already monitoring -- ignoring request\n"
                "For '%s': opening stats file @ '%s'\n"
                "For '%s': opening stats file '%s'"
                rx_file (interface_stats_path_ s)
                (fun w w' Hr _ => Hr) set_rx_filenames_id rx_file_inj
                (set_elements all_rx_fields u) (rx_to_update_ s) w
                (fun k => built_rx_lookup w k Hbuilt))
      as (Hsr & Hst & t' & Htr' & Hk & Hp).
    unfold opened_once; simpl. split_and!; [exact Hpath| |].
    + eapply filenames_built_frame; eassumption.
    + exists (t ++ t'). rewrite Htr', Htr, app_assoc.
      split_and!; [reflexivity|..].
      * intros r. rewrite times_opened_app, Hrx, <- Hk, Hpath. lia.
      * intros x. rewrite times_opened_app, Htx, Hp; [lia|].
        intros k Heq. rewrite Hpath in Heq.
        apply append_inj_l in Heq. now apply rx_tx_file_ne in Heq.
  - unfold set_tx_stats_to_update, set_stats_to_update.
    rewrite state_of_lift, world_of_lift.
    destruct (set_stats_loop_opens tx_name tx_fields_to_filename
                set_tx_filenames
                "For '%s': already monitoring -- ignoring request\n"
                "For %s: opening stats file @ '%s'\n"
                "For %s: Opening stats file '%s'"
                tx_file (interface_stats_path_ s)
                (fun w w' _ Ht => Ht) set_tx_filenames_id tx_file_inj
                (set_elements all_tx_fields u) (tx_to_update_ s) w
                (fun k => built_tx_lookup w k Hbuilt))
      as (Hsr & Hst & t' & Htr' & Hk & Hp).
    unfold opened_once; simpl. split_and!; [exact Hpath| |].
    + eapply filenames_built_frame; eassumption.
    + exists (t ++ t'). rewrite Htr', Htr, app_assoc.
      split_and!; [reflexivity|..].
      * intros r. rewrite times_opened_app, Hrx, Hp; [lia|].
        intros k Heq. rewrite Hpath in Heq.
        apply append_inj_l in Heq. symmetry in Heq.
        now apply rx_tx_file_ne in Heq.
      * intros x. rewrite times_opened_app, Htx, <- Hk, Hpath. lia.
  - destruct (update_all_state s w) as (mr & mt & Hs & Hr & Ht).
    eapply opened_once_quiet; [exact Hinv|apply quiet_update_all|..];
      rewrite Hs; [reflexivity|..]; intros k; apply map_count_handles;
      [apply Hr|apply Ht].
  - unfold update_receive_data, update_data.
    rewrite state_of_lift, world_of_lift.
    eapply opened_once_quiet; [exact Hinv|apply quiet_update_loop|..];
      [reflexivity| |reflexivity].
    intros k. apply map_count_handles, update_loop_handles.
  - unfold update_transmit_data, update_data.
    rewrite state_of_lift, world_of_lift.
    eapply opened_once_quiet; [exact Hinv|apply quiet_update_loop|..];
      [reflexivity|reflexivity|].
    intros k. apply map_count_handles, update_loop_handles.
  - eapply opened_once_quiet; [exact Hinv| |reflexivity..].
    split_and!; try reflexivity. exists []. simpl. now rewrite app_nil_r.
Qed.

Lemma lifetime_opened_once path0 t0 calls sw :
  opened_once path0 t0 sw -> opened_once path0 t0 (lifetime calls sw).
Proof.
  revert sw. induction calls as [|c calls IH]; intros [s w] Hinv.
  - exact Hinv.
  - change (lifetime (c :: calls) (s, w))
      with (lifetime calls (step (s, w) c)).
    apply IH. now apply step_opened_once.
Qed.

Lemma ctor_built interface w s w' :
  filenames_sound w ->
  network_stats_ctor interface w = Ok s w' ->
  filenames_built w'.
Proof.
  intros Hsound. unfold network_stats_ctor.
  match goal with
  | |- context [if ?b then build_fields_to_filename_maps w else w] =>
      set (w1 := if b then build_fields_to_filename_maps w else w)
  end.
  assert (Hb : filenames_built w1).
  { unfold w1. destruct Hsound as [[Hrx Htx]|Hbuilt].
    - unfold map_empty. rewrite Hrx, Htx.
      rewrite bool_decide_eq_true_2 by reflexivity. simpl.
      unfold build_fields_to_filename_maps, filenames_built, CPRINT, cprint.
      simpl. now rewrite Hrx, Htx.
    - destruct Hbuilt as [Hrx Htx]. unfold map_empty. rewrite Hrx, Htx.
      rewrite !bool_decide_eq_false_2 by (vm_compute; discriminate).
      simpl. now split. }
  clearbody w1.
  destruct (opendir _ w1) as [[dir|] w2] eqn:Hopen; [|discriminate].
  apply opendir_Some in Hopen as [-> _].
  destruct (closedir dir w1) as [ret w3] eqn:Hclose.
  destruct (ret =? 0) eqn:Hret; [|discriminate].
  apply closedir_0 in Hclose as ->; [|exact Hret]. simpl.
  intros [= _ <-]. unfold CPRINT. destruct DEBUG_ON; exact Hb.
Qed.

(** C7.  Subscribing is idempotent.  (1) A kind that is tracked keeps its
    one element, descriptor and value included, through any subscribe call,
    whatever else is requested and whether or not the call throws.  (2) A
    call that requests only tracked kinds returns normally, leaves the
    object as it is and changes the world by trace lines only: it calls
    [open] not at all and reports no error.  (3) Over the lifetime of a
    constructed monitor, whatever the calls and the failures, the
    statistics file of a kind has been opened once if the kind is tracked
    and never otherwise. *)
Theorem subscribe_idempotent :
  ((forall u s w r i,
      rx_to_update_ s !! r = Some i ->
      let s' := state_of (set_rx_stats_to_update u s w) in
      rx_to_update_ s' !! r = Some i /\ map_count r (rx_to_update_ s') = 1%nat) /\
   (forall u s w t i,
      tx_to_update_ s !! t = Some i ->
      let s' := state_of (set_tx_stats_to_update u s w) in
      tx_to_update_ s' !! t = Some i /\ map_count t (tx_to_update_ s') = 1%nat)) /\
  ((forall u s w,
      (forall r, r ∈ u -> is_Some (rx_to_update_ s !! r)) ->
      exists t, set_rx_stats_to_update u s w = Done s (extend t w) /\
                Forall is_trace_line t) /\
   (forall u s w,
      (forall t, t ∈ u -> is_Some (tx_to_update_ s !! t)) ->
      exists t, set_tx_stats_to_update u s w = Done s (extend t w) /\
                Forall is_trace_line t)) /\
  (forall interface w0 s w1 calls,
     filenames_sound w0 ->
     network_stats_ctor interface w0 = Ok s w1 ->
     let s' := fst (lifetime calls (s, w1)) in
     let w' := snd (lifetime calls (s, w1)) in
     exists t,
       trace w' = trace w1 ++ t /\
       (forall r, times_opened (rx_path s r) t
                  = map_count r (rx_to_update_ s') /\
                  (times_opened (rx_path s r) t <= 1)%nat) /\
       (forall x, times_opened (tx_path s x) t
                  = map_count x (tx_to_update_ s') /\
                  (times_opened (tx_path s x) t <= 1)%nat)).
Proof.
  split_and!.
  - intros u s w r i Hr s'. subst s'.
    unfold set_rx_stats_to_update, set_stats_to_update.
    rewrite state_of_lift. cbn [rx_to_update_ with_rx].
    unfold map_count. now erewrite set_stats_loop_kept by exact Hr.
  - intros u s w t i Ht s'. subst s'.
    unfold set_tx_stats_to_update, set_stats_to_update.
    rewrite state_of_lift. cbn [tx_to_update_ with_tx].
    unfold map_count. now erewrite set_stats_loop_kept by exact Ht.
  - intros u s w Hall.
    unfold set_rx_stats_to_update, set_stats_to_update.
    destruct (set_stats_loop_all_tracked rx_name rx_fields_to_filename
                set_rx_filenames
                "For '%s': already monitoring -- ignoring request\n"
                "For '%s': opening stats file @ '%s'\n"
                "For '%s': opening stats file '%s'"
                (interface_stats_path_ s) (set_elements all_rx_fields u)
                (rx_to_update_ s) w) as (t & Hrun & Ht).
    { intros k Hk. apply Hall. eapply set_elements_subset, Hk. }
    exists t. rewrite Hrun. cbn [lift]. now rewrite with_rx_id.
  - intros u s w Hall.
    unfold set_tx_stats_to_update, set_stats_to_update.
    destruct (set_stats_loop_all_tracked tx_name tx_fields_to_filename
                set_tx_filenames
                "For '%s': already monitoring -- ignoring request\n"
                "For %s: opening stats file @ '%s'\n"
                "For %s: Opening stats file '%s'"
                (interface_stats_path_ s) (set_elements all_tx_fields u)
                (tx_to_update_ s) w) as (t & Hrun & Ht).
    { intros k Hk. apply Hall. eapply set_elements_subset, Hk. }
    exists t. rewrite Hrun. cbn [lift]. now rewrite with_tx_id.
  - intros interface w0 s w1 calls Hsound Hctor s' w'.
    destruct (ctor_maps _ _ _ _ Hctor) as (Hrx & Htx & _).
    assert (Hinv : opened_once (interface_stats_path_ s) (trace w1) (s, w1)).
    { unfold opened_once. simpl. split_and!; [reflexivity| |].
      - eapply ctor_built; eassumption.
      - exists []. rewrite app_nil_r, Hrx, Htx. now split_and!. }
    apply (lifetime_opened_once _ _ calls) in Hinv.
    destruct Hinv as (_ & _ & t & Htr & Hr & Ht).
    exists t. split; [exact Htr|]. fold s' in Hr, Ht.
    split; intros k.
    + unfold rx_path. rewrite Hr. split; [reflexivity|]. unfold map_count.
      destruct (rx_to_update_ s' !! k); lia.
    + unfold tx_path. rewrite Ht. split; [reflexivity|]. unfold map_count.
      destruct (tx_to_update_ s' !! k); lia.
Qed.

(** * Every opened descriptor is closed *)

Lemma returned_app t1 t2 : returned (t1 ++ t2) = returned t1 ++ returned t2.
Proof. unfold returned. apply omap_app. Qed.

Lemma returned_trace_lines t : Forall is_trace_line t -> returned t = [].
Proof.
  induction 1 as [|ev t Hev _ IH]; [reflexivity|].
  destruct ev as [| |[]]; simpl in *; try contradiction. exact IH.
Qed.

Lemma returned_no_open_calls t : open_calls t = O -> returned t = [].
Proof.
  induction t as [|ev t IH]; [reflexivity|].
  destruct ev; unfold open_calls in *; simpl; try discriminate; exact IH.
Qed.

Section handles_facts.
Context `{Countable K}.
Implicit Types (all : list K) (m : gmap K netdata).

Lemma handles_cons k all m :
  handles (k :: all) m
  = match m !! k with
    | Some d => fd d :: handles all m
    | None => handles all m
    end.
Proof. unfold handles. csimpl. now destruct (m !! k). Qed.

Lemma handles_ext all m m' :
  (forall j, fd <$> m' !! j = fd <$> m !! j) -> handles all m' = handles all m.
Proof.
  intros Hext. induction all as [|k rest IH]; [reflexivity|].
  rewrite !handles_cons, IH. specialize (Hext k).
  destruct (m' !! k), (m !! k); simpl in Hext; congruence.
Qed.

Lemma handles_insert_notin all m i d :
  i ∉ all -> handles all (<[i := d]> m) = handles all m.
Proof.
  intros Hi. induction all as [|k rest IH]; [reflexivity|].
  apply not_elem_of_cons in Hi as [Hne Hi].
  rewrite !handles_cons, lookup_insert_ne by congruence. now rewrite IH.
Qed.

(** Inserting a new element adds its descriptor to the descriptors held. *)
Lemma handles_insert all m i d :
  NoDup all -> i ∈ all -> m !! i = None ->
  handles all (<[i := d]> m) ≡ₚ fd d :: handles all m.
Proof.
  intros Hnd Hin Hi. induction all as [|k rest IH]; [now apply elem_of_nil in Hin|].
  apply NoDup_cons in Hnd as [Hk Hnd]. rewrite !handles_cons.
  destruct (decide (k = i)) as [->|Hne].
  - rewrite lookup_insert_eq, Hi.
    now rewrite handles_insert_notin by exact Hk.
  - rewrite lookup_insert_ne by congruence.
    apply elem_of_cons in Hin as [?|Hin]; [congruence|].
    destruct (m !! k) as [dk|].
    + rewrite (IH Hnd Hin). apply Permutation_swap.
    + now apply IH.
Qed.
End handles_facts.

Section subscribe_returned.
Context `{Countable K}.
Variable all : list K.
Variable name : K -> string.
Variable filenames : world -> gmap K string.
Variable set_filenames : gmap K string -> world -> world.
Variables already opening failed : string.
Hypothesis all_NoDup : NoDup all.
Hypothesis set_filenames_trace :
  forall names w, trace (set_filenames names w) = trace w.
Implicit Types (todo : list K) (m : gmap K netdata) (w : world).

Local Abbreviation loop :=
  (set_stats_loop name filenames set_filenames already opening failed).

(** A subscribe call adds to the map exactly the descriptors that its
    [open] calls return. *)
Lemma set_stats_loop_returned path todo m w :
  (forall k, k ∈ todo -> k ∈ all) ->
  exists t,
    trace (world_of (loop path todo m w)) = trace w ++ t /\
    handles all (state_of (loop path todo m w)) ≡ₚ handles all m ++ returned t.
Proof.
  revert m w. induction todo as [|i rest IH]; intros m w Hall; simpl.
  - exists []. now rewrite !app_nil_r.
  - assert (Hrest : forall k, k ∈ rest -> k ∈ all)
      by (intros k Hk; apply Hall; now apply list_elem_of_further).
    destruct (m !! i) as [d|] eqn:Hi;
      [ assert (Hcnt : negb (map_count i m =? 0)%nat = true)
          by (unfold map_count; now rewrite Hi)
      | assert (Hcnt : negb (map_count i m =? 0)%nat = false)
          by (unfold map_count; now rewrite Hi) ];
      rewrite Hcnt.
    + destruct (CPRINT_extend already [AStr (name i)] w) as (t0 & -> & Ht0).
      destruct (IH m (extend t0 w) Hrest) as (t & Htr & Hperm).
      exists (t0 ++ t). rewrite Htr. simpl. rewrite app_assoc.
      split; [reflexivity|].
      now rewrite returned_app, (returned_trace_lines t0 Ht0).
    + destruct (map_index i (filenames w)) as [file names].
      pose proof (set_filenames_trace names w) as Hset.
      destruct (CPRINT_extend opening [AStr (name i); AStr (path +:+ file)]
                  (set_filenames names w)) as (t1 & -> & Ht1).
      destruct (open_trace (path +:+ file) (extend t1 (set_filenames names w)))
        as (_ & _ & Hotr).
      destruct (open (path +:+ file) (extend t1 (set_filenames names w)))
        as [fd w2]. simpl in Hotr. rewrite Hset in Hotr.
      destruct (Z.eqb_spec fd (-1)) as [->|Hfd].
      * unfold raise, ERROR, cprint. simpl.
        eexists (t1 ++ [EvOpen (path +:+ file) (-1); EvPrint _]).
        rewrite Hotr, <- !app_assoc. split; [reflexivity|].
        rewrite returned_app, (returned_trace_lines t1 Ht1). simpl.
        now rewrite app_nil_r.
      * destruct (CPRINT_extend "For '%s': got file descriptor as %d\n"
                    [AStr (name i); AInt fd] w2) as (t3 & -> & Ht3).
        destruct (IH (map_insert i (netdata_fd fd) m) (extend t3 w2) Hrest)
          as (t & Htr & Hperm).
        exists (t1 ++ [EvOpen (path +:+ file) fd] ++ t3 ++ t).
        rewrite Htr. simpl. rewrite Hotr, <- !app_assoc.
        split; [reflexivity|].
        rewrite Hperm, map_insert_fresh by exact Hi.
        rewrite handles_insert;
          [|exact all_NoDup|apply Hall, list_elem_of_here|exact Hi].
        rewrite returned_app, (returned_trace_lines t1 Ht1).
        change (EvOpen (path +:+ file) fd :: t3 ++ t)
          with ([EvOpen (path +:+ file) fd] ++ t3 ++ t).
        rewrite !returned_app, (returned_trace_lines t3 Ht3). simpl.
        assert (Hfd' : (fd =? -1) = false) by now apply Z.eqb_neq.
        rewrite Hfd'. simpl. apply Permutation_middle.
Qed.
End subscribe_returned.

Lemma set_elements_all `{Countable K} (all : list K) (s : gset K) k :
  k ∈ set_elements all s -> k ∈ all.
Proof. unfold set_elements. rewrite list_elem_of_filter. tauto. Qed.

(** Calls that open nothing keep the descriptors held. *)
Lemma holds_returned_quiet t0 s w s' w' :
  holds_returned t0 (s, w) ->
  quiet w w' ->
  (forall j, fd <$> rx_to_update_ s' !! j = fd <$> rx_to_update_ s !! j) ->
  (forall j, fd <$> tx_to_update_ s' !! j = fd <$> tx_to_update_ s !! j) ->
  holds_returned t0 (s', w').
Proof.
  intros (t & Htr & Hperm) (_ & _ & t' & Htr' & _ & Hcalls) Hrx Htx.
  exists (t ++ t'). cbn [fst snd] in *. rewrite Htr', Htr, app_assoc.
  split; [reflexivity|].
  rewrite returned_app, (returned_no_open_calls t' Hcalls), app_nil_r.
  now rewrite (handles_ext _ _ _ Hrx), (handles_ext _ _ _ Htx).
Qed.

Lemma step_holds_returned t0 s w c :
  holds_returned t0 (s, w) -> holds_returned t0 (step (s, w) c).
Proof.
  intros Hinv. pose proof Hinv as (t & Htr & Hperm).
  cbn [fst snd] in Htr, Hperm.
  destruct c as [u|u| | | |fs e junk]; cbn [step]; unfold after.
  - unfold set_rx_stats_to_update, set_stats_to_update.
    rewrite state_of_lift, world_of_lift.
    destruct (set_stats_loop_returned all_rx_fields rx_name
                rx_fields_to_filename set_rx_filenames
                "For '%s': already monitoring -- ignoring request\n"
                "For '%s': opening stats file @ '%s'\n"
                "For '%s': opening stats file '%s'"
                all_rx_fields_NoDup (fun names w => eq_refl)
                (interface_stats_path_ s) (set_elements all_rx_fields u)
                (rx_to_update_ s) w (set_elements_all all_rx_fields u))
      as (t' & Htr' & Hperm').
    exists (t ++ t'). cbn [fst snd rx_to_update_ tx_to_update_ with_rx].
    rewrite Htr', Htr, app_assoc.
    split; [reflexivity|].
    rewrite returned_app, <- Hperm, Hperm'.
    rewrite <- !app_assoc. apply Permutation_app_head, Permutation_app_comm.
  - unfold set_tx_stats_to_update, set_stats_to_update.
    rewrite state_of_lift, world_of_lift.
    destruct (set_stats_loop_returned all_tx_fields tx_name
                tx_fields_to_filename set_tx_filenames
                "For '%s': already monitoring -- ignoring request\n"
                "For %s: opening stats file @ '%s'\n"
                "For %s: Opening stats file '%s'"
                all_tx_fields_NoDup (fun names w => eq_refl)
                (interface_stats_path_ s) (set_elements all_tx_fields u)
                (tx_to_update_ s) w (set_elements_all all_tx_fields u))
      as (t' & Htr' & Hperm').
    exists (t ++ t'). cbn [fst snd rx_to_update_ tx_to_update_ with_tx].
    rewrite Htr', Htr, app_assoc.
    split; [reflexivity|].
    now rewrite returned_app, <- Hperm, Hperm', app_assoc.
  - destruct (update_all_state s w) as (mr & mt & Hs & Hr & Ht).
    eapply holds_returned_quiet; [exact Hinv|apply quiet_update_all|..];
      rewrite Hs; assumption.
  - unfold update_receive_data, update_data.
    rewrite state_of_lift, world_of_lift.
    eapply holds_returned_quiet; [exact Hinv|apply quiet_update_loop|..];
      [|reflexivity].
    intros j. apply update_loop_handles.
  - unfold update_transmit_data, update_data.
    rewrite state_of_lift, world_of_lift.
    eapply holds_returned_quiet; [exact Hinv|apply quiet_update_loop|..];
      [reflexivity|].
    intros j. apply update_loop_handles.
  - eapply holds_returned_quiet; [exact Hinv| |reflexivity..].
    split_and!; try reflexivity. exists []. simpl. now rewrite app_nil_r.
Qed.

Lemma lifetime_holds_returned t0 calls sw :
  holds_returned t0 sw -> holds_returned t0 (lifetime calls sw).
Proof.
  revert sw. induction calls as [|c calls IH]; intros [s w] Hinv.
  - exact Hinv.
  - change (lifetime (c :: calls) (s, w))
      with (lifetime calls (step (s, w) c)).
    apply IH. now apply step_holds_returned.
Qed.

(** C8 (amended).  The destructor calls [close] once on the descriptor of
    every tracked counter, receive kinds first, each in ascending order,
    whatever the individual calls return: a failing [close] stops nothing.
    The result of [close] is discarded, so a failure is neither thrown (the
    destructor always returns) nor reported: the destructor prints no
    failure message at all.  At the end of any lifetime of a constructed
    monitor these descriptors are, up to order, the descriptors that [open]
    returned during the lifetime. *)
Theorem dtor_closes_every_handle :
  (forall s w,
     closed (trace (network_stats_dtor s w))
     = closed (trace w)
       ++ handles all_rx_fields (rx_to_update_ s)
       ++ handles all_tx_fields (tx_to_update_ s) /\
     failure_reports (trace (network_stats_dtor s w))
     = failure_reports (trace w)) /\
  (forall interface w0 s w1 calls,
     network_stats_ctor interface w0 = Ok s w1 ->
     let s' := fst (lifetime calls (s, w1)) in
     let w' := snd (lifetime calls (s, w1)) in
     exists t hs,
       trace w' = trace w1 ++ t /\
       hs ≡ₚ returned t /\
       closed (trace (network_stats_dtor s' w')) = closed (trace w') ++ hs).
Proof.
  assert (Hdtor : forall s w,
     closed (trace (network_stats_dtor s w))
     = closed (trace w)
       ++ handles all_rx_fields (rx_to_update_ s)
       ++ handles all_tx_fields (tx_to_update_ s) /\
     failure_reports (trace (network_stats_dtor s w))
     = failure_reports (trace w)).
  { intros s w. unfold network_stats_dtor.
    destruct (close_loop_trace all_tx_fields (tx_to_update_ s)
                (close_loop all_rx_fields (rx_to_update_ s)
                   (CPRINT "Shutting down\n" [] w))) as [Hc Hf].
    destruct (close_loop_trace all_rx_fields (rx_to_update_ s)
                (CPRINT "Shutting down\n" [] w)) as [Hc' Hf'].
    rewrite Hc, Hf, Hc', Hf'. unfold CPRINT, cprint. simpl.
    rewrite closed_app, failure_reports_app. simpl.
    rewrite !app_nil_r, app_assoc. now split. }
  split; [exact Hdtor|].
  intros interface w0 s w1 calls Hctor s' w'.
  destruct (ctor_maps _ _ _ _ Hctor) as (Hrx & Htx & _).
  assert (Hinv : holds_returned (trace w1) (s, w1)).
  { exists []. cbn [fst snd]. now rewrite app_nil_r, Hrx, Htx. }
  apply (lifetime_holds_returned _ calls) in Hinv.
  destruct Hinv as (t & Htr & Hperm). fold s' w' in Htr, Hperm.
  exists t, (handles all_rx_fields (rx_to_update_ s')
             ++ handles all_tx_fields (tx_to_update_ s')).
  split_and!; [exact Htr|exact Hperm|]. apply Hdtor.
Qed.

(** * Instances and counterexamples *)

(** The receive-bytes counter of the example reads 12345. *)
Lemma update_all_reads_12345_witness :
  update_one 3 (snd demo) = Ok 12345 (snd demo) /\
  rx_to_update_ (state_of (update_all (fst demo) (snd demo))) !! RX_BYTES
  = Some {| value := 12345; fd := 3 |} /\
  receive_field RX_BYTES
    (get_receive_data (state_of (update_all (fst demo) (snd demo)))) = 12345 /\
  (others_read_rx (fst demo) RX_BYTES (snd demo) = true ->
   exists s', update_all (fst demo) (snd demo) = Done s' (snd demo)).
Proof.
  refine (proj1 (update_all_reads_12345 (fst demo) (snd demo) _)
            [] RX_BYTES (tail all_rx_fields) (netdata_fd 3)
            (Text ("12345" +:+ newline)) _ _ _ _).
  - left. vm_compute. reflexivity.
  - reflexivity.
  - vm_compute. reflexivity.
  - eexists. split_and!; vm_compute; reflexivity.
  - reflexivity.
Defined.

(** The receive-packets counter of the example, the last receive kind
    visited, reads 7. *)
Lemma update_all_stores_long_range_witness :
  update_one 4 (snd demo) = Ok 7 (snd demo) /\
  rx_to_update_ (state_of (update_all (fst demo) (snd demo))) !! RX_PACKETS
  = Some {| value := 7; fd := 4 |} /\
  receive_field RX_PACKETS
    (get_receive_data (state_of (update_all (fst demo) (snd demo)))) = 7 /\
  (others_read_rx (fst demo) RX_PACKETS (snd demo) = true ->
   exists s', update_all (fst demo) (snd demo) = Done s' (snd demo)).
Proof.
  refine (proj1 (update_all_stores_long_range (fst demo) (snd demo)
                   7%N "" _ _ _ _)
            (removelast all_rx_fields) RX_PACKETS [] (netdata_fd 4) _ _ _ _).
  - left. vm_compute. reflexivity.
  - exact I.
  - vm_compute. lia.
  - vm_compute. split; discriminate.
  - reflexivity.
  - vm_compute. reflexivity.
  - eexists. split; vm_compute; reflexivity.
  - vm_compute. reflexivity.
Defined.

(** A receive-bytes file holding -5 reads as [2^64 - 5]. *)
Lemma update_all_negative_wraps_witness :
  let sw := demo_with (Text ("-5" +:+ newline)) in
  update_one 3 (snd sw) = Ok (2 ^ 64 - 5) (snd sw) /\
  rx_to_update_ (state_of (update_all (fst sw) (snd sw))) !! RX_BYTES
  = Some {| value := 2 ^ 64 - 5; fd := 3 |} /\
  receive_field RX_BYTES
    (get_receive_data (state_of (update_all (fst sw) (snd sw))))
  = 2 ^ 64 - 5 /\
  (others_read_rx (fst sw) RX_BYTES (snd sw) = true ->
   exists s', update_all (fst sw) (snd sw) = Done s' (snd sw)).
Proof.
  intros sw.
  refine (proj1 (proj1 (update_all_negative_wraps (fst sw) (snd sw) 5%N
                          newline _ _ _) _ _)
            [] RX_BYTES (tail all_rx_fields) (netdata_fd 3) _ _ _ _).
  - reflexivity.
  - vm_compute. lia.
  - reflexivity.
  - vm_compute. discriminate.
  - left. vm_compute. reflexivity.
  - reflexivity.
  - vm_compute. reflexivity.
  - eexists. split; vm_compute; reflexivity.
  - reflexivity.
Defined.

(** A receive-bytes file holding twenty nines is rejected through
    [ERROR]. *)
Lemma conversion_error_raises_ERROR_witness :
  let sw := demo_with (Text "99999999999999999999") in
  rejects_rx (fun e => via_ERROR e /\ ~ via_RUNTIME e) (fst sw) (snd sw)
    RX_BYTES (netdata_fd 3).
Proof.
  intros sw.
  refine (proj1 (conversion_error_raises_ERROR (fst sw) (snd sw)
                   "99999999999999999999" _ _)
            RX_BYTES (netdata_fd 3) _ _).
  - vm_compute. lia.
  - intros [Hc|Hc]; vm_compute in Hc; discriminate.
  - vm_compute. reflexivity.
  - eexists. split; vm_compute; reflexivity.
Defined.


(** In the example the terminator of the receive-bytes text is written at
    index 6. *)
Lemma terminator_write_in_bounds_witness :
  let rbuf := blit (list_ascii_of_string ("12345" +:+ newline))
                (uninitialised READ_SIZE (snd demo)) in
  0 < 6 < READ_SIZE /\
  length rbuf = Z.to_nat READ_SIZE /\
  poke rbuf 6 NUL !! Z.to_nat 6 = Some NUL.
Proof.
  intros rbuf.
  refine (proj1 (terminator_write_in_bounds 3 (snd demo)) 6 rbuf (snd demo) _).
  vm_compute. reflexivity.
Defined.

(** An update that fails at the receive-packets counter. *)
Lemma update_all_abort_point_witness :
  let sw := lo_monitor (boot (lo_files (Text ("5" +:+ newline))
                                (unreadable EIO) (Text "9")) 0 false) in
  let o := update_all (fst sw) (snd sw) in
  interface_name_ (state_of o) = interface_name_ (fst sw) /\
  interface_stats_path_ (state_of o) = interface_stats_path_ (fst sw) /\
  (forall j, fd <$> rx_to_update_ (state_of o) !! j
             = fd <$> rx_to_update_ (fst sw) !! j) /\
  (forall j, fd <$> tx_to_update_ (state_of o) !! j
             = fd <$> tx_to_update_ (fst sw) !! j).
Proof.
  intros sw o.
  refine (proj1 (update_all_abort_point (fst sw) (snd sw)
                   (default (runtime_error (Trace "" [])) (raised o))
                   (state_of o) (world_of o) _)).
  vm_compute. reflexivity.
Defined.

(** In the example the receive-errors counter is not tracked and reads 0
    after two updates. *)
Lemma untracked_reads_zero_witness :
  receive_field RX_ERRORS
    (get_receive_data
       (fst (lifetime [call_update_all; call_update_all]
               (fst demo, snd demo)))) = 0.
Proof.
  refine (proj1 (proj1 untracked_reads_zero
                   [call_update_all; call_update_all] (fst demo) (snd demo)
                   RX_ERRORS _ _)).
  - vm_compute. reflexivity.
  - repeat constructor; simpl; tauto.
Defined.

(** In the example a second request for receive bytes changes nothing. *)
Lemma subscribe_idempotent_witness :
  exists t,
    set_rx_stats_to_update {[ RX_BYTES ]} (fst demo) (snd demo)
    = Done (fst demo) (extend t (snd demo)) /\
    Forall is_trace_line t.
Proof.
  refine (proj1 (proj1 (proj2 subscribe_idempotent))
            {[ RX_BYTES ]} (fst demo) (snd demo) _).
  intros r Hr. apply elem_of_singleton in Hr. subst r.
  exists (netdata_fd 3). vm_compute. reflexivity.
Defined.

(** C2, counterexample.  With a C library that leaves [errno] alone when
    nothing is converted, the text abc is stored as 0: after an update that
    read 12345 the next update returns normally, prints no failure and the
    snapshot shows 0.  With a C library that sets EINVAL the update throws,
    but through [ERROR], not [RUNTIME]. *)
Lemma nonnumeric_text_counterexample :
  (let sw := lifetime [call_update_all] demo in
   let o := update_all (fst sw)
              (with_files (lo_files (Text "abc") (Text "7") (Text "9"))
                 (snd sw)) in
   get_rx_bytes (fst sw) = 12345 /\
   raised o = None /\
   get_rx_bytes (state_of o) = 0 /\
   failure_reports (trace (world_of o)) = []) /\
  (let sw := lo_monitor (boot (lo_files (Text "abc") (Text "7") (Text "9"))
                           0 true) in
   match raised (update_all (fst sw) (snd sw)) with
   | Some e => via_ERROR e /\ ~ via_RUNTIME e
   | None => False
   end).
Proof.
  split.
  - vm_compute. repeat split; reflexivity.
  - vm_compute. tauto.
Qed.

(** C3, counterexample.  The read of the receive-packets counter fails
    with EIO; the update throws, and the receive-bytes counter, which was 0
    before the call, is 5 after it. *)
Lemma partial_update_counterexample :
  let sw := lo_monitor (boot (lo_files (Text ("5" +:+ newline))
                                (unreadable EIO) (Text "9")) 0 false) in
  let o := update_all (fst sw) (snd sw) in
  raised o
  = Some (runtime_error
            (OsError "Read %d bytes from fd %d" [AInt (-1); AInt 4] EIO)) /\
  get_rx_bytes (fst sw) = 0 /\
  get_rx_bytes (state_of o) = 5 /\
  get_rx_bytes (state_of o) <> get_rx_bytes (fst sw).
Proof. vm_compute. repeat split; try reflexivity. discriminate. Qed.

(** C1, counterexample.  Three monitors that track a counter whose file
    holds 12345 and a newline and do not show 12345 after an update.  In the
    first a subscribe call failed before and left ENOENT in [errno]: the
    update rejects the text because of the stale code.  In the second the
    receive-bytes counter, visited first, cannot be read: the update stops
    there and never reaches the receive-packets counter.  In the third the
    file cannot be repositioned: the update stops at the [lseek]. *)
Lemma reads_12345_counterexample :
  (let sw := lifetime [call_set_rx_stats_to_update {[ RX_ERRORS ]}] demo in
   let o := update_all (fst sw) (snd sw) in
   rx_to_update_ (fst sw) !! RX_BYTES = Some (netdata_fd 3) /\
   counter_text (snd sw) 3 ("12345" +:+ newline) /\
   errno (snd sw) = ENOENT /\
   raised o
   = Some (runtime_error
             (OsError
                "Unable to convert network stat value '%s' to long for fd %d"
                [AStr ("12345" +:+ newline); AInt 3] ENOENT)) /\
   receive_field RX_BYTES (get_receive_data (state_of o)) = 0) /\
  (let sw := lo_monitor (boot (lo_files (unreadable EIO)
                                 (Text ("12345" +:+ newline)) (Text "9"))
                           0 false) in
   let o := update_all (fst sw) (snd sw) in
   rx_to_update_ (fst sw) !! RX_PACKETS = Some (netdata_fd 4) /\
   counter_text (snd sw) 4 ("12345" +:+ newline) /\
   errno (snd sw) = 0 /\
   raised o
   = Some (runtime_error
             (OsError "Read %d bytes from fd %d" [AInt (-1); AInt 3] EIO)) /\
   receive_field RX_PACKETS (get_receive_data (state_of o)) = 0) /\
  (let sw := demo_with (unseekable EIO ("12345" +:+ newline)) in
   let o := update_all (fst sw) (snd sw) in
   rx_to_update_ (fst sw) !! RX_BYTES = Some (netdata_fd 3) /\
   holds_text (snd sw) 3 (unseekable EIO ("12345" +:+ newline))
     ("12345" +:+ newline) /\
   errno (snd sw) = 0 /\
   raised o
   = Some (runtime_error
             (OsError "lseek for file descriptor %d" [AInt 3] EIO)) /\
   receive_field RX_BYTES (get_receive_data (state_of o)) = 0).
Proof.
  split; [|split]; cbv zeta; split_and!; try (vm_compute; reflexivity);
    eexists; split_and!; vm_compute; reflexivity.
Qed.

(** C5, counterexample.  The numeral of [2^63], a 64-bit unsigned value of
    19 digits, is rejected: the update throws through [ERROR] with ERANGE and
    the counter keeps the value 0.  A counter holding 7 is not stored
    either when a failed subscribe call left ENOENT in [errno], or when the
    counter visited before it cannot be read. *)
Lemma unsigned_range_counterexample :
  (let sw := demo_with (Text (decimal (2 ^ 63))) in
   let o := update_all (fst sw) (snd sw) in
   0 <= 2 ^ 63 <= 2 ^ 64 - 1 /\
   String.length (decimal (2 ^ 63)) = 19%nat /\
   (exists fmt args,
      raised o = Some (runtime_error (OsError fmt args ERANGE))) /\
   get_rx_bytes (state_of o) = 0) /\
  (let sw := lifetime [call_set_rx_stats_to_update {[ RX_ERRORS ]}]
               (demo_with (Text (decimal 7))) in
   let o := update_all (fst sw) (snd sw) in
   rx_to_update_ (fst sw) !! RX_BYTES = Some (netdata_fd 3) /\
   counter_text (snd sw) 3 (decimal 7) /\
   errno (snd sw) = ENOENT /\
   (exists fmt args,
      raised o = Some (runtime_error (OsError fmt args ENOENT))) /\
   get_rx_bytes (state_of o) = 0) /\
  (let sw := lo_monitor (boot (lo_files (unreadable EIO) (Text (decimal 7))
                                 (Text "9")) 0 false) in
   let o := update_all (fst sw) (snd sw) in
   rx_to_update_ (fst sw) !! RX_PACKETS = Some (netdata_fd 4) /\
   counter_text (snd sw) 4 (decimal 7) /\
   errno (snd sw) = 0 /\
   raised o
   = Some (runtime_error
             (OsError "Read %d bytes from fd %d" [AInt (-1); AInt 3] EIO)) /\
   get_rx_packets (state_of o) = 0).
Proof.
  split; [|split]; cbv zeta; split_and!;
    try (vm_compute; reflexivity); try (vm_compute; discriminate);
    try (eexists; split; vm_compute; reflexivity);
    eexists _, _; vm_compute; reflexivity.
Qed.

(** C10, counterexample.  The negative numeral of [2^63 + 1] is rejected:
    the update throws through [ERROR] with ERANGE and the counter keeps the
    value 0.  A counter holding -5 is rejected as well when a failed
    subscribe call left ENOENT in [errno], and is not reached when the
    counter visited before it cannot be read. *)
Lemma negative_wraps_counterexample :
  (let sw := demo_with (Text ("-" +:+ decimal (2 ^ 63 + 1) +:+ newline)) in
   let o := update_all (fst sw) (snd sw) in
   rx_to_update_ (fst sw) !! RX_BYTES = Some (netdata_fd 3) /\
   errno (snd sw) = 0 /\
   (exists fmt args,
      raised o = Some (runtime_error (OsError fmt args ERANGE))) /\
   get_rx_bytes (state_of o) = 0) /\
  (let sw := lifetime [call_set_rx_stats_to_update {[ RX_ERRORS ]}]
               (demo_with (Text ("-5" +:+ newline))) in
   let o := update_all (fst sw) (snd sw) in
   rx_to_update_ (fst sw) !! RX_BYTES = Some (netdata_fd 3) /\
   counter_text (snd sw) 3 ("-5" +:+ newline) /\
   errno (snd sw) = ENOENT /\
   (exists fmt args,
      raised o = Some (runtime_error (OsError fmt args ENOENT))) /\
   get_rx_bytes (state_of o) = 0) /\
  (let sw := lo_monitor (boot (lo_files (unreadable EIO)
                                 (Text ("-5" +:+ newline)) (Text "9"))
                           0 false) in
   let o := update_all (fst sw) (snd sw) in
   rx_to_update_ (fst sw) !! RX_PACKETS = Some (netdata_fd 4) /\
   counter_text (snd sw) 4 ("-5" +:+ newline) /\
   raised o
   = Some (runtime_error
             (OsError "Read %d bytes from fd %d" [AInt (-1); AInt 3] EIO)) /\
   get_rx_packets (state_of o) = 0).
Proof.
  split; [|split]; cbv zeta; split_and!;
    try (vm_compute; reflexivity); try (vm_compute; discriminate);
    try (eexists; split; vm_compute; reflexivity);
    eexists _, _; vm_compute; reflexivity.
Qed.

(** C8, counterexample.  The [close] of descriptor 4 fails with EIO during
    destruction; all three descriptors are closed, and no failure message is
    printed. *)
Lemma close_failure_counterexample :
  let w' := network_stats_dtor (fst demo) (fail_close 4 EIO (snd demo)) in
  closed (trace w') = [3; 4; 5] /\
  EvClose 4 (-1) ∈ trace w' /\
  errno w' = EIO /\
  failure_reports (trace w') = [].
Proof.
  vm_compute. split_and!; try reflexivity.
  apply list_elem_of_In. vm_compute. tauto.
Qed.

(** In the example the destructor closes the three descriptors opened. *)
Lemma dtor_closes_every_handle_witness :
  let w0 := boot demo_files 0 false in
  let s := default (fst demo) (result_value (network_stats_ctor "lo" w0)) in
  let w1 := result_world (network_stats_ctor "lo" w0) in
  let calls := [call_set_rx_stats_to_update {[ RX_BYTES; RX_PACKETS ]};
                call_set_tx_stats_to_update {[ TX_BYTES ]};
                call_update_all] in
  exists t hs,
    trace (snd (lifetime calls (s, w1))) = trace w1 ++ t /\
    hs ≡ₚ returned t /\
    closed (trace (network_stats_dtor (fst (lifetime calls (s, w1)))
                     (snd (lifetime calls (s, w1)))))
    = closed (trace (snd (lifetime calls (s, w1)))) ++ hs.
Proof.
  intros w0 s w1 calls.
  refine (proj2 dtor_closes_every_handle "lo"%string w0 s w1 calls _).
  vm_compute. reflexivity.
Defined.

(** Two updates with different file contents in between: the snapshot shows
    the values of the second. *)
Lemma second_update_replaces_first :
  let sw1 := lifetime [call_update_all] demo in
  let sw2 := lifetime [environment
                         (lo_files (Text "20") (Text "8") (Text "100")) 0 [];
                       call_update_all] sw1 in
  (get_rx_bytes (fst sw1) = 12345 /\ get_rx_packets (fst sw1) = 7 /\
   get_tx_bytes (fst sw1) = 99) /\
  (get_rx_bytes (fst sw2) = 20 /\ get_rx_packets (fst sw2) = 8 /\
   get_tx_bytes (fst sw2) = 100).
Proof. vm_compute. repeat split; reflexivity. Qed.

(** * Further properties: what an update does to the world *)

Lemma set_errno_same w : set_errno (errno w) w = w.
Proof. now destruct w. Qed.

Lemma lseek_cases fd w :
  lseek fd w = (0, w) \/ exists e, lseek fd w = (-1, set_errno e w).
Proof.
  unfold lseek. destruct (fds w !! fd) as [path|]; [|eauto].
  destruct (files w !! path) as [[[e|] re txt]|]; eauto.
Qed.

Lemma read_cases fd rbuf count w :
  (exists r rbuf', 0 <= r /\ read fd rbuf count w = (r, rbuf', w)) \/
  exists e, read fd rbuf count w = (-1, rbuf, set_errno e w).
Proof.
  unfold read. destruct (fds w !! fd) as [path|]; [|eauto].
  destruct (files w !! path) as [[se [e|] txt]|]; simpl; eauto.
  left. eexists _, _. split; [|reflexivity]. lia.
Qed.

(** A throwing [update_one] printed the message of its exception, and
    nothing else; the [errno] attached to the message is the one it
    leaves. *)
Lemma update_one_Err_world fd w e w' :
  update_one fd w = Err e w' ->
  exists e0,
    w' = set_errno e0 (extend [EvPrint (what e)] w) /\
    forall n, os_errno_of (what e) = Some n -> n = e0.
Proof.
  unfold update_one, update_one_read, throw, ERROR, RUNTIME, cprint.
  destruct (lseek_cases fd w) as [-> | (e1 & ->)]; simpl.
  2:{ intros [= <- <-]. exists e1. split; [reflexivity|].
      simpl. now intros n [= <-]. }
  destruct (read_cases fd (uninitialised READ_SIZE w) READ_SIZE w)
    as [(r & rbuf' & Hr & ->) | (e1 & ->)].
  2:{ simpl. intros [= <- <-]. exists e1. split; [reflexivity|].
      simpl. now intros n [= <-]. }
  destruct (r =? READ_SIZE).
  { simpl. intros [= <- <-]. exists (errno w). split.
    - unfold emit, set_errno, extend. now simpl.
    - simpl. discriminate. }
  destruct (r <=? 0).
  { simpl. intros [= <- <-]. exists (errno w). split.
    - unfold emit, set_errno, extend. now simpl.
    - simpl. now intros n [= <-]. }
  unfold update_one_convert.
  pose proof (strtol_world (c_str (poke rbuf' r NUL)) w) as Hw.
  destruct (strtol (c_str (poke rbuf' r NUL)) w) as [[value endptr] w1].
  simpl in Hw. destruct (_ && _); [|discriminate].
  simpl. intros [= <- <-].
  destruct Hw as [-> | (e1 & _ & _ & ->)].
  - exists (errno w). split.
    + unfold emit, set_errno, extend. now simpl.
    + simpl. now intros n [= <-].
  - exists e1. split; [reflexivity|]. simpl. now intros n [= <-].
Qed.

(** An [update_all] that returns read every tracked counter and left the
    world as it was. *)
Lemma update_all_Done_inv s w s' w' :
  update_all s w = Done s' w' ->
  w' = w /\
  all_read all_rx_fields (rx_to_update_ s) w = true /\
  all_read all_tx_fields (tx_to_update_ s) w = true.
Proof.
  unfold update_all, update_receive_data, update_transmit_data, update_data.
  destruct (update_loop all_rx_fields (rx_to_update_ s) w)
    as [mr1 w1|e1 mr1 w1] eqn:Hrx; cbn [lift]; [|discriminate].
  cbn [tx_to_update_ with_rx].
  destruct (update_loop all_tx_fields (tx_to_update_ s) w1)
    as [mt1 w2|e2 mt1 w2] eqn:Htx; cbn [lift]; [|discriminate].
  intros [= _ <-]. apply update_loop_Done_inv in Hrx as [-> Hr].
  apply update_loop_Done_inv in Htx as [-> Ht]. now split_and!.
Qed.

(** X1.  [update_all] changes nothing in the world when it returns: it
    prints nothing and leaves [errno], the files and the descriptors as they
    were.  When it throws, the world differs from the one it was called in
    by [errno] and by one printed message, that of the exception thrown;
    the [errno] description of an [ERROR] message is the [errno] left. *)
Theorem update_all_world (s : network_stats) (w : world) :
  (forall s' w', update_all s w = Done s' w' -> w' = w) /\
  (forall e s' w',
     update_all s w = Raised e s' w' ->
     exists e0,
       w' = set_errno e0 (extend [EvPrint (what e)] w) /\
       forall n, os_errno_of (what e) = Some n -> n = e0).
Proof.
  split.
  - intros s' w' Hrun. now apply update_all_Done_inv in Hrun as [-> _].
  - intros e s' w' Hrun.
    destruct (update_all_Raised_inv _ _ _ _ _ Hrun)
      as [_ [(pre & r & post & i & _ & _ & Hfail & _)
            |(pre & t & post & i & _ & _ & Hfail & _)]];
      exact (update_one_Err_world _ _ _ _ Hfail).
Qed.

(** With an error code pending in [errno], [update_one] throws whatever the
    descriptor is open on. *)
Lemma update_one_pending fd w :
  ~ errno_clear w -> exists e w', update_one fd w = Err e w'.
Proof.
  intros Hpending. unfold update_one, update_one_read, throw.
  destruct (lseek_cases fd w) as [-> | (e1 & ->)]; simpl; [|eauto].
  destruct (read_cases fd (uninitialised READ_SIZE w) READ_SIZE w)
    as [(r & rbuf' & Hr & ->) | (e1 & ->)]; [|simpl; eauto].
  destruct (r =? READ_SIZE); [eauto|].
  destruct (r <=? 0); [eauto|].
  unfold update_one_convert.
  pose proof (strtol_world (c_str (poke rbuf' r NUL)) w) as Hw.
  destruct (strtol (c_str (poke rbuf' r NUL)) w) as [[value endptr] w1].
  simpl in Hw.
  assert (Hp1 : ~ errno_clear w1).
  { destruct Hw as [-> | (e1 & H0 & H1 & ->)]; [exact Hpending|].
    unfold errno_clear. simpl. tauto. }
  rewrite (errno_pending_test w1 Hp1). unfold throw. eauto.
Qed.

Section pending_loop.
Context `{Countable K}.
Implicit Types (keys : list K) (m : gmap K netdata) (w : world).

(** The loop then throws at the first tracked counter, before any value is
    assigned. *)
Lemma update_loop_pending keys m w :
  ~ errno_clear w ->
  (exists k i, k ∈ keys /\ m !! k = Some i) ->
  exists e w', update_loop keys m w = Raised e m w'.
Proof.
  intros Hpending. induction keys as [|k rest IH]; intros (j & i & Hin & Hj).
  - now apply elem_of_nil in Hin.
  - simpl. destruct (m !! k) as [ik|] eqn:Hk.
    + destruct (update_one_pending (fd ik) w Hpending) as (e & w' & ->). eauto.
    + apply IH. exists j, i. split; [|exact Hj].
      apply elem_of_cons in Hin as [->|Hin]; [congruence|exact Hin].
Qed.

Lemma update_loop_none keys m w :
  (forall k, k ∈ keys -> m !! k = None) -> update_loop keys m w = Done m w.
Proof.
  induction keys as [|k rest IH]; intros Hnone; simpl; [reflexivity|].
  rewrite (Hnone k) by apply list_elem_of_here.
  apply IH. intros j Hj. apply Hnone. now apply list_elem_of_further.
Qed.
End pending_loop.

(** With an error code pending, [update_all] throws at the first tracked
    counter. *)
Lemma update_all_pending s w :
  ~ errno_clear w ->
  (exists r i, rx_to_update_ s !! r = Some i) \/
  (exists t i, tx_to_update_ s !! t = Some i) ->
  exists e w', update_all s w = Raised e s w'.
Proof.
  intros Hpending Htracked.
  unfold update_all, update_receive_data, update_transmit_data, update_data.
  destruct (decide (rx_to_update_ s = ∅)) as [Hrx|Hrx].
  - rewrite (update_loop_none all_rx_fields (rx_to_update_ s) w)
      by (intros k _; rewrite Hrx; apply lookup_empty).
    cbn [lift tx_to_update_ with_rx]. rewrite with_rx_id.
    destruct Htracked as [(r & i & Hr)|(t & i & Ht)].
    { rewrite Hrx, lookup_empty in Hr. discriminate. }
    destruct (update_loop_pending all_tx_fields (tx_to_update_ s) w Hpending)
      as (e & w' & ->).
    { exists t, i. split; [apply all_tx_fields_complete|exact Ht]. }
    cbn [lift]. rewrite with_tx_id. eauto.
  - apply map_choose in Hrx as (r & i & Hr).
    destruct (update_loop_pending all_rx_fields (rx_to_update_ s) w Hpending)
      as (e & w' & ->).
    { exists r, i. split; [apply all_rx_fields_complete|exact Hr]. }
    cbn [lift]. rewrite with_rx_id. eauto.
Qed.

(** X2.  When [update_all] is called with an error code other than EINTR
    pending in [errno] and at least one counter tracked, it throws and
    leaves the object as it was, whatever the statistics files hold: the
    test of [errno] after [strtol] sees the stale code.  With nothing
    tracked it returns at once, whatever [errno] holds. *)
Theorem update_all_pending_errno (s : network_stats) (w : world) :
  ~ errno_clear w ->
  (rx_to_update_ s <> ∅ \/ tx_to_update_ s <> ∅ ->
   exists e w', update_all s w = Raised e s w') /\
  (rx_to_update_ s = ∅ -> tx_to_update_ s = ∅ ->
   update_all s w = Done s w).
Proof.
  intros Hpending. split.
  - intros [Hrx|Htx]; apply update_all_pending; try exact Hpending.
    + left. apply map_choose in Hrx as (r & i & Hr). eauto.
    + right. apply map_choose in Htx as (t & i & Ht). eauto.
  - intros Hrx Htx.
    unfold update_all, update_receive_data, update_transmit_data, update_data.
    rewrite (update_loop_none all_rx_fields (rx_to_update_ s) w)
      by (intros k _; rewrite Hrx; apply lookup_empty).
    cbn [lift tx_to_update_ with_rx]. rewrite with_rx_id.
    rewrite (update_loop_none all_tx_fields (tx_to_update_ s) w)
      by (intros k _; rewrite Htx; apply lookup_empty).
    cbn [lift]. now rewrite with_tx_id.
Qed.



(** X4.  Updating is idempotent: after an [update_all] that returned, a
    second [update_all] in the same world returns too and leaves the object
    and the world as they are. *)
Theorem update_all_idempotent (s : network_stats) (w : world)
    (s' : network_stats) (w' : world) :
  update_all s w = Done s' w' -> update_all s' w' = Done s' w'.
Proof.
  intros Hrun.
  destruct (update_all_Done_inv _ _ _ _ Hrun) as (-> & Hrx & Htx).
  pose proof (update_all_state s w) as (mr & mt & Hs & _ & _).
  rewrite Hrun in Hs. cbn [state_of] in Hs.
  destruct (update_all_Done s w Hrx Htx) as (s1 & Hrun1 & Hmr & Hmt).
  rewrite Hrun in Hrun1. injection Hrun1 as <-.
  assert (Hrx' : all_read all_rx_fields (rx_to_update_ s') w = true).
  { unfold all_read in *. rewrite forallb_forall in *. intros k Hk.
    specialize (Hrx k Hk). rewrite Hmr.
    destruct (rx_to_update_ s !! k) as [i|]; simpl; [|reflexivity].
    now rewrite refreshed_fd. }
  assert (Htx' : all_read all_tx_fields (tx_to_update_ s') w = true).
  { unfold all_read in *. rewrite forallb_forall in *. intros k Hk.
    specialize (Htx k Hk). rewrite Hmt.
    destruct (tx_to_update_ s !! k) as [i|]; simpl; [|reflexivity].
    now rewrite refreshed_fd. }
  destruct (update_all_Done s' w Hrx' Htx') as (s2 & Hrun2 & Hmr2 & Hmt2).
  rewrite Hrun2. f_equal.
  pose proof (update_all_state s' w) as (mr2 & mt2 & Hs2 & _ & _).
  rewrite Hrun2 in Hs2. cbn [state_of] in Hs2.
  assert (Er : rx_to_update_ s2 = rx_to_update_ s').
  { apply map_eq. intros k. rewrite Hmr2, Hmr.
    destruct (rx_to_update_ s !! k); simpl; [|reflexivity].
    now rewrite refreshed_idem. }
  assert (Et : tx_to_update_ s2 = tx_to_update_ s').
  { apply map_eq. intros k. rewrite Hmt2, Hmt.
    destruct (tx_to_update_ s !! k); simpl; [|reflexivity].
    now rewrite refreshed_idem. }
  rewrite Hs2 in Er, Et |- *. cbn in Er, Et. subst mr2 mt2.
  destruct s'; reflexivity.
Qed.

(** * Further properties: subscribing *)

(** The lowest free descriptor is not negative and not open. *)
Lemma lowest_free_from_nonneg n fd0 (t : gmap Z string) :
  0 <= fd0 -> 0 <= lowest_free_from n fd0 t.
Proof.
  revert fd0. induction n as [|n IH]; intros fd0 Hfd; simpl; [exact Hfd|].
  destruct (t !! fd0); [apply IH; lia|exact Hfd].
Qed.

Lemma lowest_free_from_free n fd0 (t : gmap Z string) (D : gset Z) :
  (forall k, is_Some (t !! k) -> fd0 <= k -> k ∈ D) ->
  (size D <= n)%nat ->
  t !! lowest_free_from n fd0 t = None.
Proof.
  revert fd0 D. induction n as [|n IH]; intros fd0 D Hin Hsize; simpl.
  - destruct (t !! fd0) as [p|] eqn:Hfd; [|reflexivity].
    assert (HD : D = ∅) by (apply leibniz_equiv, size_empty_inv; lia).
    pose proof (Hin fd0 (mk_is_Some _ _ Hfd) (Z.le_refl _)) as Hmem.
    rewrite HD in Hmem. now apply not_elem_of_empty in Hmem.
  - destruct (t !! fd0) as [p|] eqn:Hfd; [|exact Hfd].
    pose proof (Hin fd0 (mk_is_Some _ _ Hfd) (Z.le_refl _)) as Hmem.
    apply (IH (fd0 + 1) (D ∖ {[ fd0 ]})).
    + intros k Hk Hle. apply elem_of_difference. split.
      * apply Hin; [exact Hk|lia].
      * rewrite elem_of_singleton. lia.
    + assert (Hs : size D = (size (D ∖ {[ fd0 ]}) + 1)%nat).
      { rewrite (union_difference_L {[ fd0 ]} D) at 1
          by (now apply singleton_subseteq_l).
        rewrite size_union
          by (apply elem_of_disjoint; intros x Hx1 Hx2;
              apply elem_of_difference in Hx2 as [_ Hx2]; auto).
        rewrite size_singleton. lia. }
      lia.
Qed.

Lemma lowest_free_nonneg (t : gmap Z string) : 0 <= lowest_free t.
Proof. now apply lowest_free_from_nonneg. Qed.

Lemma lowest_free_free (t : gmap Z string) : t !! lowest_free t = None.
Proof.
  apply (lowest_free_from_free _ _ _ (dom t)).
  - intros k Hk _. now apply elem_of_dom.
  - now rewrite size_dom.
Qed.

Lemma open_cases p w :
  (exists e,
     open_failure w p = Some e /\
     open p w = (-1, emit (EvOpen p (-1)) (set_errno e w))) \/
  (open_failure w p = None /\
   open p w = (lowest_free (fds w),
               emit (EvOpen p (lowest_free (fds w)))
                 (set_fds (<[lowest_free (fds w) := p]> (fds w)) w))).
Proof.
  unfold open, open_failure. destruct (files w !! p) as [r|]; [|eauto].
  destruct (open_error r); eauto.
Qed.

Section subscribe_run.
Context `{Countable K}.
Variable name : K -> string.
Variable filenames : world -> gmap K string.
Variable set_filenames : gmap K string -> world -> world.
Variables already opening failed : string.
Variable fname : K -> string.
Variable path : string.
Hypothesis filenames_frame :
  forall w w',
    rx_fields_to_filename w' = rx_fields_to_filename w ->
    tx_fields_to_filename w' = tx_fields_to_filename w ->
    filenames w' = filenames w.
Hypothesis set_filenames_id : forall w, set_filenames (filenames w) w = w.
Implicit Types (todo : list K) (m : gmap K netdata) (w : world).

Local Abbreviation loop :=
  (set_stats_loop name filenames set_filenames already opening failed).

(** One step of the loop at a kind that is not tracked: the file name is
    looked up and [open] called, after a trace line. *)
Lemma set_stats_loop_untracked j rest m w :
  (forall k, filenames w !! k = Some (fname k)) ->
  m !! j = None ->
  exists t1,
    Forall is_trace_line t1 /\
    ((exists e0,
        open_failure w (path +:+ fname j) = Some e0 /\
        loop path (j :: rest) m w
        = raise (ERROR failed [AStr (name j); AStr (path +:+ fname j)]
                   (emit (EvOpen (path +:+ fname j) (-1))
                      (set_errno e0 (extend t1 w)))) m) \/
     (open_failure w (path +:+ fname j) = None /\
      exists t3 w1,
        Forall is_trace_line t3 /\
        w1 = extend t3
               (emit (EvOpen (path +:+ fname j) (lowest_free (fds w)))
                  (set_fds (<[lowest_free (fds w)
                              := (path +:+ fname j)%string]> (fds w))
                     (extend t1 w))) /\
        loop path (j :: rest) m w
        = loop path rest
            (map_insert j (netdata_fd (lowest_free (fds w))) m) w1)).
Proof.
  intros Hnames Hj. simpl.
  assert (Hcnt : negb (map_count j m =? 0)%nat = false)
    by (unfold map_count; now rewrite Hj).
  rewrite Hcnt. unfold map_index. rewrite (Hnames j), set_filenames_id.
  destruct (CPRINT_extend opening [AStr (name j); AStr (path +:+ fname j)] w)
    as (t1 & -> & Ht1).
  exists t1. split; [exact Ht1|].
  destruct (open_cases (path +:+ fname j) (extend t1 w))
    as [(e0 & Hfail & ->) | (Hok & ->)].
  - left. exists e0. split; [exact Hfail|reflexivity].
  - right. split; [exact Hok|]. cbn [fds extend].
    pose proof (lowest_free_nonneg (fds w)) as Hnn.
    destruct (Z.eqb_spec (lowest_free (fds w)) (-1)) as [E|_]; [lia|].
    destruct (CPRINT_extend "For '%s': got file descriptor as %d\n"
                [AStr (name j); AInt (lowest_free (fds w))]
                (emit (EvOpen (path +:+ fname j) (lowest_free (fds w)))
                   (set_fds (<[lowest_free (fds w)
                               := (path +:+ fname j)%string]> (fds w))
                      (extend t1 w))))
      as (t3 & Hw3 & Ht3).
    eexists t3, _. split; [exact Ht3|]. split; [reflexivity|].
    now rewrite Hw3.
Qed.

(** One step at a kind that is tracked: a trace line. *)
Lemma set_stats_loop_tracked j rest m w d :
  m !! j = Some d ->
  exists t0,
    Forall is_trace_line t0 /\
    loop path (j :: rest) m w = loop path rest m (extend t0 w).
Proof.
  intros Hj. simpl.
  assert (Hcnt : negb (map_count j m =? 0)%nat = true)
    by (unfold map_count; now rewrite Hj).
  rewrite Hcnt.
  destruct (CPRINT_extend already [AStr (name j)] w) as (t0 & -> & Ht0).
  now exists t0.
Qed.

(** What a subscribe call does to the descriptor table: it leaves the files
    alone, every descriptor that was open stays open on its path, and every
    element it adds has value 0 and a descriptor that was free, open on the
    file of its kind. *)
Lemma set_stats_loop_fds todo m w :
  (forall k, filenames w !! k = Some (fname k)) ->
  files (world_of (loop path todo m w)) = files w /\
  (forall fd0 p, fds w !! fd0 = Some p ->
                 fds (world_of (loop path todo m w)) !! fd0 = Some p) /\
  (forall k i,
     state_of (loop path todo m w) !! k = Some i ->
     m !! k = Some i \/
     (m !! k = None /\ k ∈ todo /\ value i = 0 /\
      0 <= fd i /\ fds w !! fd i = None /\
      fds (world_of (loop path todo m w)) !! fd i = Some (path +:+ fname k) /\
      open_failure w (path +:+ fname k) = None)).
Proof.
  revert m w. induction todo as [|j rest IH]; intros m w Hnames.
  - simpl. split_and!; [reflexivity|auto|]. intros k i Hk. now left.
  - destruct (m !! j) as [d|] eqn:Hj.
    + destruct (set_stats_loop_tracked j rest m w d Hj) as (t0 & Ht0 & ->).
      destruct (IH m (extend t0 w)) as (Hf & Hfd & Hnew).
      { intros k. rewrite <- (Hnames k). f_equal. now apply filenames_frame. }
      split_and!; [exact Hf|exact Hfd|].
      intros k i Hk.
      destruct (Hnew k i Hk) as [?|(? & ? & ? & ? & ? & ? & ?)]; [now left|].
      right. split_and!; try assumption. now apply list_elem_of_further.
    + destruct (set_stats_loop_untracked j rest m w Hnames Hj)
        as (t1 & Ht1 & [(e0 & Hfail & ->)
                       |(Hok & t3 & w1 & Ht3 & Hw1 & ->)]).
      * simpl. split_and!; [reflexivity|auto|]. intros k i Hk. now left.
      * assert (Hfds1 : fds w1 = <[lowest_free (fds w)
                                   := (path +:+ fname j)%string]> (fds w))
          by (subst w1; reflexivity).
        assert (Hfiles1 : files w1 = files w) by (subst w1; reflexivity).
        assert (Hnames1 : forall k, filenames w1 !! k = Some (fname k)).
        { intros k. rewrite <- (Hnames k). f_equal. subst w1.
          now apply filenames_frame. }
        clear Hw1.
        pose proof (lowest_free_free (fds w)) as Hfree.
        pose proof (lowest_free_nonneg (fds w)) as Hnn.
        destruct (IH (map_insert j (netdata_fd (lowest_free (fds w))) m) w1
                     Hnames1) as (Hf & Hfd & Hnew).
        assert (Hkeep : forall fd0 p, fds w !! fd0 = Some p ->
                                      fds w1 !! fd0 = Some p).
        { intros fd0 p Hp. rewrite Hfds1, lookup_insert_ne; [exact Hp|].
          intros <-. congruence. }
        split_and!; [congruence|auto|].
        intros k i Hk.
        destruct (Hnew k i Hk)
          as [Hold|(Hnone & Hin & Hv & Hpos & Hfresh & Hopen & Hex)].
        -- destruct (decide (k = j)) as [->|Hne].
           ++ rewrite map_insert_fresh, lookup_insert_eq in Hold by exact Hj.
              injection Hold as <-. right. cbn [fd value netdata_fd].
              split_and!; [exact Hj|apply list_elem_of_here|reflexivity|
                           exact Hnn|exact Hfree| |exact Hok].
              apply Hfd. rewrite Hfds1. apply lookup_insert_eq.
           ++ left. now rewrite map_insert_lookup_ne in Hold.
        -- right.
           assert (Hne : k <> j).
           { intros ->. rewrite map_insert_fresh, lookup_insert_eq in Hnone
               by exact Hj. discriminate. }
           rewrite map_insert_lookup_ne in Hnone by exact Hne.
           split_and!; [exact Hnone|now apply list_elem_of_further|
                        exact Hv|exact Hpos| |exact Hopen|].
           ++ destruct (fds w !! fd i) as [p|] eqn:Hp; [|reflexivity].
              rewrite (Hkeep _ _ Hp) in Hfresh. discriminate.
           ++ unfold open_failure in *. now rewrite <- Hfiles1.
Qed.

(** A subscribe call that throws stopped at the first requested kind that
    is not tracked and whose file [open] could not open; it throws the
    [ERROR] of that [open] with the errno [open] left. *)
Lemma set_stats_loop_Raised todo m w e m' w' :
  (forall k, filenames w !! k = Some (fname k)) ->
  loop path todo m w = Raised e m' w' ->
  exists pre k post e0,
    todo = pre ++ k :: post /\
    m !! k = None /\ m' !! k = None /\
    open_failure w (path +:+ fname k)%string = Some e0 /\
    e = runtime_error
          (OsError failed [AStr (name k); AStr (path +:+ fname k)] e0) /\
    errno w' = e0 /\
    (forall j, j ∈ pre -> is_Some (m' !! j)) /\
    (forall j, j ∉ pre -> m' !! j = m !! j).
Proof.
  revert m w. induction todo as [|j rest IH]; intros m w Hnames.
  - simpl. discriminate.
  - destruct (m !! j) as [d|] eqn:Hj.
    + destruct (set_stats_loop_tracked j rest m w d Hj) as (t0 & Ht0 & ->).
      intros Hrun.
      pose proof (set_stats_loop_kept name filenames set_filenames already
                    opening failed path rest m (extend t0 w) j d Hj) as Hkept.
      rewrite Hrun in Hkept. cbn [state_of] in Hkept.
      destruct (IH m (extend t0 w)) as
        (pre & k & post & e0 & -> & Hk & Hk' & Hfile & He & Herr & Hpre
         & Hrest); [|exact Hrun|].
      { intros k. rewrite <- (Hnames k). f_equal. now apply filenames_frame. }
      exists (j :: pre), k, post, e0.
      split_and!; try assumption; [reflexivity|..].
      * intros x Hx. apply elem_of_cons in Hx as [->|Hx]; [eauto|now apply Hpre].
      * intros x Hx. apply not_elem_of_cons in Hx as [_ Hx]. now apply Hrest.
    + destruct (set_stats_loop_untracked j rest m w Hnames Hj)
        as (t1 & Ht1 & [(e0 & Hfail & ->)
                       |(Hok & t3 & w1 & Ht3 & Hw1 & ->)]).
      * unfold raise, ERROR. simpl. intros [= <- <- <-].
        exists [], j, rest, e0. split_and!; try assumption; try reflexivity.
        intros x Hx. now apply elem_of_nil in Hx.
      * assert (Hfiles1 : files w1 = files w) by (subst w1; reflexivity).
        assert (Hnames1 : forall k, filenames w1 !! k = Some (fname k)).
        { intros k. rewrite <- (Hnames k). f_equal. subst w1.
          now apply filenames_frame. }
        clear Hw1. intros Hrun.
        pose proof (set_stats_loop_kept name filenames set_filenames already
                      opening failed path rest
                      (map_insert j (netdata_fd (lowest_free (fds w))) m) w1 j
                      (netdata_fd (lowest_free (fds w)))) as Hkept.
        rewrite Hrun in Hkept. cbn [state_of] in Hkept.
        rewrite map_insert_fresh, lookup_insert_eq in Hkept by exact Hj.
        specialize (Hkept eq_refl).
        destruct (IH _ w1 Hnames1 Hrun) as
          (pre & k & post & e0 & -> & Hk & Hk' & Hfile' & He & Herr & Hpre
           & Hrest).
        assert (Hne : k <> j).
        { intros ->. rewrite map_insert_fresh, lookup_insert_eq in Hk
            by exact Hj. discriminate. }
        rewrite map_insert_lookup_ne in Hk by exact Hne.
        exists (j :: pre), k, post, e0.
        split_and!; try assumption; [reflexivity| |..].
        -- unfold open_failure in *. now rewrite <- Hfiles1.
        -- intros x Hx. apply elem_of_cons in Hx as [->|Hx];
             [eauto|now apply Hpre].
        -- intros x Hx. apply not_elem_of_cons in Hx as [Hxj Hx].
           rewrite (Hrest x Hx). now apply map_insert_lookup_ne.
Qed.

(** A subscribe call that returns tracks every requested kind and leaves
    [errno] alone. *)
Lemma set_stats_loop_Done todo m w m' w' :
  (forall k, filenames w !! k = Some (fname k)) ->
  loop path todo m w = Done m' w' ->
  errno w' = errno w /\ forall k, k ∈ todo -> is_Some (m' !! k).
Proof.
  revert m w. induction todo as [|j rest IH]; intros m w Hnames.
  - simpl. intros [= <- <-]. split; [reflexivity|].
    intros k Hk. now apply elem_of_nil in Hk.
  - destruct (m !! j) as [d|] eqn:Hj.
    + destruct (set_stats_loop_tracked j rest m w d Hj) as (t0 & Ht0 & ->).
      intros Hrun.
      pose proof (set_stats_loop_kept name filenames set_filenames already
                    opening failed path rest m (extend t0 w) j d Hj) as Hkept.
      rewrite Hrun in Hkept. cbn [state_of] in Hkept.
      destruct (IH m (extend t0 w)) as [Herr Hall]; [|exact Hrun|].
      { intros k. rewrite <- (Hnames k). f_equal. now apply filenames_frame. }
      split; [exact Herr|]. intros k Hk.
      apply elem_of_cons in Hk as [->|Hk]; [eauto|now apply Hall].
    + destruct (set_stats_loop_untracked j rest m w Hnames Hj)
        as (t1 & Ht1 & [(e0 & Hfail & ->)
                       |(Hok & t3 & w1 & Ht3 & Hw1 & ->)]);
        [discriminate|].
      assert (He1 : errno w1 = errno w) by (subst w1; reflexivity).
      assert (Hnames1 : forall k, filenames w1 !! k = Some (fname k)).
      { intros k. rewrite <- (Hnames k). f_equal. subst w1.
        now apply filenames_frame. }
      clear Hw1. intros Hrun.
      pose proof (set_stats_loop_kept name filenames set_filenames already
                    opening failed path rest
                    (map_insert j (netdata_fd (lowest_free (fds w))) m) w1 j
                    (netdata_fd (lowest_free (fds w)))) as Hkept.
      rewrite Hrun in Hkept. cbn [state_of] in Hkept.
      rewrite map_insert_fresh, lookup_insert_eq in Hkept by exact Hj.
      specialize (Hkept eq_refl).
      destruct (IH _ w1 Hnames1 Hrun) as [Herr Hall].
      split; [congruence|]. intros k Hk.
      apply elem_of_cons in Hk as [->|Hk]; [eauto|now apply Hall].
Qed.

(** Subscribing changes no value a snapshot shows: a new element has value
    0, which is what an untracked kind reads as. *)
Lemma set_stats_loop_fetch todo m w k :
  fetch_one (state_of (loop path todo m w)) k = fetch_one m k.
Proof.
  revert m w. induction todo as [|j rest IH]; intros m w; simpl.
  - reflexivity.
  - destruct (m !! j) as [d|] eqn:Hj;
      [ assert (Hcnt : negb (map_count j m =? 0)%nat = true)
          by (unfold map_count; now rewrite Hj)
      | assert (Hcnt : negb (map_count j m =? 0)%nat = false)
          by (unfold map_count; now rewrite Hj) ];
      rewrite Hcnt; [apply IH|].
    destruct (map_index j (filenames w)) as [file names].
    destruct (open _ _) as [fd w1].
    destruct (fd =? -1); [reflexivity|].
    rewrite IH. unfold fetch_one.
    rewrite map_insert_fresh by exact Hj.
    destruct (decide (k = j)) as [->|Hne].
    + now rewrite lookup_insert_eq, Hj.
    + now rewrite lookup_insert_ne by congruence.
Qed.

(** A subscribe call that throws printed the message of its exception
    last. *)
Lemma set_stats_loop_printed todo m w :
  printed_last (raised_by (loop path todo m w)) (world_of (loop path todo m w)).
Proof.
  revert m w. induction todo as [|j rest IH]; intros m w; simpl.
  - exact I.
  - destruct (negb (map_count j m =? 0)%nat); [apply IH|].
    destruct (map_index j (filenames w)) as [file names].
    destruct (open _ _) as [fd w1].
    destruct (fd =? -1); [|apply IH].
    unfold raise, ERROR, cprint. simpl. split.
    + apply last_snoc.
    + now intros n [= <-].
Qed.
End subscribe_run.

Lemma lift_Raised {S T} (f : S -> T) (o : outcome S) e s w :
  lift f o = Raised e s w -> exists m, o = Raised e m w /\ s = f m.
Proof. destruct o; simpl; [discriminate|]. intros [= <- <- <-]. eauto. Qed.

Lemma lift_Done {S T} (f : S -> T) (o : outcome S) s w :
  lift f o = Done s w -> exists m, o = Done m w /\ s = f m.
Proof. destruct o; simpl; [|discriminate]. intros [= <- <-]. eauto. Qed.

(** X5.  When [set_rx_stats_to_update] throws, it stopped at a requested
    kind that was not tracked and whose statistics file [open] could not
    open: the exception is the [ERROR] of the failed [open], it names the
    kind and the path and carries the errno [open] left (ENOENT for a file
    that does not exist, the code of the failure otherwise), which is the
    [errno] the call leaves.  That kind stays untracked, the requested
    kinds before it in iteration order are tracked (they are not rolled
    back), every other receive kind and the transmit side are as before. *)
Theorem set_rx_stats_to_update_failure (u : gset rx_fields)
    (s : network_stats) (w : world) (e : exception) (s' : network_stats)
    (w' : world) :
  filenames_built w ->
  set_rx_stats_to_update u s w = Raised e s' w' ->
  exists pre r post e0,
    set_elements all_rx_fields u = pre ++ r :: post /\
    rx_to_update_ s !! r = None /\
    rx_to_update_ s' !! r = None /\
    open_failure w (rx_path s r) = Some e0 /\
    e = runtime_error
          (OsError "For '%s': opening stats file '%s'"
                   [AStr (rx_name r); AStr (rx_path s r)] e0) /\
    errno w' = e0 /\
    (forall j, j ∈ pre -> is_Some (rx_to_update_ s' !! j)) /\
    (forall j, j ∉ pre -> rx_to_update_ s' !! j = rx_to_update_ s !! j) /\
    tx_to_update_ s' = tx_to_update_ s /\
    interface_stats_path_ s' = interface_stats_path_ s.
Proof.
  intros Hbuilt Hrun. unfold set_rx_stats_to_update in Hrun.
  apply lift_Raised in Hrun as (m' & Hrun & ->).
  unfold set_stats_to_update in Hrun.
  eapply (set_stats_loop_Raised rx_name rx_fields_to_filename set_rx_filenames
            _ _ _ rx_file (interface_stats_path_ s)
            (fun w w' Hr _ => Hr) set_rx_filenames_id) in Hrun;
    [|intros k; now apply built_rx_lookup].
  destruct Hrun as (pre & r & post & e0 & Hsplit & Hr & Hr' & Hfile & He
                    & Herr & Hpre & Hrest).
  exists pre, r, post, e0. now split_and!.
Qed.

(** X6.  The same for [set_tx_stats_to_update], whose message reads
    differently. *)
Theorem set_tx_stats_to_update_failure (u : gset tx_fields)
    (s : network_stats) (w : world) (e : exception) (s' : network_stats)
    (w' : world) :
  filenames_built w ->
  set_tx_stats_to_update u s w = Raised e s' w' ->
  exists pre t post e0,
    set_elements all_tx_fields u = pre ++ t :: post /\
    tx_to_update_ s !! t = None /\
    tx_to_update_ s' !! t = None /\
    open_failure w (tx_path s t) = Some e0 /\
    e = runtime_error
          (OsError "For %s: Opening stats file '%s'"
                   [AStr (tx_name t); AStr (tx_path s t)] e0) /\
    errno w' = e0 /\
    (forall j, j ∈ pre -> is_Some (tx_to_update_ s' !! j)) /\
    (forall j, j ∉ pre -> tx_to_update_ s' !! j = tx_to_update_ s !! j) /\
    rx_to_update_ s' = rx_to_update_ s /\
    interface_stats_path_ s' = interface_stats_path_ s.
Proof.
  intros Hbuilt Hrun. unfold set_tx_stats_to_update in Hrun.
  apply lift_Raised in Hrun as (m' & Hrun & ->).
  unfold set_stats_to_update in Hrun.
  eapply (set_stats_loop_Raised tx_name tx_fields_to_filename set_tx_filenames
            _ _ _ tx_file (interface_stats_path_ s)
            (fun w w' _ Ht => Ht) set_tx_filenames_id) in Hrun;
    [|intros k; now apply built_tx_lookup].
  destruct Hrun as (pre & t & post & e0 & Hsplit & Ht & Ht' & Hfile & He
                    & Herr & Hpre & Hrest).
  exists pre, t, post, e0. now split_and!.
Qed.

Section subscribe_success.
Context `{Countable K}.
Variable all : list K.
Variable name : K -> string.
Variable filenames : world -> gmap K string.
Variable set_filenames : gmap K string -> world -> world.
Variables already opening failed : string.
Variable fname : K -> string.
Variable path : string.
Hypothesis all_complete : forall k, k ∈ all.
Hypothesis filenames_frame :
  forall w w',
    rx_fields_to_filename w' = rx_fields_to_filename w ->
    tx_fields_to_filename w' = tx_fields_to_filename w ->
    filenames w' = filenames w.
Hypothesis set_filenames_id : forall w, set_filenames (filenames w) w = w.
Implicit Types (u : gset K) (m : gmap K netdata) (w : world).

Local Abbreviation subscribe :=
  (set_stats_to_update all name filenames set_filenames already opening
     failed path).

Lemma set_stats_to_update_success u m w :
  (forall k, filenames w !! k = Some (fname k)) ->
  ((forall k, k ∈ u -> m !! k = None ->
              open_failure w (path +:+ fname k)%string = None) <->
   raised_by (subscribe u m w) = None) /\
  (forall m' w',
     subscribe u m w = Done m' w' ->
     errno w' = errno w /\ files w' = files w /\
     (forall fd0 p, fds w !! fd0 = Some p -> fds w' !! fd0 = Some p) /\
     (forall k, k ∈ u -> is_Some (m' !! k)) /\
     (forall k i, m' !! k = Some i ->
        m !! k = Some i \/
        (m !! k = None /\ k ∈ u /\ value i = 0 /\
         0 <= fd i /\ fds w !! fd i = None /\
         fds w' !! fd i = Some (path +:+ fname k)%string))).
Proof.
  intros Hnames.
  pose proof (set_stats_loop_fds name filenames set_filenames already opening
                failed fname path filenames_frame set_filenames_id
                (set_elements all u) m w Hnames)
    as (Hfiles & Hold & Hnew).
  fold (subscribe u m w) in Hfiles, Hold, Hnew.
  assert (Hdone : forall m' w', subscribe u m w = Done m' w' ->
            errno w' = errno w /\ forall k, k ∈ u -> is_Some (m' !! k)).
  { intros m' w' Hrun.
    destruct (set_stats_loop_Done name filenames set_filenames already opening
                failed fname path filenames_frame set_filenames_id
                (set_elements all u) m w m' w' Hnames Hrun)
      as [Herr Hall].
    split; [exact Herr|]. intros k Hk. apply Hall.
    unfold set_elements. apply list_elem_of_filter. split; [exact Hk|].
    apply all_complete. }
  split; [split|].
  - intros Hexist.
    destruct (subscribe u m w) as [m' w'|e m' w'] eqn:Hrun; [reflexivity|].
    destruct (set_stats_loop_Raised name filenames set_filenames already
                opening failed fname path filenames_frame set_filenames_id
                (set_elements all u) m w e m' w' Hnames Hrun)
      as (pre & k & post & e0 & Hsplit & Hk & _ & Hmiss & _).
    assert (Hku : k ∈ u).
    { apply (set_elements_subset all). rewrite Hsplit.
      apply elem_of_app. right. apply list_elem_of_here. }
    rewrite (Hexist k Hku Hk) in Hmiss. discriminate.
  - intros Hnone k Hk Hm.
    destruct (subscribe u m w) as [m' w'|e m' w'] eqn:Hrun; [|discriminate].
    destruct (Hdone m' w' eq_refl) as [_ Hall].
    destruct (Hall k Hk) as [i Hi]. cbn [state_of world_of] in Hnew.
    destruct (Hnew k i Hi) as [Hkept | (_ & _ & _ & _ & _ & _ & Hfile)];
      [congruence|exact Hfile].
  - intros m' w' Hrun. rewrite Hrun in *. cbn [state_of world_of] in *.
    destruct (Hdone m' w' eq_refl) as [Herr Hall].
    split_and!; try assumption.
    intros k i Hi.
    destruct (Hnew k i Hi)
      as [Hkept | (Hm & Hk & Hv & Hpos & Hfree & Hopen & _)];
      [now left|right].
    split_and!; try assumption.
    now apply (set_elements_subset all).
Qed.
End subscribe_success.

(** X7.  [set_rx_stats_to_update] returns exactly when [open] succeeds on
    the statistics file of every requested kind that is not yet tracked:
    each of these files exists and can be opened.  When it returns,
    [errno] and the files are untouched, every descriptor that was open is
    still open on its path, every requested kind is tracked, and every
    element is either the one the map held or a new one of a requested
    kind with value 0 and a descriptor that was free, now open on the file
    of that kind; the transmit side is as before. *)
Theorem set_rx_stats_to_update_success (u : gset rx_fields)
    (s : network_stats) (w : world) :
  filenames_built w ->
  ((forall r, r ∈ u -> rx_to_update_ s !! r = None ->
              open_failure w (rx_path s r) = None) <->
   raised_by (set_rx_stats_to_update u s w) = None) /\
  (forall s' w',
     set_rx_stats_to_update u s w = Done s' w' ->
     errno w' = errno w /\ files w' = files w /\
     (forall fd0 p, fds w !! fd0 = Some p -> fds w' !! fd0 = Some p) /\
     (forall r, r ∈ u -> is_Some (rx_to_update_ s' !! r)) /\
     (forall r i, rx_to_update_ s' !! r = Some i ->
        rx_to_update_ s !! r = Some i \/
        (rx_to_update_ s !! r = None /\ r ∈ u /\ value i = 0 /\
         0 <= fd i /\ fds w !! fd i = None /\
         fds w' !! fd i = Some (rx_path s r))) /\
     tx_to_update_ s' = tx_to_update_ s /\
     interface_stats_path_ s' = interface_stats_path_ s).
Proof.
  intros Hbuilt.
  destruct (set_stats_to_update_success all_rx_fields rx_name
              rx_fields_to_filename set_rx_filenames
              "For '%s': already monitoring -- ignoring request\n"
              "For '%s': opening stats file @ '%s'\n"
              "For '%s': opening stats file '%s'"
              rx_file (interface_stats_path_ s) all_rx_fields_complete
              (fun w w' Hr _ => Hr) set_rx_filenames_id
              u (rx_to_update_ s) w
              (fun k => built_rx_lookup w k Hbuilt)) as [Hiff Hpost].
  unfold set_rx_stats_to_update. split.
  - rewrite Hiff. now destruct (set_stats_to_update _ _ _ _ _ _ _ _ _ _ _).
  - intros s' w' Hrun. apply lift_Done in Hrun as (m' & Hrun & ->).
    destruct (Hpost m' w' Hrun) as (? & ? & ? & ? & ?).
    now split_and!.
Qed.

(** X8.  The same for [set_tx_stats_to_update]. *)
Theorem set_tx_stats_to_update_success (u : gset tx_fields)
    (s : network_stats) (w : world) :
  filenames_built w ->
  ((forall t, t ∈ u -> tx_to_update_ s !! t = None ->
              open_failure w (tx_path s t) = None) <->
   raised_by (set_tx_stats_to_update u s w) = None) /\
  (forall s' w',
     set_tx_stats_to_update u s w = Done s' w' ->
     errno w' = errno w /\ files w' = files w /\
     (forall fd0 p, fds w !! fd0 = Some p -> fds w' !! fd0 = Some p) /\
     (forall t, t ∈ u -> is_Some (tx_to_update_ s' !! t)) /\
     (forall t i, tx_to_update_ s' !! t = Some i ->
        tx_to_update_ s !! t = Some i \/
        (tx_to_update_ s !! t = None /\ t ∈ u /\ value i = 0 /\
         0 <= fd i /\ fds w !! fd i = None /\
         fds w' !! fd i = Some (tx_path s t))) /\
     rx_to_update_ s' = rx_to_update_ s /\
     interface_stats_path_ s' = interface_stats_path_ s).
Proof.
  intros Hbuilt.
  destruct (set_stats_to_update_success all_tx_fields tx_name
              tx_fields_to_filename set_tx_filenames
              "For '%s': already monitoring -- ignoring request\n"
              "For %s: opening stats file @ '%s'\n"
              "For %s: Opening stats file '%s'"
              tx_file (interface_stats_path_ s) all_tx_fields_complete
              (fun w w' _ Ht => Ht) set_tx_filenames_id
              u (tx_to_update_ s) w
              (fun k => built_tx_lookup w k Hbuilt)) as [Hiff Hpost].
  unfold set_tx_stats_to_update. split.
  - rewrite Hiff. now destruct (set_stats_to_update _ _ _ _ _ _ _ _ _ _ _).
  - intros s' w' Hrun. apply lift_Done in Hrun as (m' & Hrun & ->).
    destruct (Hpost m' w' Hrun) as (? & ? & ? & ? & ?).
    now split_and!.
Qed.

(** X9.  Subscribing never changes a value a client can read: whatever
    its outcome, a subscribe call leaves both snapshots as they were (a new
    element starts at 0, which is what an untracked kind reads as). *)
Theorem subscribe_keeps_snapshots (s : network_stats) (w : world) :
  (forall u,
     get_receive_data (state_of (set_rx_stats_to_update u s w))
     = get_receive_data s /\
     get_transmit_data (state_of (set_rx_stats_to_update u s w))
     = get_transmit_data s) /\
  (forall u,
     get_receive_data (state_of (set_tx_stats_to_update u s w))
     = get_receive_data s /\
     get_transmit_data (state_of (set_tx_stats_to_update u s w))
     = get_transmit_data s).
Proof.
  split; intros u.
  - unfold set_rx_stats_to_update, set_stats_to_update.
    rewrite state_of_lift. split.
    + unfold get_receive_data, fetch_one_rx. cbn [rx_to_update_ with_rx].
      now rewrite !set_stats_loop_fetch.
    + reflexivity.
  - unfold set_tx_stats_to_update, set_stats_to_update.
    rewrite state_of_lift. split.
    + reflexivity.
    + unfold get_transmit_data, fetch_one_tx. cbn [tx_to_update_ with_tx].
      now rewrite !set_stats_loop_fetch.
Qed.

(** * Further properties: what is thrown was printed *)

(** * Further properties: what is thrown was printed *)

Lemma update_one_printed fd w :
  printed_last (thrown (update_one fd w)) (result_world (update_one fd w)).
Proof.
  destruct (update_one fd w) as [v w'|e w'] eqn:Hrun; simpl; [exact I|].
  apply update_one_Err_world in Hrun as (e0 & -> & Hos). split.
  - apply last_snoc.
  - exact Hos.
Qed.

Lemma update_loop_printed `{Countable K} (keys : list K) m w :
  printed_last (raised_by (update_loop keys m w))
               (world_of (update_loop keys m w)).
Proof.
  revert m w. induction keys as [|k rest IH]; intros m w; simpl.
  - exact I.
  - destruct (m !! k) as [i|]; [|apply IH].
    pose proof (update_one_printed (fd i) w) as Hone.
    destruct (update_one (fd i) w) as [v w1|e w1]; [apply IH|exact Hone].
Qed.

Lemma raised_by_lift {S T} (f : S -> T) (o : outcome S) :
  raised_by (lift f o) = raised_by o.
Proof. now destruct o. Qed.

(** X10.  Whatever a method of the monitor throws, the message of the
    exception is the last thing the process printed when the exception
    leaves the method, and an [errno] description attached to the message
    is that of the [errno] the method leaves: the reporting macros print
    before they throw and nothing runs in between. *)
Theorem thrown_is_printed :
  (forall interface w,
     printed_last (thrown (network_stats_ctor interface w))
                  (result_world (network_stats_ctor interface w))) /\
  (forall u s w,
     printed_last (raised_by (set_rx_stats_to_update u s w))
                  (world_of (set_rx_stats_to_update u s w))) /\
  (forall u s w,
     printed_last (raised_by (set_tx_stats_to_update u s w))
                  (world_of (set_tx_stats_to_update u s w))) /\
  (forall s w,
     printed_last (raised_by (update_receive_data s w))
                  (world_of (update_receive_data s w))) /\
  (forall s w,
     printed_last (raised_by (update_transmit_data s w))
                  (world_of (update_transmit_data s w))) /\
  (forall s w,
     printed_last (raised_by (update_all s w)) (world_of (update_all s w))).
Proof.
  split_and!.
  - intros interface w. unfold network_stats_ctor.
    destruct (opendir _ _) as [[dir|] w1].
    + destruct (closedir dir w1) as [ret w2].
      destruct (negb (ret =? 0)); [|exact I].
      unfold throw, ERROR, cprint. simpl. split; [apply last_snoc|].
      now intros n [= <-].
    + unfold throw, ERROR, cprint. simpl. split; [apply last_snoc|].
      now intros n [= <-].
  - intros u s w. unfold set_rx_stats_to_update, set_stats_to_update.
    rewrite raised_by_lift, world_of_lift. apply set_stats_loop_printed.
  - intros u s w. unfold set_tx_stats_to_update, set_stats_to_update.
    rewrite raised_by_lift, world_of_lift. apply set_stats_loop_printed.
  - intros s w. unfold update_receive_data, update_data.
    rewrite raised_by_lift, world_of_lift. apply update_loop_printed.
  - intros s w. unfold update_transmit_data, update_data.
    rewrite raised_by_lift, world_of_lift. apply update_loop_printed.
  - intros s w. unfold update_all, update_receive_data, update_transmit_data,
      update_data.
    pose proof (update_loop_printed all_rx_fields (rx_to_update_ s) w) as Hr.
    destruct (update_loop all_rx_fields (rx_to_update_ s) w)
      as [mr w1|e mr w1]; cbn [lift raised_by world_of] in *; [|exact Hr].
    rewrite raised_by_lift, world_of_lift. apply update_loop_printed.
Qed.
(** * Further properties: the constructor *)

(** The static initialisation at the head of the constructor. *)
Lemma ctor_static_init w :
  filenames_sound w ->
  exists t,
    (if map_empty (rx_fields_to_filename w)
        || map_empty (tx_fields_to_filename w)
     then build_fields_to_filename_maps w else w)
    = extend t (with_filenames_built w) /\
    Forall is_trace_line t.
Proof.
  intros [[Hrx Htx]|[Hrx Htx]]; unfold map_empty; rewrite Hrx, Htx.
  - rewrite bool_decide_eq_true_2 by reflexivity. simpl.
    unfold build_fields_to_filename_maps, CPRINT, cprint. simpl.
    exists [EvPrint (Trace "Building stat to filename map\n" [])].
    split; [|repeat constructor].
    rewrite Hrx, Htx. reflexivity.
  - rewrite !bool_decide_eq_false_2 by (vm_compute; discriminate). simpl.
    exists []. split; [|constructor]. rewrite extend_nil.
    unfold with_filenames_built. rewrite <- Hrx, set_rx_filenames_id.
    now rewrite <- Htx, set_tx_filenames_id.
Qed.


(** The static initialisation does not touch what [opendir] and [closedir]
    look at. *)
Lemma opendir_extend p t w :
  opendir p (extend t (with_filenames_built w))
  = (fst (opendir p w),
     match fst (opendir p w) with
     | Some _ => extend t (with_filenames_built w)
     | None => set_errno (errno (snd (opendir p w)))
                 (extend t (with_filenames_built w))
     end).
Proof.
  unfold opendir.
  cbn [dirs dir_faults extend with_filenames_built set_tx_filenames
       set_rx_filenames].
  destruct (decide (p ∈ dirs w)); [reflexivity|].
  destruct (dir_faults w !! p) as [[e|e]|]; reflexivity.
Qed.

Lemma closedir_extend p t w :
  closedir p (extend t (with_filenames_built w))
  = (fst (closedir p w),
     if fst (closedir p w) =? 0 then extend t (with_filenames_built w)
     else set_errno (errno (snd (closedir p w)))
            (extend t (with_filenames_built w))).
Proof.
  unfold closedir.
  cbn [dirs dir_faults extend with_filenames_built set_tx_filenames
       set_rx_filenames].
  destruct (decide (p ∈ dirs w)); [reflexivity|].
  destruct (dir_faults w !! p) as [[e|e]|]; reflexivity.
Qed.

Lemma opendir_handle p w dir : fst (opendir p w) = Some dir -> dir = p.
Proof.
  unfold opendir. destruct (decide _); [now intros [= <-]|].
  destruct (dir_faults w !! p) as [[e|e]|]; simpl; congruence.
Qed.

(** X11.  In a process whose static maps are either both empty or both
    built, the constructor returns exactly when [opendir] succeeds on
    the directory of the interface and the [closedir] of the handle
    succeeds; it does so for every directory that opens and closes.  It
    then yields a monitor of that interface that tracks nothing, with the
    statistics path under the directory; the static maps are built, and
    apart from trace lines nothing else changes: no file is opened,
    [errno] is untouched. *)
Theorem ctor_success (interface : string) (w : world) :
  filenames_sound w ->
  (thrown (network_stats_ctor interface w) = None <->
   fst (opendir (SYSFS_PATH +:+ interface) w)
   = Some (SYSFS_PATH +:+ interface)%string /\
   fst (closedir (SYSFS_PATH +:+ interface) w) = 0) /\
  ((SYSFS_PATH +:+ interface)%string ∈ dirs w ->
   thrown (network_stats_ctor interface w) = None) /\
  (forall s w',
     network_stats_ctor interface w = Ok s w' ->
     s = {| interface_name_ := interface;
            interface_stats_path_ :=
              (SYSFS_PATH +:+ interface +:+ STATS_DIR)%string;
            rx_to_update_ := ∅; tx_to_update_ := ∅ |} /\
     exists t, w' = extend t (with_filenames_built w) /\
               Forall is_trace_line t).
Proof.
  intros Hsound.
  assert (Hdirs : (SYSFS_PATH +:+ interface)%string ∈ dirs w ->
            fst (opendir (SYSFS_PATH +:+ interface) w)
            = Some (SYSFS_PATH +:+ interface)%string /\
            fst (closedir (SYSFS_PATH +:+ interface) w) = 0).
  { intros Hd. unfold opendir, closedir. now rewrite !decide_True by exact Hd. }
  unfold network_stats_ctor.
  destruct (ctor_static_init w Hsound) as (t & -> & Ht).
  rewrite opendir_extend.
  destruct (fst (opendir (SYSFS_PATH +:+ interface) w)) as [dir|] eqn:Hopen.
  - apply opendir_handle in Hopen as Hdir. subst dir.
    rewrite closedir_extend.
    destruct (Z.eqb_spec (fst (closedir (SYSFS_PATH +:+ interface) w)) 0)
      as [Hret|Hret].
    + cbn -[String.append]. split_and!.
      * tauto.
      * reflexivity.
      * intros s w' [= <- <-]. split; [reflexivity|].
        destruct (CPRINT_extend "Got interface stats path as '%s'\n"
                    [AStr (SYSFS_PATH +:+ interface +:+ STATS_DIR)%string]
                    (extend t (with_filenames_built w)))
          as (t' & Hw' & Ht').
        exists (t ++ t'). split; [|now apply Forall_app].
        rewrite <- extend_extend. exact Hw'.
    + cbn -[String.append]. split_and!.
      * split; [discriminate|]. intros [_ H0]. contradiction.
      * intros Hd. destruct (Hdirs Hd) as [_ H0]. contradiction.
      * discriminate.
  - cbn -[String.append]. split_and!.
    + split; [discriminate|]. intros [H0 _]. discriminate.
    + intros Hd. destruct (Hdirs Hd) as [H0 _]. congruence.
    + discriminate.
Qed.

(** X12.  When [opendir] fails on the directory of the interface, the
    constructor throws through [ERROR] with the errno [opendir] left
    (ENOENT for a path that does not exist), naming the path and the
    interface; when [opendir] succeeds and [closedir] fails, it throws the
    closing error with the errno [closedir] left.  No monitor exists
    afterwards; the process is left with that [errno], the message printed
    last, and the static maps built (they are filled before the directory
    is looked up). *)
Theorem ctor_failure (interface : string) (w : world) :
  filenames_sound w ->
  (fst (opendir (SYSFS_PATH +:+ interface) w) = None ->
   exists t,
     network_stats_ctor interface w
     = Err (runtime_error
              (OsError
                 "Cannot find/access network stats path '%s' for interface '%s'"
                 [AStr (SYSFS_PATH +:+ interface)%string; AStr interface]
                 (errno (snd (opendir (SYSFS_PATH +:+ interface) w)))))
           (set_errno (errno (snd (opendir (SYSFS_PATH +:+ interface) w)))
              (extend
                 (t ++ [EvPrint
                          (OsError
                             "Cannot find/access network stats path '%s' for interface '%s'"
                             [AStr (SYSFS_PATH +:+ interface)%string;
                              AStr interface]
                             (errno (snd (opendir (SYSFS_PATH +:+ interface)
                                            w))))])
                 (with_filenames_built w))) /\
     Forall is_trace_line t) /\
  (fst (opendir (SYSFS_PATH +:+ interface) w)
   = Some (SYSFS_PATH +:+ interface)%string ->
   fst (closedir (SYSFS_PATH +:+ interface) w) <> 0 ->
   exists t,
     network_stats_ctor interface w
     = Err (runtime_error
              (OsError "Error closing dir @ '%s' for interface '%s'"
                 [AStr (SYSFS_PATH +:+ interface)%string; AStr interface]
                 (errno (snd (closedir (SYSFS_PATH +:+ interface) w)))))
           (set_errno (errno (snd (closedir (SYSFS_PATH +:+ interface) w)))
              (extend
                 (t ++ [EvPrint
                          (OsError "Error closing dir @ '%s' for interface '%s'"
                             [AStr (SYSFS_PATH +:+ interface)%string;
                              AStr interface]
                             (errno (snd (closedir (SYSFS_PATH +:+ interface)
                                            w))))])
                 (with_filenames_built w))) /\
     Forall is_trace_line t) /\
  ((SYSFS_PATH +:+ interface)%string ∉ dirs w ->
   dir_faults w !! (SYSFS_PATH +:+ interface)%string = None ->
   fst (opendir (SYSFS_PATH +:+ interface) w) = None /\
   errno (snd (opendir (SYSFS_PATH +:+ interface) w)) = ENOENT).
Proof.
  intros Hsound. unfold network_stats_ctor.
  destruct (ctor_static_init w Hsound) as (t & -> & Ht).
  rewrite opendir_extend. split_and!.
  - intros ->. exists t. split; [|exact Ht].
    unfold throw, ERROR, cprint, emit, set_errno, extend, with_filenames_built.
    cbn -[String.append opendir]. rewrite <- app_assoc. reflexivity.
  - intros -> Hret. rewrite closedir_extend.
    destruct (Z.eqb_spec (fst (closedir (SYSFS_PATH +:+ interface) w)) 0)
      as [H0|_]; [contradiction|].
    cbn -[String.append closedir]. exists t. split; [|exact Ht].
    unfold throw, ERROR, cprint, emit, set_errno, extend, with_filenames_built.
    cbn -[String.append closedir]. rewrite <- app_assoc. reflexivity.
  - intros Hd Hf. unfold opendir. rewrite decide_False by exact Hd.
    now rewrite Hf.
Qed.
(** * Further properties: descriptors over a lifetime *)

Lemma update_loop_drift `{Countable K} (keys : list K) m w :
  drift w (world_of (update_loop keys m w)).
Proof.
  revert m. induction keys as [|k rest IH]; intros m; simpl.
  - exists (errno w), []. now rewrite extend_nil, set_errno_same.
  - destruct (m !! k) as [i|]; [|apply IH].
    destruct (update_one (fd i) w) as [v w1|e w1] eqn:Hone.
    + apply update_one_Ok_world in Hone as ->. apply IH.
    + apply update_one_Err_world in Hone as (e0 & -> & _).
      now exists e0, [EvPrint (what e)].
Qed.

Lemma drift_trans w1 w2 w3 : drift w1 w2 -> drift w2 w3 -> drift w1 w3.
Proof.
  intros (e1 & t1 & ->) (e2 & t2 & ->). exists e2, (t1 ++ t2).
  unfold set_errno, extend. simpl. now rewrite app_assoc.
Qed.

Lemma update_all_drift s w : drift w (world_of (update_all s w)).
Proof.
  unfold update_all, update_receive_data, update_transmit_data, update_data.
  pose proof (update_loop_drift all_rx_fields (rx_to_update_ s) w) as Hr.
  destruct (update_loop all_rx_fields (rx_to_update_ s) w)
    as [mr w1|e mr w1]; cbn [lift world_of] in *; [|exact Hr].
  rewrite world_of_lift. cbn [tx_to_update_ with_rx].
  eapply drift_trans; [exact Hr|apply update_loop_drift].
Qed.

(** Calls that leave the descriptor table and the descriptors of the
    elements alone keep every tracked counter on its file. *)
(** Calls that leave the descriptor table and the descriptors of the
    elements alone keep every tracked counter on its file. *)
Lemma well_tracked_frame s w s' w' :
  well_tracked (s, w) ->
  (forall fd0 p, fds w !! fd0 = Some p -> fds w' !! fd0 = Some p) ->
  rx_fields_to_filename w' = rx_fields_to_filename w ->
  tx_fields_to_filename w' = tx_fields_to_filename w ->
  interface_stats_path_ s' = interface_stats_path_ s ->
  (forall j, fd <$> rx_to_update_ s' !! j = fd <$> rx_to_update_ s !! j) ->
  (forall j, fd <$> tx_to_update_ s' !! j = fd <$> tx_to_update_ s !! j) ->
  well_tracked (s', w').
Proof.
  intros (Hbuilt & Hrx & Htx) Hfds Hfr Hft Hp Hr Ht.
  unfold well_tracked, rx_path, tx_path in *. cbn [fst snd] in *.
  rewrite Hp. split_and!.
  - eapply filenames_built_frame; eassumption.
  - intros r i Hi. specialize (Hr r). rewrite Hi in Hr.
    destruct (rx_to_update_ s !! r) as [i0|] eqn:Hi0; [|discriminate].
    simpl in Hr. injection Hr as Hfd. rewrite Hfd.
    destruct (Hrx r i0 Hi0) as [Hopen Hpos]. split; [now apply Hfds|exact Hpos].
  - intros t i Hi. specialize (Ht t). rewrite Hi in Ht.
    destruct (tx_to_update_ s !! t) as [i0|] eqn:Hi0; [|discriminate].
    simpl in Ht. injection Ht as Hfd. rewrite Hfd.
    destruct (Htx t i0 Hi0) as [Hopen Hpos]. split; [now apply Hfds|exact Hpos].
Qed.

Lemma well_tracked_drift s w s' w' :
  well_tracked (s, w) ->
  drift w w' ->
  interface_stats_path_ s' = interface_stats_path_ s ->
  (forall j, fd <$> rx_to_update_ s' !! j = fd <$> rx_to_update_ s !! j) ->
  (forall j, fd <$> tx_to_update_ s' !! j = fd <$> tx_to_update_ s !! j) ->
  well_tracked (s', w').
Proof.
  intros Hinv (e & t & ->) Hp Hr Ht.
  now apply (well_tracked_frame s w).
Qed.

Lemma set_rx_well_tracked u s w :
  well_tracked (s, w) -> well_tracked (after (set_rx_stats_to_update u s w)).
Proof.
  intros (Hbuilt & Hrx & Htx). cbn [fst snd] in *.
  unfold after, set_rx_stats_to_update, set_stats_to_update.
  rewrite state_of_lift, world_of_lift.
  destruct (set_stats_loop_opens rx_name rx_fields_to_filename
              set_rx_filenames
              "For '%s': already monitoring -- ignoring request\n"
              "For '%s': opening stats file @ '%s'\n"
              "For '%s': opening stats file '%s'"
              rx_file (interface_stats_path_ s)
              (fun w w' Hr _ => Hr) set_rx_filenames_id rx_file_inj
              (set_elements all_rx_fields u) (rx_to_update_ s) w
              (fun k => built_rx_lookup w k Hbuilt))
    as (Hsr & Hst & _).
  destruct (set_stats_loop_fds rx_name rx_fields_to_filename
              set_rx_filenames
              "For '%s': already monitoring -- ignoring request\n"
              "For '%s': opening stats file @ '%s'\n"
              "For '%s': opening stats file '%s'"
              rx_file (interface_stats_path_ s)
              (fun w w' Hr _ => Hr) set_rx_filenames_id
              (set_elements all_rx_fields u) (rx_to_update_ s) w
              (fun k => built_rx_lookup w k Hbuilt))
    as (_ & Hold & Hnew).
  match type of Hsr with
  | rx_fields_to_filename (world_of ?o) = _ => set (run := o) in *
  end.
  unfold well_tracked, rx_path, tx_path.
  cbn [fst snd rx_to_update_ tx_to_update_ interface_stats_path_ with_rx].
  split_and!.
  - eapply filenames_built_frame; eassumption.
  - intros r i Hi.
    destruct (Hnew r i Hi) as [Hkept | (_ & _ & _ & Hpos & _ & Hopen & _)].
    + destruct (Hrx r i Hkept) as [Hopen Hpos]. split; [|exact Hpos].
      now apply Hold.
    + split; [exact Hopen|exact Hpos].
  - intros t i Hi. destruct (Htx t i Hi) as [Hopen Hpos].
    split; [now apply Hold|exact Hpos].
Qed.

Lemma set_tx_well_tracked u s w :
  well_tracked (s, w) -> well_tracked (after (set_tx_stats_to_update u s w)).
Proof.
  intros (Hbuilt & Hrx & Htx). cbn [fst snd] in *.
  unfold after, set_tx_stats_to_update, set_stats_to_update.
  rewrite state_of_lift, world_of_lift.
  destruct (set_stats_loop_opens tx_name tx_fields_to_filename
              set_tx_filenames
              "For '%s': already monitoring -- ignoring request\n"
              "For %s: opening stats file @ '%s'\n"
              "For %s: Opening stats file '%s'"
              tx_file (interface_stats_path_ s)
              (fun w w' _ Ht => Ht) set_tx_filenames_id tx_file_inj
              (set_elements all_tx_fields u) (tx_to_update_ s) w
              (fun k => built_tx_lookup w k Hbuilt))
    as (Hsr & Hst & _).
  destruct (set_stats_loop_fds tx_name tx_fields_to_filename
              set_tx_filenames
              "For '%s': already monitoring -- ignoring request\n"
              "For %s: opening stats file @ '%s'\n"
              "For %s: Opening stats file '%s'"
              tx_file (interface_stats_path_ s)
              (fun w w' _ Ht => Ht) set_tx_filenames_id
              (set_elements all_tx_fields u) (tx_to_update_ s) w
              (fun k => built_tx_lookup w k Hbuilt))
    as (_ & Hold & Hnew).
  match type of Hsr with
  | rx_fields_to_filename (world_of ?o) = _ => set (run := o) in *
  end.
  unfold well_tracked, rx_path, tx_path.
  cbn [fst snd rx_to_update_ tx_to_update_ interface_stats_path_ with_tx].
  split_and!.
  - eapply filenames_built_frame; eassumption.
  - intros r i Hi. destruct (Hrx r i Hi) as [Hopen Hpos].
    split; [now apply Hold|exact Hpos].
  - intros t i Hi.
    destruct (Hnew t i Hi) as [Hkept | (_ & _ & _ & Hpos & _ & Hopen & _)].
    + destruct (Htx t i Hkept) as [Hopen Hpos]. split; [|exact Hpos].
      now apply Hold.
    + split; [exact Hopen|exact Hpos].
Qed.

Lemma step_well_tracked s w c :
  well_tracked (s, w) -> well_tracked (step (s, w) c).
Proof.
  intros Hinv.
  destruct c as [u|u| | | |fs e junk]; cbn [step].
  - now apply set_rx_well_tracked.
  - now apply set_tx_well_tracked.
  - unfold after. destruct (update_all_state s w) as (mr & mt & Hs & Hr & Ht).
    eapply well_tracked_drift; [exact Hinv|apply update_all_drift|..];
      rewrite Hs; try assumption. reflexivity.
  - unfold after, update_receive_data, update_data.
    rewrite state_of_lift, world_of_lift.
    eapply well_tracked_drift; [exact Hinv|apply update_loop_drift|..];
      [reflexivity| |reflexivity].
    intros j. apply update_loop_handles.
  - unfold after, update_transmit_data, update_data.
    rewrite state_of_lift, world_of_lift.
    eapply well_tracked_drift; [exact Hinv|apply update_loop_drift|..];
      [reflexivity|reflexivity|].
    intros j. apply update_loop_handles.
  - now apply (well_tracked_frame s w).
Qed.

Lemma lifetime_well_tracked calls sw :
  well_tracked sw -> well_tracked (lifetime calls sw).
Proof.
  revert sw. induction calls as [|c calls IH]; intros [s w] Hinv.
  - exact Hinv.
  - change (lifetime (c :: calls) (s, w))
      with (lifetime calls (step (s, w) c)).
    apply IH. now apply step_well_tracked.
Qed.

(** A monitor just constructed tracks nothing. *)
Lemma ctor_well_tracked interface w0 s w :
  filenames_sound w0 ->
  network_stats_ctor interface w0 = Ok s w ->
  well_tracked (s, w).
Proof.
  intros Hsound Hctor.
  pose proof (ctor_built _ _ _ _ Hsound Hctor) as Hbuilt.
  destruct (ctor_maps _ _ _ _ Hctor) as (Hrx & Htx & _).
  unfold well_tracked. cbn [fst snd]. rewrite Hrx, Htx.
  split_and!; [exact Hbuilt|..]; intros k i Hi;
    now rewrite lookup_empty in Hi.
Qed.

Lemma rx_path_inj s j k : rx_path s j = rx_path s k -> j = k.
Proof. intros Heq. apply append_inj_l in Heq. now apply rx_file_inj. Qed.

Lemma tx_path_inj s j k : tx_path s j = tx_path s k -> j = k.
Proof. intros Heq. apply append_inj_l in Heq. now apply tx_file_inj. Qed.

Lemma rx_tx_path_ne s r t : rx_path s r <> tx_path s t.
Proof. intros Heq. apply append_inj_l in Heq. now apply rx_tx_file_ne in Heq. Qed.

(** X13.  Throughout the life of a constructed monitor, whatever calls are
    made, whichever of them throw, and whatever the rest of the system does
    to the files and to [errno] in between: every tracked counter holds a
    descriptor that [open] returned, that is open on the statistics file of
    its own kind under the path of the interface; hence no two tracked
    counters share a descriptor, so no counter ever reads the file of
    another. *)
Theorem lifetime_descriptors (interface : string) (w0 : world)
    (s : network_stats) (w : world) (calls : list call) :
  filenames_sound w0 ->
  network_stats_ctor interface w0 = Ok s w ->
  let s' := fst (lifetime calls (s, w)) in
  let w' := snd (lifetime calls (s, w)) in
  well_tracked (s', w') /\
  interface_stats_path_ s'
  = (SYSFS_PATH +:+ interface +:+ STATS_DIR)%string /\
  (forall j k a b,
     rx_to_update_ s' !! j = Some a -> rx_to_update_ s' !! k = Some b ->
     fd a = fd b -> j = k) /\
  (forall j k a b,
     tx_to_update_ s' !! j = Some a -> tx_to_update_ s' !! k = Some b ->
     fd a = fd b -> j = k) /\
  (forall r t a b,
     rx_to_update_ s' !! r = Some a -> tx_to_update_ s' !! t = Some b ->
     fd a <> fd b).
Proof.
  intros Hsound Hctor.
  pose proof (lifetime_well_tracked calls _
                (ctor_well_tracked _ _ _ _ Hsound Hctor)) as Hinv.
  assert (Hpath : interface_stats_path_ (fst (lifetime calls (s, w)))
                  = interface_stats_path_ s).
  { clear. revert s w. induction calls as [|c calls IH]; intros s w.
    - reflexivity.
    - change (lifetime (c :: calls) (s, w))
        with (lifetime calls (step (s, w) c)).
      destruct (step (s, w) c) as [s1 w1] eqn:Hstep. rewrite IH.
      destruct c as [u|u| | | |fs e junk]; cbn [step] in Hstep;
        unfold after in Hstep; injection Hstep as <- _.
      + unfold set_rx_stats_to_update. now rewrite state_of_lift.
      + unfold set_tx_stats_to_update. now rewrite state_of_lift.
      + destruct (update_all_state s w) as (mr & mt & -> & _). reflexivity.
      + unfold update_receive_data. now rewrite state_of_lift.
      + unfold update_transmit_data. now rewrite state_of_lift.
      + reflexivity. }
  destruct (ctor_maps _ _ _ _ Hctor) as (_ & _ & Hp0).
  destruct (lifetime calls (s, w)) as [s' w'] eqn:Hlife.
  cbn [fst snd] in *. pose proof Hinv as (_ & Hrx & Htx).
  cbn [fst snd] in Hrx, Htx.
  split_and!.
  - exact Hinv.
  - congruence.
  - intros j k a b Ha Hb Hfd.
    destruct (Hrx j a Ha) as [Hoa _]. destruct (Hrx k b Hb) as [Hob _].
    rewrite Hfd in Hoa. apply (rx_path_inj s'). congruence.
  - intros j k a b Ha Hb Hfd.
    destruct (Htx j a Ha) as [Hoa _]. destruct (Htx k b Hb) as [Hob _].
    rewrite Hfd in Hoa. apply (tx_path_inj s'). congruence.
  - intros r t a b Ha Hb Hfd.
    destruct (Hrx r a Ha) as [Hoa _]. destruct (Htx t b Hb) as [Hob _].
    rewrite Hfd in Hoa. apply (rx_tx_path_ne s' r t). congruence.
Qed.

(** * Further properties: from the files to the snapshot *)



(** * Further properties: the static tables *)

(** X15.  The static tables are complete and consistent.  Built from
    empty maps, or built again over built maps, they are the built maps
    (an [insert] never overwrites).  In the built maps every kind has a file
    name, which is its printed name in lower case; and the statistics paths
    of one interface are pairwise distinct, receive and transmit kinds
    taken together. *)
Theorem static_tables_consistent :
  (forall w, filenames_sound w ->
             filenames_built (build_fields_to_filename_maps w)) /\
  (forall w, filenames_built w ->
     (forall r, rx_fields_to_filename w !! r = Some (lowercase (rx_name r))) /\
     (forall t, tx_fields_to_filename w !! t = Some (lowercase (tx_name t)))) /\
  (forall s j k, rx_path s j = rx_path s k -> j = k) /\
  (forall s j k, tx_path s j = tx_path s k -> j = k) /\
  (forall s r t, rx_path s r <> tx_path s t).
Proof.
  split_and!.
  - intros w [[Hrx Htx]|[Hrx Htx]];
      unfold build_fields_to_filename_maps, filenames_built, CPRINT, cprint;
      simpl; rewrite Hrx, Htx; split; vm_compute; reflexivity.
  - intros w [Hrx Htx]. rewrite Hrx, Htx. split.
    + intros r. destruct r; vm_compute; reflexivity.
    + intros t. destruct t; vm_compute; reflexivity.
  - exact rx_path_inj.
  - exact tx_path_inj.
  - exact rx_tx_path_ne.
Qed.

(** * Further properties: the destructor and the descriptor table *)

Lemma lowest_free_from_least n fd0 (t : gmap Z string) k :
  fd0 <= k -> t !! k = None -> lowest_free_from n fd0 t <= k.
Proof.
  revert fd0. induction n as [|n IH]; intros fd0 Hle Hk; simpl; [exact Hle|].
  destruct (t !! fd0) as [p|] eqn:Hfd; [|exact Hle].
  apply IH; [|exact Hk]. assert (fd0 <> k) by congruence. lia.
Qed.

Lemma lowest_free_least (t : gmap Z string) k :
  0 <= k -> t !! k = None -> lowest_free t <= k.
Proof. apply lowest_free_from_least. Qed.

Lemma close_fds fd w fd0 :
  fds (snd (close fd w)) !! fd0
  = (if decide (fd0 = fd) then None else fds w !! fd0) /\
  files (snd (close fd w)) = files w.
Proof.
  unfold close. destruct (fds w !! fd) as [p|] eqn:Hfd.
  - destruct (close_error w !! fd); simpl; (split; [|reflexivity]);
      destruct (decide (fd0 = fd)) as [->|Hne];
      first [apply lookup_delete_eq | now apply lookup_delete_ne].
  - simpl. split; [|reflexivity].
    destruct (decide (fd0 = fd)) as [->|Hne]; [exact Hfd|reflexivity].
Qed.

Lemma close_loop_fds `{Countable K} (keys : list K) (m : gmap K netdata)
    w fd0 :
  fds (close_loop keys m w) !! fd0
  = (if decide (fd0 ∈ handles keys m) then None else fds w !! fd0) /\
  files (close_loop keys m w) = files w.
Proof.
  revert w. induction keys as [|k rest IH]; intros w.
  - simpl. split; [|reflexivity].
    destruct (decide (fd0 ∈ handles [] m)) as [Hin|_]; [|reflexivity].
    now apply elem_of_nil in Hin.
  - rewrite handles_cons. simpl. destruct (m !! k) as [i|]; simpl; [|apply IH].
    destruct (close_fds (fd i) w fd0) as (Hone & Hfiles).
    destruct (close (fd i) w) as [ret w1]. simpl in *.
    destruct (IH w1) as (Hrest & Hfiles').
    split; [|congruence].
    rewrite Hrest, Hone.
    destruct (decide (fd0 ∈ handles rest m)) as [Hin|Hnin].
    + rewrite decide_True by (now apply list_elem_of_further). reflexivity.
    + destruct (decide (fd0 = fd i)) as [->|Hne].
      * rewrite decide_True by apply list_elem_of_here. reflexivity.
      * rewrite decide_False; [reflexivity|].
        intros Hin. apply elem_of_cons in Hin as [?|?]; contradiction.
Qed.

Lemma handles_elem `{Countable K} (all : list K) (m : gmap K netdata) k i :
  k ∈ all -> m !! k = Some i -> fd i ∈ handles all m.
Proof.
  intros Hin Hk. unfold handles. apply list_elem_of_omap.
  exists k. split; [exact Hin|]. now rewrite Hk.
Qed.

(** X16.  The destructor releases exactly the descriptors the monitor
    holds.  After it, no descriptor of a tracked counter is open, whether
    or not its [close] reported an error; every other descriptor of the
    process is as it was; the files are untouched; and the descriptor the
    next [open] returns is not above the one it would have returned
    before. *)
Theorem dtor_releases_descriptors (s : network_stats) (w : world) :
  (forall fd0,
     fds (network_stats_dtor s w) !! fd0
     = if decide (fd0 ∈ handles all_rx_fields (rx_to_update_ s)
                        ++ handles all_tx_fields (tx_to_update_ s))
       then None else fds w !! fd0) /\
  (forall r i, rx_to_update_ s !! r = Some i ->
               fds (network_stats_dtor s w) !! fd i = None) /\
  (forall t i, tx_to_update_ s !! t = Some i ->
               fds (network_stats_dtor s w) !! fd i = None) /\
  files (network_stats_dtor s w) = files w /\
  lowest_free (fds (network_stats_dtor s w)) <= lowest_free (fds w).
Proof.
  assert (Hall : forall fd0,
     fds (network_stats_dtor s w) !! fd0
     = if decide (fd0 ∈ handles all_rx_fields (rx_to_update_ s)
                        ++ handles all_tx_fields (tx_to_update_ s))
       then None else fds w !! fd0).
  { intros fd0. unfold network_stats_dtor.
    destruct (CPRINT_extend "Shutting down\n" [] w) as (t0 & -> & _).
    destruct (close_loop_fds all_tx_fields (tx_to_update_ s)
                (close_loop all_rx_fields (rx_to_update_ s) (extend t0 w)) fd0)
      as (-> & _).
    destruct (close_loop_fds all_rx_fields (rx_to_update_ s) (extend t0 w) fd0)
      as (-> & _).
    cbn [fds extend].
    destruct (decide (fd0 ∈ handles all_tx_fields (tx_to_update_ s)))
      as [Ht|Ht].
    - rewrite decide_True; [reflexivity|]. apply elem_of_app. now right.
    - destruct (decide (fd0 ∈ handles all_rx_fields (rx_to_update_ s)))
        as [Hr|Hr].
      + rewrite decide_True; [reflexivity|]. apply elem_of_app. now left.
      + rewrite decide_False; [reflexivity|].
        intros Hin. apply elem_of_app in Hin as [?|?]; contradiction. }
  split_and!.
  - exact Hall.
  - intros r i Hi. rewrite Hall, decide_True; [reflexivity|].
    apply elem_of_app. left.
    eapply handles_elem; [apply all_rx_fields_complete|exact Hi].
  - intros t i Hi. rewrite Hall, decide_True; [reflexivity|].
    apply elem_of_app. right.
    eapply handles_elem; [apply all_tx_fields_complete|exact Hi].
  - unfold network_stats_dtor.
    destruct (CPRINT_extend "Shutting down\n" [] w) as (t0 & -> & _).
    destruct (close_loop_fds all_tx_fields (tx_to_update_ s)
                (close_loop all_rx_fields (rx_to_update_ s) (extend t0 w)) 0)
      as (_ & ->).
    now destruct (close_loop_fds all_rx_fields (rx_to_update_ s)
                    (extend t0 w) 0) as (_ & ->).
  - apply lowest_free_least; [apply lowest_free_nonneg|].
    rewrite Hall. destruct (decide _); [reflexivity|].
    apply lowest_free_free.
Qed.

(** * Further properties: texts that hold no number *)

Lemma strtol_no_numeral txt w :
  no_numeral txt ->
  strtol (c_str (list_ascii_of_string txt)) w
  = (0, O, if einval_on_no_digits w then set_errno EINVAL w else w).
Proof.
  destruct txt as [|c rest]; [contradiction|].
  intros (Hsp & Hd & Hm & Hp). cbn [list_ascii_of_string c_str].
  destruct (Ascii.eqb c NUL); [reflexivity|].
  unfold strtol. cbn [skip_space]. rewrite Hsp.
  unfold sign_of. rewrite Hm, Hp. cbn [digits]. rewrite Hd. reflexivity.
Qed.

(** X17.  A statistics file whose text begins with a character that is
    neither white space, nor a sign, nor a digit does not make
    [update_one] fail by itself: the end pointer of [strtol] is never
    looked at.  Where the C library leaves [errno] alone when it converts
    nothing, the counter reads as 0 without any error; where it sets EINVAL,
    the conversion test throws and leaves EINVAL in [errno]. *)
Theorem nonnumeric_text_reads_zero (w : world) (fd : Z) (txt : string) :
  counter_text w fd txt ->
  (String.length txt < 32)%nat ->
  no_numeral txt ->
  errno_clear w ->
  (einval_on_no_digits w = false -> update_one fd w = Ok 0 w) /\
  (einval_on_no_digits w = true ->
   exists e w',
     update_one fd w = Err e w' /\ is_conversion_error e /\
     errno w' = EINVAL).
Proof.
  intros Htxt Hlen Hno Hclear.
  assert (Hpos : (0 < String.length txt)%nat).
  { destruct txt; [contradiction|simpl; lia]. }
  rewrite (update_one_text w fd txt Htxt (conj Hpos Hlen)).
  cbv zeta. rewrite (strtol_no_numeral txt w Hno). split; intros ->.
  - now rewrite (errno_clear_test w Hclear).
  - cbn [errno set_errno]. simpl negb. cbn [andb].
    eexists _, _. split; [reflexivity|]. split; [|reflexivity].
    eexists _, _. reflexivity.
Qed.

(** * Further properties: how calls compose *)

Lemma step_keeps_rx s w c r i :
  rx_to_update_ s !! r = Some i ->
  exists i', rx_to_update_ (fst (step (s, w) c)) !! r = Some i' /\
             fd i' = fd i.
Proof.
  intros Hr.
  assert (Hfd : forall m : gmap rx_fields netdata,
            fd <$> m !! r = fd <$> rx_to_update_ s !! r ->
            exists i', m !! r = Some i' /\ fd i' = fd i).
  { intros m Hm. rewrite Hr in Hm. destruct (m !! r) as [i'|]; [|discriminate].
    injection Hm as Hm. eauto. }
  destruct c as [u|u| | | |fs e junk]; cbn [step]; unfold after; cbn [fst].
  - unfold set_rx_stats_to_update, set_stats_to_update.
    rewrite state_of_lift. cbn [rx_to_update_ with_rx].
    exists i. split; [|reflexivity]. now apply set_stats_loop_kept.
  - unfold set_tx_stats_to_update. rewrite state_of_lift. eauto.
  - destruct (update_all_state s w) as (mr & mt & -> & Hmr & _).
    cbn [rx_to_update_ with_rx with_tx]. apply Hfd, Hmr.
  - unfold update_receive_data, update_data. rewrite state_of_lift.
    cbn [rx_to_update_ with_rx]. apply Hfd, update_loop_handles.
  - unfold update_transmit_data. rewrite state_of_lift. eauto.
  - eauto.
Qed.

Lemma step_keeps_tx s w c t i :
  tx_to_update_ s !! t = Some i ->
  exists i', tx_to_update_ (fst (step (s, w) c)) !! t = Some i' /\
             fd i' = fd i.
Proof.
  intros Ht.
  assert (Hfd : forall m : gmap tx_fields netdata,
            fd <$> m !! t = fd <$> tx_to_update_ s !! t ->
            exists i', m !! t = Some i' /\ fd i' = fd i).
  { intros m Hm. rewrite Ht in Hm. destruct (m !! t) as [i'|]; [|discriminate].
    injection Hm as Hm. eauto. }
  destruct c as [u|u| | | |fs e junk]; cbn [step]; unfold after; cbn [fst].
  - unfold set_rx_stats_to_update. rewrite state_of_lift. eauto.
  - unfold set_tx_stats_to_update, set_stats_to_update.
    rewrite state_of_lift. cbn [tx_to_update_ with_tx].
    exists i. split; [|reflexivity]. now apply set_stats_loop_kept.
  - destruct (update_all_state s w) as (mr & mt & -> & _ & Hmt).
    cbn [tx_to_update_ with_rx with_tx]. apply Hfd, Hmt.
  - unfold update_receive_data. rewrite state_of_lift. eauto.
  - unfold update_transmit_data, update_data. rewrite state_of_lift.
    cbn [tx_to_update_ with_tx]. apply Hfd, update_loop_handles.
  - eauto.
Qed.

(** X18.  Tracking is for life.  Once a kind is tracked it stays tracked
    through every later call, throwing or not, and keeps the descriptor it
    was given: no call drops a counter or opens its file again. *)
Theorem tracked_for_life (calls : list call) (s : network_stats)
    (w : world) :
  (forall r i,
     rx_to_update_ s !! r = Some i ->
     exists i', rx_to_update_ (fst (lifetime calls (s, w))) !! r = Some i' /\
                fd i' = fd i) /\
  (forall t i,
     tx_to_update_ s !! t = Some i ->
     exists i', tx_to_update_ (fst (lifetime calls (s, w))) !! t = Some i' /\
                fd i' = fd i).
Proof.
  revert s w. induction calls as [|c calls IH]; intros s w.
  - split; eauto.
  - change (lifetime (c :: calls) (s, w))
      with (lifetime calls (step (s, w) c)).
    split.
    + intros r i Hr.
      destruct (step_keeps_rx s w c r i Hr) as (i1 & H1 & Hfd1).
      destruct (step (s, w) c) as [s1 w1]. cbn [fst] in H1.
      destruct (IH s1 w1) as [Hrx _].
      destruct (Hrx r i1 H1) as (i' & Hi' & Hfd'). exists i'.
      split; [exact Hi'|congruence].
    + intros t i Ht.
      destruct (step_keeps_tx s w c t i Ht) as (i1 & H1 & Hfd1).
      destruct (step (s, w) c) as [s1 w1]. cbn [fst] in H1.
      destruct (IH s1 w1) as [_ Htx].
      destruct (Htx t i1 H1) as (i' & Hi' & Hfd'). exists i'.
      split; [exact Hi'|congruence].
Qed.

(** X19.  A failed subscription can block the updates that follow.  A
    subscribe call that throws leaves in [errno] the code with which the
    [open] of a requested file failed (ENOENT for a file that does not
    exist), the code its exception carries.  Unless that code is 0 or
    EINTR, if the monitor tracks any counter the next [update_all] throws
    as well and refreshes nothing, although every tracked file may be
    perfectly readable: nothing clears [errno] between the failed [open]
    and the test after [strtol]. *)
Theorem failed_subscribe_blocks_update (s : network_stats) (w : world) :
  filenames_built w ->
  (forall u e s' w',
     set_rx_stats_to_update u s w = Raised e s' w' ->
     (exists r, r ∈ u /\ open_failure w (rx_path s r) = Some (errno w')) /\
     os_errno_of (what e) = Some (errno w') /\
     (~ errno_clear w' ->
      (exists r i, rx_to_update_ s' !! r = Some i) \/
      (exists t i, tx_to_update_ s' !! t = Some i) ->
      exists e2 w2, update_all s' w' = Raised e2 s' w2)) /\
  (forall u e s' w',
     set_tx_stats_to_update u s w = Raised e s' w' ->
     (exists t, t ∈ u /\ open_failure w (tx_path s t) = Some (errno w')) /\
     os_errno_of (what e) = Some (errno w') /\
     (~ errno_clear w' ->
      (exists r i, rx_to_update_ s' !! r = Some i) \/
      (exists t i, tx_to_update_ s' !! t = Some i) ->
      exists e2 w2, update_all s' w' = Raised e2 s' w2)).
Proof.
  intros Hbuilt. split; intros u e s' w' Hrun.
  - unfold set_rx_stats_to_update in Hrun.
    apply lift_Raised in Hrun as (m' & Hrun & ->).
    unfold set_stats_to_update in Hrun.
    eapply (set_stats_loop_Raised rx_name rx_fields_to_filename
              set_rx_filenames _ _ _ rx_file (interface_stats_path_ s)
              (fun w w' Hr _ => Hr) set_rx_filenames_id) in Hrun;
      [|intros k; now apply built_rx_lookup].
    destruct Hrun as (pre & r & post & e0 & Hsplit & _ & _ & Hfail & -> & <-
                      & _).
    split_and!.
    + exists r. split; [|exact Hfail].
      apply (set_elements_subset all_rx_fields). rewrite Hsplit.
      apply elem_of_app. right. apply list_elem_of_here.
    + reflexivity.
    + intros Hpending Htracked. now apply update_all_pending.
  - unfold set_tx_stats_to_update in Hrun.
    apply lift_Raised in Hrun as (m' & Hrun & ->).
    unfold set_stats_to_update in Hrun.
    eapply (set_stats_loop_Raised tx_name tx_fields_to_filename
              set_tx_filenames _ _ _ tx_file (interface_stats_path_ s)
              (fun w w' _ Ht => Ht) set_tx_filenames_id) in Hrun;
      [|intros k; now apply built_tx_lookup].
    destruct Hrun as (pre & t & post & e0 & Hsplit & _ & _ & Hfail & -> & <-
                      & _).
    split_and!.
    + exists t. split; [|exact Hfail].
      apply (set_elements_subset all_tx_fields). rewrite Hsplit.
      apply elem_of_app. right. apply list_elem_of_here.
    + reflexivity.
    + intros Hpending Htracked. now apply update_all_pending.
Qed.

(** X20.  [update_all] is [update_receive_data] followed by
    [update_transmit_data]; when it returns, the two partial updates give
    the same object and world in the other order as well, and each of them
    alone leaves the other side's values untouched. *)
Theorem partial_updates_commute (s : network_stats) (w : world)
    (s' : network_stats) (w' : world) :
  update_all s w = Done s' w' ->
  lifetime [call_update_receive_data; call_update_transmit_data] (s, w)
  = (s', w') /\
  lifetime [call_update_transmit_data; call_update_receive_data] (s, w)
  = (s', w') /\
  tx_to_update_ (state_of (update_receive_data s w)) = tx_to_update_ s /\
  rx_to_update_ (state_of (update_transmit_data s w)) = rx_to_update_ s.
Proof.
  intros Hrun.
  destruct (update_all_Done_inv _ _ _ _ Hrun) as (-> & Hrx & Htx).
  destruct (update_loop_Done _ _ _ Hrx) as (mr & Hr & Hmr).
  destruct (update_loop_Done _ _ _ Htx) as (mt & Ht & Hmt).
  assert (Hs : s' = with_tx (with_rx s mr) mt).
  { revert Hrun.
    unfold update_all, update_receive_data, update_transmit_data, update_data.
    rewrite Hr. cbn [lift tx_to_update_ with_rx]. rewrite Ht. cbn [lift].
    now intros [= <-]. }
  subst s'. unfold lifetime. cbn [foldl].
  split_and!.
  - cbn [step]. unfold after, update_receive_data, update_data.
    rewrite Hr. cbn [lift state_of world_of step].
    unfold after, update_transmit_data, update_data.
    cbn [tx_to_update_ with_rx]. rewrite Ht. reflexivity.
  - cbn [step]. unfold after, update_transmit_data, update_data.
    rewrite Ht. cbn [lift state_of world_of step].
    unfold after, update_receive_data, update_data.
    cbn [rx_to_update_ with_tx]. rewrite Hr. reflexivity.
  - unfold update_receive_data. now rewrite state_of_lift.
  - unfold update_transmit_data. now rewrite state_of_lift.
Qed.

(** X21.  A descriptor that cannot be rewound is reported before anything
    is read: [update_one] throws through [ERROR] with the message of the
    failed [lseek] and the [errno] it left, EBADF when the descriptor is
    not open at all, and an [update_all] of a monitor that tracks such a
    descriptor throws. *)
Theorem lseek_failure_reported (w : world) (fd0 : Z) :
  ~ seekable w fd0 ->
  (exists e0,
     update_one fd0 w
     = Err (runtime_error
              (OsError "lseek for file descriptor %d" [AInt fd0] e0))
           (set_errno e0
              (extend [EvPrint (OsError "lseek for file descriptor %d"
                                        [AInt fd0] e0)] w)) /\
     (fds w !! fd0 = None -> e0 = EBADF)) /\
  (forall s r i, rx_to_update_ s !! r = Some i -> fd i = fd0 ->
                 raised_by (update_all s w) <> None) /\
  (forall s t i, tx_to_update_ s !! t = Some i -> fd i = fd0 ->
                 raised_by (update_all s w) <> None).
Proof.
  intros Hseek.
  assert (Hone : exists e0,
     update_one fd0 w
     = Err (runtime_error
              (OsError "lseek for file descriptor %d" [AInt fd0] e0))
           (set_errno e0
              (extend [EvPrint (OsError "lseek for file descriptor %d"
                                        [AInt fd0] e0)] w)) /\
     (fds w !! fd0 = None -> e0 = EBADF)).
  { unfold seekable in Hseek. unfold update_one, update_one_read.
    revert Hseek. unfold lseek.
    destruct (fds w !! fd0) as [path|]; simpl.
    - destruct (files w !! path) as [[[e|] re txt]|]; simpl;
        try (intros Hn; now contradiction Hn).
      intros _. exists e. split; [reflexivity|discriminate].
    - intros _. exists EBADF. split; [reflexivity|trivial]. }
  split_and!.
  - exact Hone.
  - intros s r i Hr Hfd. destruct Hone as (e0 & Hfail & _).
    rewrite <- Hfd in Hfail.
    destruct (update_all_fails_rx s w r i _ _ Hr Hfail)
      as (e & s' & w' & -> & _). discriminate.
  - intros s t i Ht Hfd. destruct Hone as (e0 & Hfail & _).
    rewrite <- Hfd in Hfail.
    destruct (update_all_fails_tx s w t i _ _ Ht Hfail)
      as (e & s' & w' & -> & _). discriminate.
Qed.

(** * Instances of the further properties *)

(** In the example an update that returns leaves the world as it was. *)
Lemma update_all_world_witness :
  world_of (update_all (fst demo) (snd demo)) = snd demo.
Proof.
  refine (proj1 (update_all_world (fst demo) (snd demo))
            (state_of (update_all (fst demo) (snd demo)))
            (world_of (update_all (fst demo) (snd demo))) _).
  vm_compute. reflexivity.
Defined.

(** With ENOENT pending the example monitor cannot update. *)
Lemma update_all_pending_errno_witness :
  exists e w',
    update_all (fst demo) (set_errno ENOENT (snd demo))
    = Raised e (fst demo) w'.
Proof.
  refine (proj1 (update_all_pending_errno (fst demo)
                   (set_errno ENOENT (snd demo)) _) _).
  - intros [H0|H0]; vm_compute in H0; discriminate.
  - left. intros Hempty.
    apply (f_equal (fun m => map_count RX_BYTES m)) in Hempty.
    vm_compute in Hempty. discriminate.
Defined.


(** In the example a second update changes nothing. *)
Lemma update_all_idempotent_witness :
  update_all (state_of (update_all (fst demo) (snd demo)))
             (world_of (update_all (fst demo) (snd demo)))
  = Done (state_of (update_all (fst demo) (snd demo)))
         (world_of (update_all (fst demo) (snd demo))).
Proof.
  refine (update_all_idempotent (fst demo) (snd demo) _ _ _).
  vm_compute. reflexivity.
Defined.

(** The example has no receive-errors file: the request throws with
    ENOENT, names the kind and the path, and tracks nothing new. *)
Lemma set_rx_stats_to_update_failure_witness :
  exists pre r post e0,
    set_elements all_rx_fields {[ RX_ERRORS ]} = pre ++ r :: post /\
    rx_to_update_ (fst demo) !! r = None /\
    rx_to_update_
      (state_of (set_rx_stats_to_update {[ RX_ERRORS ]} (fst demo) (snd demo)))
      !! r = None /\
    open_failure (snd demo) (rx_path (fst demo) r) = Some e0 /\
    runtime_error
      (OsError "For '%s': opening stats file '%s'"
               [AStr "RX_ERRORS";
                AStr "/sys/class/net/lo/statistics/rx_errors"] ENOENT)
    = runtime_error
        (OsError "For '%s': opening stats file '%s'"
                 [AStr (rx_name r); AStr (rx_path (fst demo) r)] e0) /\
    errno (world_of (set_rx_stats_to_update {[ RX_ERRORS ]} (fst demo)
                       (snd demo))) = e0 /\
    (forall j, j ∈ pre ->
       is_Some (rx_to_update_
                  (state_of (set_rx_stats_to_update {[ RX_ERRORS ]}
                               (fst demo) (snd demo))) !! j)) /\
    (forall j, j ∉ pre ->
       rx_to_update_
         (state_of (set_rx_stats_to_update {[ RX_ERRORS ]} (fst demo)
                      (snd demo))) !! j
       = rx_to_update_ (fst demo) !! j) /\
    tx_to_update_
      (state_of (set_rx_stats_to_update {[ RX_ERRORS ]} (fst demo) (snd demo)))
    = tx_to_update_ (fst demo) /\
    interface_stats_path_
      (state_of (set_rx_stats_to_update {[ RX_ERRORS ]} (fst demo) (snd demo)))
    = interface_stats_path_ (fst demo).
Proof.
  refine (set_rx_stats_to_update_failure {[ RX_ERRORS ]} (fst demo) (snd demo)
            _ _ _ _ _).
  - split; vm_compute; reflexivity.
  - vm_compute. reflexivity.
Defined.

(** The transmit-errors file of this process exists and cannot be opened
    for lack of permission: the request throws with EACCES. *)
Lemma set_tx_stats_to_update_failure_witness :
  let w := with_files
             (<[ "/sys/class/net/lo/statistics/tx_errors"%string
                 := unopenable EACCES ]> demo_files) (snd demo) in
  exists pre t post e0,
    set_elements all_tx_fields {[ TX_ERRORS ]} = pre ++ t :: post /\
    tx_to_update_ (fst demo) !! t = None /\
    tx_to_update_
      (state_of (set_tx_stats_to_update {[ TX_ERRORS ]} (fst demo) w))
      !! t = None /\
    open_failure w (tx_path (fst demo) t) = Some e0 /\
    runtime_error
      (OsError "For %s: Opening stats file '%s'"
               [AStr "TX_ERRORS";
                AStr "/sys/class/net/lo/statistics/tx_errors"] EACCES)
    = runtime_error
        (OsError "For %s: Opening stats file '%s'"
                 [AStr (tx_name t); AStr (tx_path (fst demo) t)] e0) /\
    errno (world_of (set_tx_stats_to_update {[ TX_ERRORS ]} (fst demo) w))
    = e0 /\
    (forall j, j ∈ pre ->
       is_Some (tx_to_update_
                  (state_of (set_tx_stats_to_update {[ TX_ERRORS ]}
                               (fst demo) w)) !! j)) /\
    (forall j, j ∉ pre ->
       tx_to_update_
         (state_of (set_tx_stats_to_update {[ TX_ERRORS ]} (fst demo) w)) !! j
       = tx_to_update_ (fst demo) !! j) /\
    rx_to_update_
      (state_of (set_tx_stats_to_update {[ TX_ERRORS ]} (fst demo) w))
    = rx_to_update_ (fst demo) /\
    interface_stats_path_
      (state_of (set_tx_stats_to_update {[ TX_ERRORS ]} (fst demo) w))
    = interface_stats_path_ (fst demo).
Proof.
  intros w.
  refine (set_tx_stats_to_update_failure {[ TX_ERRORS ]} (fst demo) w
            _ _ _ _ _).
  - split; vm_compute; reflexivity.
  - vm_compute. reflexivity.
Defined.

(** In the example the receive-packets file can be opened. *)
Lemma set_rx_stats_to_update_success_witness :
  (forall r, r ∈ ({[ RX_PACKETS ]} : gset rx_fields) ->
             rx_to_update_ (fst demo) !! r = None ->
             open_failure (snd demo) (rx_path (fst demo) r) = None) <->
  raised_by (set_rx_stats_to_update {[ RX_PACKETS ]} (fst demo) (snd demo))
  = None.
Proof.
  refine (proj1 (set_rx_stats_to_update_success {[ RX_PACKETS ]} (fst demo)
                   (snd demo) _)).
  split; vm_compute; reflexivity.
Defined.

Lemma set_tx_stats_to_update_success_witness :
  (forall t, t ∈ ({[ TX_BYTES ]} : gset tx_fields) ->
             tx_to_update_ (fst demo) !! t = None ->
             open_failure (snd demo) (tx_path (fst demo) t) = None) <->
  raised_by (set_tx_stats_to_update {[ TX_BYTES ]} (fst demo) (snd demo))
  = None.
Proof.
  refine (proj1 (set_tx_stats_to_update_success {[ TX_BYTES ]} (fst demo)
                   (snd demo) _)).
  split; vm_compute; reflexivity.
Defined.

(** Construction of the monitor of [lo] in a fresh process. *)
Lemma ctor_success_witness :
  thrown (network_stats_ctor "lo" (boot demo_files 0 false)) = None.
Proof.
  refine (proj1 (proj2 (ctor_success "lo" (boot demo_files 0 false) _)) _).
  - left. split; reflexivity.
  - vm_compute. reflexivity.
Defined.

(** In this process [/sys/class/net/eth9] is a regular file: [opendir]
    fails with ENOTDIR and the constructor reports that code. *)
Lemma ctor_failure_witness :
  let w := with_dir_faults
             {[ "/sys/class/net/eth9"%string := opendir_fails ENOTDIR ]}
             (boot demo_files 0 false) in
  exists t,
    network_stats_ctor "eth9" w
    = Err (runtime_error
             (OsError
                "Cannot find/access network stats path '%s' for interface '%s'"
                [AStr (SYSFS_PATH +:+ "eth9")%string; AStr "eth9"]
                (errno (snd (opendir (SYSFS_PATH +:+ "eth9") w)))))
          (set_errno (errno (snd (opendir (SYSFS_PATH +:+ "eth9") w)))
             (extend
                (t ++ [EvPrint
                         (OsError
                            "Cannot find/access network stats path '%s' for interface '%s'"
                            [AStr (SYSFS_PATH +:+ "eth9")%string;
                             AStr "eth9"]
                            (errno (snd (opendir (SYSFS_PATH +:+ "eth9")
                                           w))))])
                (with_filenames_built w))) /\
    Forall is_trace_line t.
Proof.
  intros w.
  refine (proj1 (ctor_failure "eth9" w _) _).
  - left. split; reflexivity.
  - vm_compute. reflexivity.
Defined.

(** The example monitor after an update: every tracked counter is on its
    own file. *)
Lemma lifetime_descriptors_witness :
  let sw :=
    lifetime [call_set_rx_stats_to_update {[ RX_BYTES; RX_PACKETS ]};
              call_set_tx_stats_to_update {[ TX_BYTES ]}; call_update_all]
      ({| interface_name_ := "lo";
          interface_stats_path_ := "/sys/class/net/lo/statistics/";
          rx_to_update_ := ∅; tx_to_update_ := ∅ |},
       result_world (network_stats_ctor "lo" (boot demo_files 0 false))) in
  well_tracked (fst sw, snd sw).
Proof.
  refine (proj1 (lifetime_descriptors "lo" (boot demo_files 0 false)
                   _ _ _ _ _)).
  - left. split; reflexivity.
  - vm_compute. reflexivity.
Defined.


(** The text abc in the receive-bytes file of the example. *)
Lemma nonnumeric_text_reads_zero_witness :
  update_one 3 (with_files (lo_files (Text "abc") (Text "7") (Text "9"))
                  (snd demo))
  = Ok 0 (with_files (lo_files (Text "abc") (Text "7") (Text "9")) (snd demo)).
Proof.
  refine (proj1 (nonnumeric_text_reads_zero
                   (with_files (lo_files (Text "abc") (Text "7") (Text "9"))
                      (snd demo)) 3 "abc" _ _ _ _) _).
  - exists "/sys/class/net/lo/statistics/rx_bytes"%string.
    split; vm_compute; reflexivity.
  - vm_compute. lia.
  - vm_compute. tauto.
  - left. vm_compute. reflexivity.
  - vm_compute. reflexivity.
Defined.

(** After the failed request for receive errors the example monitor is
    left with ENOENT and cannot update. *)
Lemma failed_subscribe_blocks_update_witness :
  let o := set_rx_stats_to_update {[ RX_ERRORS ]} (fst demo) (snd demo) in
  (exists r, r ∈ ({[ RX_ERRORS ]} : gset rx_fields) /\
             open_failure (snd demo) (rx_path (fst demo) r)
             = Some (errno (world_of o))) /\
  os_errno_of
    (what (runtime_error
             (OsError "For '%s': opening stats file '%s'"
                      [AStr "RX_ERRORS";
                       AStr "/sys/class/net/lo/statistics/rx_errors"]
                      ENOENT)))
  = Some (errno (world_of o)) /\
  (~ errno_clear (world_of o) ->
   (exists r i, rx_to_update_ (state_of o) !! r = Some i) \/
   (exists t i, tx_to_update_ (state_of o) !! t = Some i) ->
   exists e2 w2,
     update_all (state_of o) (world_of o) = Raised e2 (state_of o) w2).
Proof.
  refine (proj1 (failed_subscribe_blocks_update (fst demo) (snd demo) _)
            {[ RX_ERRORS ]} _ _ _ _).
  - split; vm_compute; reflexivity.
  - vm_compute. reflexivity.
Defined.

(** In the example the partial updates give the same in both orders. *)
Lemma partial_updates_commute_witness :
  lifetime [call_update_transmit_data; call_update_receive_data]
    (fst demo, snd demo)
  = (state_of (update_all (fst demo) (snd demo)),
     world_of (update_all (fst demo) (snd demo))).
Proof.
  refine (proj1 (proj2 (partial_updates_commute (fst demo) (snd demo) _ _ _))).
  vm_compute. reflexivity.
Defined.

(** Descriptor 99 is not open in the example. *)
Lemma lseek_failure_reported_witness :
  exists e0,
    update_one 99 (snd demo)
    = Err (runtime_error
             (OsError "lseek for file descriptor %d" [AInt 99] e0))
          (set_errno e0
             (extend [EvPrint (OsError "lseek for file descriptor %d"
                                       [AInt 99] e0)] (snd demo))) /\
    (fds (snd demo) !! 99 = None -> e0 = EBADF).
Proof.
  refine (proj1 (lseek_failure_reported (snd demo) 99 _)).
  intros Hseek. apply Hseek. vm_compute. reflexivity.
Defined.

(** The static maps of a fresh process after they are built. *)
Lemma static_tables_consistent_witness :
  filenames_built
    (build_fields_to_filename_maps (boot demo_files 0 false)).
Proof.
  refine (proj1 static_tables_consistent (boot demo_files 0 false) _).
  left. split; reflexivity.
Defined.

(** After the destructor of the example monitor descriptor 3, that of
    receive bytes, is not open. *)
Lemma dtor_releases_descriptors_witness :
  fds (network_stats_dtor (fst demo) (snd demo)) !! 3 = None.
Proof.
  refine (proj1 (proj2 (dtor_releases_descriptors (fst demo) (snd demo)))
            RX_BYTES (netdata_fd 3) _).
  vm_compute. reflexivity.
Defined.

(** The receive-bytes counter of the example keeps descriptor 3 through a
    failed request and an update. *)
Lemma tracked_for_life_witness :
  exists i',
    rx_to_update_
      (fst (lifetime [call_set_rx_stats_to_update {[ RX_ERRORS ]};
                      call_update_all] (fst demo, snd demo)))
      !! RX_BYTES = Some i' /\
    fd i' = fd (netdata_fd 3).
Proof.
  refine (proj1 (tracked_for_life
                   [call_set_rx_stats_to_update {[ RX_ERRORS ]};
                    call_update_all] (fst demo) (snd demo))
            RX_BYTES (netdata_fd 3) _).
  vm_compute. reflexivity.
Defined.
